(** * numba.dppl.experimental_numpy_lowering_overload

    A shallow embedding of the dpNP lowering layer: the Python lowering
    functions become computations in a builder monad that emit a small
    LLVM-like instruction list, and the emitted list is given a run-time
    semantics (device queue, USM buffers, host cells and arrays, an event
    trace) so that statements about what a lowered call does can be
    proved by running it. *)

From Stdlib Require Import ZArith List String Bool Lia DecimalString.
Import ListNotations.
Close Scope list_scope.
Open Scope string_scope.
Open Scope list_scope.
Open Scope Z_scope.

(* ------------------------------------------------------------------ *)
(** ** Numba types and signatures *)

(** The element types the module imports from numba. *)
Inductive dtype := int32 | int64 | uint32 | uint64 | float32 | float64.

(** Array layouts: 'C', 'F' and 'A' (any, possibly strided). *)
Inductive layout := layout_C | layout_F | layout_A.

Inductive type :=
| Array (dt : dtype) (ndim : nat) (lay : layout)   (* types.Array *)
| Number (dt : dtype)                              (* scalar types *)
| StringLiteral (s : string)                       (* types.StringLiteral *)
| voidptr                                          (* types.voidptr *)
| none.                                            (* types.none *)

Definition intp : type := Number int64.

Record Signature := signature { return_type : type; sig_args : list type }.

Definition dtype_name (dt : dtype) : string :=
  match dt with
  | int32 => "int32" | int64 => "int64"
  | uint32 => "uint32" | uint64 => "uint64"
  | float32 => "float32" | float64 => "float64"
  end.

Definition layout_name (l : layout) : string :=
  match l with layout_C => "C" | layout_F => "F" | layout_A => "A" end.

(** [ty.name] *)
Definition name (ty : type) : string :=
  match ty with
  | Array dt nd lay =>
      ("array(" ++ dtype_name dt ++ ", "
        ++ NilZero.string_of_uint (Nat.to_uint nd) ++ "d, "
        ++ layout_name lay ++ ")")%string
  | Number dt => dtype_name dt
  | StringLiteral s => ("Literal[str](" ++ s ++ ")")%string
  | voidptr => "void*"
  | none => "none"
  end.

(** [ty.layout in 'CF'] *)
Definition layout_in_CF (l : layout) : bool :=
  match l with layout_C | layout_F => true | layout_A => false end.

(** [ty.copy(layout='C')] *)
Definition copy_layout_C (ty : type) : type :=
  match ty with
  | Array dt nd _ => Array dt nd layout_C
  | t => t
  end.

(* ------------------------------------------------------------------ *)
(** ** LLVM types *)

Inductive lltype :=
| IntType (bits : Z)
| VoidType
| PointerType (t : lltype)
| ValueType (t : type).      (* context.get_value_type(t), kept symbolic *)

Record fntype := FunctionType { fn_ret : lltype; fn_params : list lltype }.

Definition ll_char := IntType 8.
Definition ll_char_p := PointerType ll_char.
Definition ll_void := VoidType.
Definition ll_void_p := ll_char_p.
Definition ll_intc := IntType 32.
Definition ll_intc_p := PointerType ll_intc.
Definition ll_intp_t := IntType 64.
Definition intp_t := IntType 64.
Definition ll_intp_p := PointerType intp_t.

(** [context.get_value_type]: [types.voidptr] is an [i8*]; the value type
    of every other numba type is kept as a tag of that type. *)
Definition get_value_type (t : type) : lltype :=
  match t with
  | voidptr => ll_char_p
  | t => ValueType t
  end.

(* ------------------------------------------------------------------ *)
(** ** Exceptions and the state-and-error monad *)

Inductive exc :=
| ImportError (msg : string)
| ValueError (msg : string)
| OverflowError (msg : string)
| NameError (var : string)
| UnboundLocalError (var : string)
| AttributeError (msg : string)
| TypeError (msg : string)
| LookupError (msg : string)
| RuntimeError (msg : string)
| AssertionError
| Fault (msg : string).        (* the machine executes an ill-formed step *)

Inductive result (A : Type) := Ok (a : A) | Raise (e : exc).
Arguments Ok {A} a.
Arguments Raise {A} e.

(** A computation over a mutable state [S] that may raise; the state
    reached when the exception is raised is kept, as a mutated Python
    object keeps its contents. *)
Definition SE (S A : Type) : Type := S -> result A * S.

Definition ret {S A} (a : A) : SE S A := fun s => (Ok a, s).

Definition bind {S A B} (c : SE S A) (k : A -> SE S B) : SE S B :=
  fun s =>
    match c s with
    | (Ok a, s') => k a s'
    | (Raise e, s') => (Raise e, s')
    end.

Definition raise {S A} (e : exc) : SE S A := fun s => (Raise e, s).

Declare Scope se_scope.
Delimit Scope se_scope with se.
Notation "x <- c ;; k" := (bind c (fun x => k))
  (at level 61, c at next level, right associativity) : se_scope.
Notation "' pat <- c ;; k" := (bind c (fun x => match x with pat => k end))
  (at level 61, pat pattern, c at next level, right associativity) : se_scope.
Notation "c ;;; k" := (bind c (fun _ => k))
  (at level 61, right associativity) : se_scope.
Open Scope se_scope.

(** Python tuple unpacking of a sequence into a fixed number of names. *)
Definition unpack1 {S A} (l : list A) : SE S A :=
  match l with
  | [x] => ret x
  | [] => raise (ValueError "not enough values to unpack (expected 1, got 0)")
  | _ => raise (ValueError "too many values to unpack (expected 1)")
  end.

Definition unpack2 {S A} (l : list A) : SE S (A * A) :=
  match l with
  | [x; y] => ret (x, y)
  | [] => raise (ValueError "not enough values to unpack (expected 2, got 0)")
  | [_] => raise (ValueError "not enough values to unpack (expected 2, got 1)")
  | _ => raise (ValueError "too many values to unpack (expected 2)")
  end.

(* ------------------------------------------------------------------ *)
(** ** Run-time values, memory and events *)

Inductive ptr :=
| PNull
| PCell (c : nat)       (* a stack slot made by alloca *)
| PArr (b : nat)        (* the data block of a host array *)
| PDev (b : nat)        (* a USM buffer *)
| PQueue (q : Z).       (* a queue handle *)

Definition ptr_eqb (p q : ptr) : bool :=
  match p, q with
  | PNull, PNull => true
  | PCell c, PCell c' => Nat.eqb c c'
  | PArr b, PArr b' => Nat.eqb b b'
  | PDev b, PDev b' => Nat.eqb b b'
  | PQueue x, PQueue y => Z.eqb x y
  | _, _ => false
  end.

(** The array structure: shape, element type and data block. *)
Record ndarray := mk_ndarray {
  nd_shape : list Z;
  nd_dtype : dtype;
  nd_data : nat
}.

Inductive rval :=
| VInt (z : Z)
| VPtr (p : ptr)
| VArray (a : ndarray)
| VTuple (l : list Z)
| VBytes (bs : list Z)
| VNone.

Inductive event :=
| EvGetQueue (q : Z)
| EvMalloc (buf : nat) (size : Z) (queue : rval)
| EvMemcpy (queue dst src : rval) (size : Z)
| EvFree (buf queue : rval)
| EvInvoke (addr : Z) (params : list rval)
| EvEmpty (block : nat) (shape : list Z) (dt : dtype)
| EvArrayCopy (src dst : nat)
| EvDecref (v : rval).

(** A USM buffer: its size, the queue it was allocated against, its bytes. *)
Record usm := mk_usm { usm_size : Z; usm_queue : rval; usm_bytes : list Z }.

Record machine := mk_machine {
  regs : list rval;                 (* value of the i-th executed instruction *)
  cells : list (lltype * rval);     (* stack slots, by allocation order *)
  blocks : list (list Z);           (* data blocks of host arrays *)
  dev : list usm;                   (* USM buffers, by allocation order *)
  trace : list event                (* what was done, oldest first *)
}.

(** What is outside the lowered code at run time. *)
Record Runtime := {
  current_queue : Z;                           (* the queue manager's current queue *)
  fresh_usm : Z -> list Z;                     (* contents of newly allocated USM *)
  fresh_array : list Z -> dtype -> list Z;     (* contents of np.empty memory *)
  contiguous_bytes : list Z -> list Z -> list Z; (* shape -> bytes -> packed bytes *)
  backend : Z -> list rval -> list (list Z) -> nat -> list Z;
    (* a native function at an address: from its parameters and the
       contents of the USM buffers, the new contents of each buffer *)
  backend_host : Z -> list rval -> list (list Z) -> nat -> list Z;
    (* from its parameters and the contents of the host blocks, the new
       contents of a host block it was handed a pointer to *)
  backend_slot : Z -> list rval -> list (list Z) -> nat -> rval
    (* likewise, the new value of a stack slot it was handed a pointer to *)
}.

Definition Py (A : Type) : Type := SE machine A.

(** A Python function handed to [compile_internal]. *)
Definition pyfunc : Type := Runtime -> list rval -> Py rval.

(* ------------------------------------------------------------------ *)
(** ** The emitted code *)

Inductive operand :=
| Const (ty : type) (z : Z)           (* context.get_constant(ty, z) *)
| Arg (i : nat)                       (* the i-th argument of the lowered call *)
| Reg (i : nat)                       (* the value of the i-th emitted instruction *)
| Data (a : operand)                  (* a.data *)
| Nitems (a : operand)                (* a.nitems *)
| ShapeOf (a : operand)               (* a.shape *)
| Extract (t : operand) (k : nat).    (* builder.extract_value(t, k) *)

(** One constructor per builder method the module uses; [compile_internal],
    [array_copy] and [nrt.decref] each stand for the code the host emits
    for them. *)
Inductive instr :=
| alloca (ty : lltype)
| store (v p : operand)
| load (p : operand)
| mul (a b : operand)
| sext (v : operand) (ty : lltype)
| bitcast (v : operand) (ty : lltype)
| inttoptr (v : operand) (ty : fntype)
| call (fnty : fntype) (fn : string) (params : list operand)
| call_ptr (fn : operand) (params : list operand)
| compile_internal (impl : pyfunc) (sig : Signature) (params : list operand)
| array_copy (sig : Signature) (val : operand)
| decref (ty : type) (val : operand).

(** The builder: the instructions emitted so far.  Emitting returns the
    value of the new instruction, named by its position. *)
Definition builder : Type := list instr.
Definition M (A : Type) : Type := SE builder A.

Definition emit (i : instr) : M operand :=
  fun b => (Ok (Reg (List.length b)), b ++ [i]).

(** What the lowering needs from the target context and from the import
    system: the ABI size of an LLVM type, and the [dpnp_fptr_interface]
    module of [dpnp_glue] when it can be imported, as its
    [get_dpnp_fn_ptr] function. *)
Record Context := {
  get_abi_sizeof : lltype -> Z;
  dpnp_fptr_interface : option (string -> list string -> result Z)
}.

(** [make_array(aty)(context, builder, value)]: the structure proxy of an
    array value, with the type it was made for. *)
Record array_proxy := make_array { ary_type : type; ary_value : operand }.

Definition a_data (a : array_proxy) : operand := Data (ary_value a).
Definition a_nitems (a : array_proxy) : operand := Nitems (ary_value a).
Definition a_shape (a : array_proxy) : operand := ShapeOf (ary_value a).

(** [ty.ndim] and [ty.dtype] exist on array types only. *)
Definition ndim {S} (ty : type) : SE S nat :=
  match ty with
  | Array _ nd _ => ret nd
  | _ => raise (AttributeError "ndim")
  end.

Definition dtype_of {S} (ty : type) : SE S dtype :=
  match ty with
  | Array dt _ _ => ret dt
  | _ => raise (AttributeError "dtype")
  end.

Definition ndim_or_0 (ty : type) : nat :=
  match ty with Array _ nd _ => nd | _ => 0%nat end.

(** [cgutils.unpack_tuple(builder, a.shape)]: one extracted value per
    dimension of the array type. *)
Definition unpack_tuple (a : array_proxy) : list operand :=
  map (fun k => Extract (a_shape a) k) (seq 0 (ndim_or_0 (ary_type a))).

Definition alloca_once (ty : lltype) : M operand := emit (alloca ty).

Fixpoint mapM {S A B} (f : A -> SE S B) (l : list A) : SE S (list B) :=
  match l with
  | [] => ret []
  | x :: xs => y <- f x ;; ys <- mapM f xs ;; ret (y :: ys)
  end.

Definition nth_arg {S A} (l : list A) (i : nat) : SE S A :=
  match nth_error l i with
  | Some x => ret x
  | None => raise (LookupError "tuple index out of range")
  end.

(* ------------------------------------------------------------------ *)
(** ** The LLVM types of the emitted values *)

(** The LLVM type behind a value type: the integer scalars are [i32] and
    [i64]; the other value types are kept as tags. *)
Fixpoint as_llvm (t : lltype) : lltype :=
  match t with
  | ValueType (Number (int32 | uint32)) => IntType 32
  | ValueType (Number (int64 | uint64)) => IntType 64
  | PointerType t' => PointerType (as_llvm t')
  | t => t
  end.

Definition bits_eqb (a b : Z) : bool :=
  match a, b with
  | Z0, Z0 => true
  | Zpos p, Zpos q | Zneg p, Zneg q => Pos.eqb p q
  | _, _ => false
  end.

(** Equality of LLVM types; the value types left as tags are compared by
    the name of their numba type. *)
Fixpoint lltype_eqb (t1 t2 : lltype) : bool :=
  match t1, t2 with
  | IntType a, IntType b => bits_eqb a b
  | VoidType, VoidType => true
  | PointerType a, PointerType b => lltype_eqb a b
  | ValueType a, ValueType b => String.eqb (name a) (name b)
  | _, _ => false
  end.

(** [str(ty)] of an LLVM type. *)
Fixpoint lltype_str (t : lltype) : string :=
  match t with
  | IntType bits => ("i" ++ NilZero.string_of_int (Z.to_int bits))%string
  | VoidType => "void"
  | PointerType t' => (lltype_str t' ++ "*")%string
  | ValueType ty => name ty
  end.

(** The type an emitted value carries, read off the instruction that
    defines it. *)
Definition value_type (code : list instr) (v : operand) : option lltype :=
  match v with
  | Const ty _ => Some (get_value_type ty)
  | Nitems _ => Some intp_t
  | Extract (ShapeOf _) _ => Some intp_t
  | Reg r =>
      match nth_error code r with
      | Some (alloca ty) => Some (PointerType ty)
      | Some (load (Reg p)) =>
          match nth_error code p with
          | Some (alloca ty) => Some ty
          | _ => None
          end
      | Some (sext _ ty) | Some (bitcast _ ty) => Some ty
      | Some (call fnty _ _) => Some (fn_ret fnty)
      | Some (compile_internal _ sig _) | Some (array_copy sig _) =>
          Some (get_value_type (return_type sig))
      | _ => None
      end
  | _ => None
  end.

(** [builder.call(fn, args)]: llvmlite compares the type of each argument
    with the type of the parameter at its position, over the parameters
    of the function type, and raises TypeError on the first that
    differs; it does not count the arguments, so those beyond the
    parameters are not looked at. *)
Fixpoint check_call_args (code : list instr) (i : nat)
    (param_tys : list lltype) (args : list operand) : result unit :=
  match param_tys with
  | [] => Ok tt
  | expected :: param_tys' =>
      match args with
      | [] => Raise (LookupError "list index out of range")
      | arg :: args' =>
          match value_type code arg with
          | Some ty =>
              if lltype_eqb (as_llvm ty) (as_llvm expected)
              then check_call_args code (S i) param_tys' args'
              else Raise (TypeError
                     ("Type of #" ++ NilZero.string_of_uint (Nat.to_uint i)
                      ++ " arg mismatch: " ++ lltype_str (as_llvm expected)
                      ++ " != " ++ lltype_str (as_llvm ty))%string)
          | None => Raise (Fault "value of unknown type")
          end
      end
  end.

Definition builder_call (fn : operand) (fnty : fntype)
    (args : list operand) : M operand :=
  fun b =>
    match check_call_args b 1 (fn_params fnty) args with
    | Ok _ => emit (call_ptr fn args) b
    | Raise e => (Raise e, b)
    end.

(* ------------------------------------------------------------------ *)
(** ** The lowering functions *)

Section Lowering.

Variable context : Context.

(** make_contiguous: a context manager.  The code after its [yield] runs
    when the body of the [with] statement finishes or returns; when the
    body raises, the exception leaves the generator at the [yield] and
    the code after it does not run. *)
Fixpoint make_contiguous_loop (tys : list type) (vals : list operand)
  : M (list type * list operand * list (type * operand)) :=
  match tys, vals with
  | ty :: tys', val :: vals' =>
      '(newty, newval, copy) <-
        (match ty with
         | Array _ _ lay =>
             if layout_in_CF lay then ret (ty, val, [])
             else
               let newty := copy_layout_C ty in
               let copysig := signature newty [ty] in
               newval <- emit (array_copy copysig val) ;;
               ret (newty, newval, [(newty, newval)])
         | _ => ret (ty, val, [])
         end) ;;
      '(newtys, newargs, copies) <- make_contiguous_loop tys' vals' ;;
      ret (newty :: newtys, newval :: newargs, copy ++ copies)
  | _, _ => ret ([], [], [])
  end.

Fixpoint decref_all (copies : list (type * operand)) : M unit :=
  match copies with
  | [] => ret tt
  | (ty, val) :: rest => emit (decref ty val) ;;; decref_all rest
  end.

Definition make_contiguous {R} (sig : Signature) (args : list operand)
    (body : Signature -> list operand -> M R) : M R :=
  '(newtys, newargs, copies) <- make_contiguous_loop (sig_args sig) args ;;
  fun b =>
    match body (signature (return_type sig) newtys) newargs b with
    | (Ok r, b') =>
        match decref_all copies b' with
        | (Ok _, b'') => (Ok r, b'')
        | (Raise e, b'') => (Raise e, b'')
        end
    | (Raise e, b') => (Raise e, b')
    end.

Definition _maxint : Z := 2 ^ 31 - 1.

(** The [impl] of [check_c_int]. *)
Definition check_c_int_impl : pyfunc := fun _ params =>
  match params with
  | [VInt n] =>
      if n >? _maxint
      then raise (OverflowError "array size too large to fit in C int")
      else ret VNone
  | _ => raise (TypeError "impl")
  end.

Definition check_c_int (n : operand) : M unit :=
  emit (compile_internal check_c_int_impl (signature none [intp]) [n]) ;;;
  ret tt.

Definition ensure_dpnp (name : string) : M unit :=
  match dpnp_fptr_interface context with
  | Some _ => ret tt
  | None => raise (ImportError ("dpNP is needed to call np." ++ name)%string)
  end.

Definition get_total_size_of_array (aty : type) (ary : array_proxy)
  : M operand :=
  total_size <- alloca_once ll_intp_t ;;
  p <- emit (mul (a_nitems ary)
               (Const intp (get_abi_sizeof context (get_value_type aty)))) ;;
  e <- emit (sext p ll_intp_t) ;;
  emit (store e total_size) ;;;
  emit (load total_size).

Definition get_sycl_queue : M operand :=
  let void_ptr_t := get_value_type voidptr in
  let get_queue_fnty := FunctionType void_ptr_t [] in
  sycl_queue_val <- alloca_once void_ptr_t ;;
  q <- emit (call get_queue_fnty "DPPLQueueMgr_GetCurrentQueue" []) ;;
  emit (store q sycl_queue_val) ;;;
  ret sycl_queue_val.

Definition allocate_usm (size sycl_queue : operand) : M operand :=
  let void_ptr_t := get_value_type voidptr in
  let usm_shared_fnty := FunctionType void_ptr_t [ll_intp_t; void_ptr_t] in
  buffer_ptr <- alloca_once void_ptr_t ;;
  q <- emit (load sycl_queue) ;;
  r <- emit (call usm_shared_fnty "DPPLmalloc_shared" [size; q]) ;;
  emit (store r buffer_ptr) ;;;
  emit (load buffer_ptr).

Definition copy_usm (src dst size sycl_queue : operand) : M unit :=
  let void_ptr_t := get_value_type voidptr in
  let queue_memcpy_fnty :=
    FunctionType VoidType [void_ptr_t; void_ptr_t; void_ptr_t; ll_intp_t] in
  q <- emit (load sycl_queue) ;;
  d <- emit (bitcast dst void_ptr_t) ;;
  s <- emit (bitcast src void_ptr_t) ;;
  emit (call queue_memcpy_fnty "DPPLQueue_Memcpy" [q; d; s; size]) ;;;
  ret tt.

Definition free_usm (usm_buf sycl_queue : operand) : M unit :=
  let void_ptr_t := get_value_type voidptr in
  let usm_free_fnty := FunctionType VoidType [void_ptr_t; void_ptr_t] in
  q <- emit (load sycl_queue) ;;
  emit (call usm_free_fnty "DPPLfree_with_queue" [usm_buf; q]) ;;;
  ret tt.

Definition call_dpnp (fn_name : string) (type_names : list string)
    (params : list operand) (param_tys : list lltype) (ret_ty : lltype)
  : M unit :=
  match dpnp_fptr_interface context with
  | None => raise (ImportError "dpnp_glue")
  | Some get_dpnp_fn_ptr =>
      match get_dpnp_fn_ptr fn_name type_names with
      | Raise e => raise e
      | Ok f_ptr =>
          let fnty := FunctionType ret_ty param_tys in
          let addr_constant := Const (Number int64) f_ptr in
          fn_ptr <- emit (inttoptr addr_constant fnty) ;;
          builder_call fn_ptr fnty params ;;;
          ret tt
      end
  end.

End Lowering.

(* ------------------------------------------------------------------ *)
(** ** Python values inside the internally compiled functions *)

Definition log (e : event) : Py unit :=
  fun m => (Ok tt, mk_machine (regs m) (cells m) (blocks m) (dev m)
                              (trace m ++ [e])).

Definition nitems_of (shape : list Z) : Z := fold_right Z.mul 1 shape.

(** [a.shape], [a.size], [a.dtype] *)
Definition py_shape (v : rval) : Py rval :=
  match v with
  | VArray a => ret (VTuple (nd_shape a))
  | _ => raise (AttributeError "shape")
  end.

Definition py_size (v : rval) : Py rval :=
  match v with
  | VArray a => ret (VInt (nitems_of (nd_shape a)))
  | _ => raise (AttributeError "size")
  end.

Definition py_dtype (v : rval) : Py dtype :=
  match v with
  | VArray a => ret (nd_dtype a)
  | _ => raise (AttributeError "dtype")
  end.

(** The values of an iterable, for a tuple-unpacking assignment. *)
Definition py_iter (v : rval) : Py (list rval) :=
  match v with
  | VTuple l => ret (map VInt l)
  | _ => raise (TypeError "cannot unpack non-iterable object")
  end.

Fixpoint list_eqb (l1 l2 : list Z) : bool :=
  match l1, l2 with
  | [], [] => true
  | x :: l1', y :: l2' => (x =? y) && list_eqb l1' l2'
  | _, _ => false
  end.

(** Python [==] and [!=]: an integer and a tuple are never equal. *)
Definition py_eq (x y : rval) : bool :=
  match x, y with
  | VInt a, VInt b => a =? b
  | VTuple a, VTuple b => list_eqb a b
  | VNone, VNone => true
  | _, _ => false
  end.

Definition py_ne (x y : rval) : bool := negb (py_eq x y).

(** A shape argument: an integer or a tuple of integers. *)
Fixpoint ints_of (l : list rval) : option (list Z) :=
  match l with
  | [] => Some []
  | VInt z :: l' =>
      match ints_of l' with Some zs => Some (z :: zs) | None => None end
  | _ => None
  end.

(** The data blocks of host arrays, by allocation order. *)
Definition block_at (bs : list (list Z)) (i : nat) : option (list Z) :=
  nth_error bs i.
Definition block_count (bs : list (list Z)) : nat := List.length bs.
Definition add_block (bs : list (list Z)) (b : list Z) : list (list Z) :=
  bs ++ [b].

(** [np.empty(shape, dtype)]: a new array over a new data block. *)
Definition np_empty (rt : Runtime) (shape : list rval) (dt : dtype) : Py rval :=
  match ints_of shape with
  | Some l =>
      fun m =>
        let b := block_count (blocks m) in
        (Ok (VArray (mk_ndarray l dt b)),
         mk_machine (regs m) (cells m)
                    (add_block (blocks m) (fresh_array rt l dt))
                    (dev m) (trace m ++ [EvEmpty b l dt]))
  | None => raise (TypeError "expected a sequence of integers")
  end.

(** Little-endian bytes of an integer. *)
Definition le_bytes (n : nat) (z : Z) : list Z :=
  map (fun i => (z / 2 ^ (8 * Z.of_nat i)) mod 256) (seq 0 n).

Definition arange_bytes (n : Z) : list Z :=
  flat_map (fun i => le_bytes 8 (Z.of_nat i)) (seq 0 (Z.to_nat n)).

(** [np.arange(n)]: a new int64 array holding 0, ..., n-1. *)
Definition np_arange (n : rval) : Py rval :=
  match n with
  | VInt z =>
      fun m =>
        let b := block_count (blocks m) in
        let l := [Z.max 0 z] in
        (Ok (VArray (mk_ndarray l int64 b)),
         mk_machine (regs m) (cells m)
                    (add_block (blocks m) (arange_bytes z))
                    (dev m) (trace m ++ [EvEmpty b l int64]))
  | _ => raise (TypeError "arange")
  end.

(** [check_args] of [dot_2_vv] *)
Definition dot_2_vv_check_args : pyfunc := fun _ params =>
  match params with
  | [a; b] =>
      sa <- py_shape a ;; la <- py_iter sa ;; m <- unpack1 la ;;
      sb <- py_shape b ;; lb <- py_iter sb ;; n <- unpack1 lb ;;
      if py_ne m n
      then raise (ValueError
        "incompatible array sizes for np.dot(a, b) (vector * vector)")
      else ret VNone
  | _ => raise (TypeError "check_args() takes 2 positional arguments")
  end.

(** [make_res] of [dot_2_mm] *)
Definition dot_2_mm_make_res : pyfunc := fun rt params =>
  match params with
  | [a; b] =>
      sa <- py_shape a ;; la <- py_iter sa ;; '(m, n) <- unpack2 la ;;
      sb <- py_shape b ;; lb <- py_iter sb ;; '(_n, k) <- unpack2 lb ;;
      if py_ne _n n
      then raise (ValueError "incompatible array sizes for np.dot(a, b)")
      else dt <- py_dtype a ;; np_empty rt [m; k] dt
  | _ => raise (TypeError "make_res() takes 2 positional arguments")
  end.

(** [make_res] of [dot_2_mv]: [_n = b.shape] binds the whole shape tuple.
    The comparison of that tuple with an integer has its Python meaning
    here: the two are unequal. *)
Definition dot_2_mv_make_res : pyfunc := fun rt params =>
  match params with
  | [a; b] =>
      sa <- py_shape a ;; la <- py_iter sa ;; '(m, n) <- unpack2 la ;;
      _n <- py_shape b ;;
      if py_ne _n n
      then raise (ValueError "incompatible array sizes for np.dot(a, b)")
      else dt <- py_dtype a ;; np_empty rt [m] dt
  | _ => raise (TypeError "make_res() takes 2 positional arguments")
  end.

(** [make_res] of [dot_2_vm] *)
Definition dot_2_vm_make_res : pyfunc := fun rt params =>
  match params with
  | [a; b] =>
      sa <- py_shape a ;; la <- py_iter sa ;; m <- unpack1 la ;;
      sb <- py_shape b ;; lb <- py_iter sb ;; '(n, k) <- unpack2 lb ;;
      if py_ne m n
      then raise (ValueError "incompatible array sizes for np.dot(a, b)")
      else dt <- py_dtype a ;; np_empty rt [k] dt
  | _ => raise (TypeError "make_res() takes 2 positional arguments")
  end.

(** [make_res] of [matmul_dppl] *)
Definition matmul_dppl_make_res : pyfunc := fun rt params =>
  match params with
  | [a; b] =>
      sa <- py_shape a ;; la <- py_iter sa ;; '(m, n) <- unpack2 la ;;
      sb <- py_shape b ;; lb <- py_iter sb ;; '(_n, k) <- unpack2 lb ;;
      if py_ne _n n
      then raise (ValueError "incompatible array sizes for np.matmul(a, b)")
      else dt <- py_dtype a ;; np_empty rt [m; k] dt
  | _ => raise (TypeError "make_res() takes 2 positional arguments")
  end.

(** [array_size_checker] of the reductions *)
Definition array_size_checker : pyfunc := fun _ params =>
  match params with
  | [arry] =>
      sz <- py_size arry ;;
      if py_eq sz (VInt 0)
      then raise (ValueError "Passed Empty array")
      else ret VNone
  | _ => raise (TypeError "array_size_checker() takes 1 positional argument")
  end.

(** [make_res] of [array_argsort] *)
Definition array_argsort_make_res : pyfunc := fun _ params =>
  match params with
  | [a] => sz <- py_size a ;; np_arange sz
  | _ => raise (TypeError "make_res() takes 1 positional argument")
  end.

(** [make_1D_res] and [make_2D_res] of [array_cov] *)
Definition make_1D_res : pyfunc := fun rt params =>
  match params with
  | [size] => np_empty rt [VInt 1] float64
  | _ => raise (TypeError "make_1D_res() takes 1 positional argument")
  end.

Definition make_2D_res : pyfunc := fun rt params =>
  match params with
  | [size] => np_empty rt [size; size] float64
  | _ => raise (TypeError "make_2D_res() takes 1 positional argument")
  end.

(* ------------------------------------------------------------------ *)
(** ** The lowered operations *)

Section Operations.

Variable context : Context.

(** [argty.dtype] as a numba type *)
Definition dtype_type {S} (ty : type) : SE S type :=
  dt <- dtype_of ty ;; ret (Number dt).

(** [[argty.dtype.name for argty in tys]] *)
Definition dtype_names (tys : list type) : M (list string) :=
  mapM (fun argty => dt <- dtype_type argty ;; ret (name dt)) tys.

Definition dot_2_vv (sig : Signature) (args : list operand) : M operand :=
  '(aty, bty) <- unpack2 (sig_args sig) ;;
  a0 <- nth_arg args 0 ;;
  let a := make_array aty a0 in
  b0 <- nth_arg args 1 ;;
  let b := make_array bty b0 in
  out <- alloca_once (get_value_type (return_type sig)) ;;
  size <- unpack1 (unpack_tuple a) ;;
  emit (compile_internal dot_2_vv_check_args
          (signature none (sig_args sig)) args) ;;;
  check_c_int size ;;;
  let param_tys := [ll_void_p; ll_void_p; ll_void_p; IntType 64] in
  pa <- emit (bitcast (a_data a) ll_void_p) ;;
  pb <- emit (bitcast (a_data b) ll_void_p) ;;
  po <- emit (bitcast out ll_void_p) ;;
  let params := [pa; pb; po; size] in
  names <- dtype_names (sig_args sig) ;;
  let type_names := names ++ [name (return_type sig)] in
  call_dpnp context "dpnp_dot" type_names params param_tys ll_void ;;;
  emit (load out).

Definition dot_2_mm (sig : Signature) (args : list operand) : M operand :=
  '(aty, bty) <- unpack2 (sig_args sig) ;;
  a0 <- nth_arg args 0 ;;
  let a := make_array aty a0 in
  b0 <- nth_arg args 1 ;;
  let b := make_array bty b0 in
  '(m, n) <- unpack2 (unpack_tuple a) ;;
  '(_n, k) <- unpack2 (unpack_tuple b) ;;
  out <- emit (compile_internal dot_2_mm_make_res
                 (signature (return_type sig) (sig_args sig)) args) ;;
  let outary := make_array (return_type sig) out in
  let param_tys :=
    [ll_void_p; ll_void_p; ll_void_p; IntType 64; IntType 64; IntType 64] in
  pa <- emit (bitcast (a_data a) ll_void_p) ;;
  pb <- emit (bitcast (a_data b) ll_void_p) ;;
  po <- emit (bitcast (a_data outary) ll_void_p) ;;
  let params := [pa; pb; po; m; n; k] in
  names <- dtype_names (firstn 1 (sig_args sig)) ;;
  let type_names := names ++ [name (return_type sig)] in
  call_dpnp context "dpnp_matmul" type_names params param_tys ll_void ;;;
  ret out.

Definition dot_2_mv (sig : Signature) (args : list operand) : M operand :=
  '(aty, bty) <- unpack2 (sig_args sig) ;;
  a0 <- nth_arg args 0 ;;
  let a := make_array aty a0 in
  b0 <- nth_arg args 1 ;;
  let b := make_array bty b0 in
  '(m, n) <- unpack2 (unpack_tuple a) ;;
  _n <- unpack1 (unpack_tuple b) ;;
  let k := Const (Number int64) 1 in
  out <- emit (compile_internal dot_2_mv_make_res
                 (signature (return_type sig) (sig_args sig)) args) ;;
  let outary := make_array (return_type sig) out in
  let param_tys :=
    [ll_void_p; ll_void_p; ll_void_p; IntType 64; IntType 64; IntType 64] in
  pa <- emit (bitcast (a_data a) ll_void_p) ;;
  pb <- emit (bitcast (a_data b) ll_void_p) ;;
  po <- emit (bitcast (a_data outary) ll_void_p) ;;
  let params := [pa; pb; po; m; n; k] in
  names <- dtype_names (firstn 1 (sig_args sig)) ;;
  let type_names := names ++ [name (return_type sig)] in
  call_dpnp context "dpnp_matmul" type_names params param_tys ll_void ;;;
  ret out.

Definition dot_2_vm (sig : Signature) (args : list operand) : M operand :=
  '(aty, bty) <- unpack2 (sig_args sig) ;;
  a0 <- nth_arg args 0 ;;
  let a := make_array aty a0 in
  b0 <- nth_arg args 1 ;;
  let b := make_array bty b0 in
  m <- unpack1 (unpack_tuple a) ;;
  '(n, k) <- unpack2 (unpack_tuple b) ;;
  let m := Const (Number int64) 1 in
  out <- emit (compile_internal dot_2_vm_make_res
                 (signature (return_type sig) (sig_args sig)) args) ;;
  let outary := make_array (return_type sig) out in
  let param_tys := [ll_void_p; ll_void_p; ll_void_p; IntType 64; IntType 64] in
  pa <- emit (bitcast (a_data a) ll_void_p) ;;
  pb <- emit (bitcast (a_data b) ll_void_p) ;;
  po <- emit (bitcast (a_data outary) ll_void_p) ;;
  let params := [pa; pb; po; m; n; k] in
  names <- dtype_names (firstn 1 (sig_args sig)) ;;
  let type_names := names ++ [name (return_type sig)] in
  call_dpnp context "dpnp_matmul" type_names params param_tys ll_void ;;;
  ret out.

Fixpoint nat_list_eqb (l1 l2 : list nat) : bool :=
  match l1, l2 with
  | [], [] => true
  | x :: l1', y :: l2' => (x =? y)%nat && nat_list_eqb l1' l2'
  | _, _ => false
  end.

(** np.dot(a, b).  Every branch of the [with] body returns or fails its
    assertion, so the [raise ImportError] after the [with] statement is
    never reached. *)
Definition dot_dppl (sig : Signature) (args : list operand) : M operand :=
  ensure_dpnp context "dot" ;;;
  make_contiguous sig args (fun sig args =>
    ndims <- mapM ndim (firstn 2 (sig_args sig)) ;;
    if nat_list_eqb ndims [2; 2]%nat then dot_2_mm sig args
    else if nat_list_eqb ndims [2; 1]%nat then dot_2_mv sig args
    else if nat_list_eqb ndims [1; 2]%nat then dot_2_vm sig args
    else if nat_list_eqb ndims [1; 1]%nat then dot_2_vv sig args
    else raise AssertionError).

(** The names bound at module level by the imports, assignments and
    function definitions of the module. *)
Definition module_globals : list string :=
  [ "np"; "types"; "cgutils"; "lower_builtin"; "signature"; "make_array";
    "_empty_nd_impl"; "array_copy"; "itanium_mangler"; "ir"; "lc";
    "contextlib"; "int32"; "int64"; "uint32"; "uint64"; "float32";
    "float64"; "make_contiguous"; "check_c_int"; "ll_char"; "ll_char_p";
    "ll_void"; "ll_void_p"; "ll_intc"; "ll_intc_p"; "intp_t"; "ll_intp_t";
    "ll_intp_p"; "ensure_dpnp"; "get_total_size_of_array";
    "get_sycl_queue"; "allocate_usm"; "copy_usm"; "free_usm"; "call_dpnp";
    "dot_2_vv"; "dot_2_mm"; "dot_2_mv"; "dot_2_vm"; "dot_dppl";
    "matmul_dppl"; "common_sum_prod_impl"; "array_sum"; "array_prod";
    "common_argmax_argmin_impl"; "array_argmax"; "array_argmin";
    "array_argsort"; "array_cov" ].

(** Reading a name that the function never assigns: it is looked up among
    the module's globals.  None of those is an IR value, so a bound name
    used as a queue is a type error, and an unbound one a NameError. *)
Definition load_global (var : string) : M operand :=
  if existsb (String.eqb var) module_globals
  then raise (TypeError var)
  else raise (NameError var).

(** np.matmul(matrix, matrix) *)
Definition matmul_dppl (sig : Signature) (args : list operand) : M operand :=
  ensure_dpnp context "matmul" ;;;
  make_contiguous sig args (fun sig args =>
    ndims <- mapM ndim (firstn 2 (sig_args sig)) ;;
    if negb (nat_list_eqb ndims [2; 2]%nat)
    then raise (ValueError "array dimension has to be 2 for np.matmul(a, b)")
    else
    '(aty, bty) <- unpack2 (sig_args sig) ;;
    a0 <- nth_arg args 0 ;;
    let a := make_array aty a0 in
    b0 <- nth_arg args 1 ;;
    let b := make_array bty b0 in
    '(m, n) <- unpack2 (unpack_tuple a) ;;
    '(_n, k) <- unpack2 (unpack_tuple b) ;;

    total_size_a <- get_total_size_of_array context aty a ;;
    sycl_queue <- load_global "sycl_queue" ;;
    a_usm <- allocate_usm total_size_a sycl_queue ;;
    sycl_queue <- load_global "sycl_queue" ;;
    copy_usm (a_data a) a_usm total_size_a sycl_queue ;;;

    total_size_b <- get_total_size_of_array context bty b ;;
    sycl_queue <- load_global "sycl_queue" ;;
    b_usm <- allocate_usm total_size_b sycl_queue ;;
    sycl_queue <- load_global "sycl_queue" ;;
    copy_usm (a_data b) b_usm total_size_b sycl_queue ;;;

    out <- emit (compile_internal matmul_dppl_make_res
                   (signature (return_type sig) (sig_args sig)) args) ;;
    let outary := make_array (return_type sig) out in

    total_size_b <- get_total_size_of_array context bty b ;;
    sycl_queue <- load_global "sycl_queue" ;;
    b_usm <- allocate_usm total_size_b sycl_queue ;;
    sycl_queue <- load_global "sycl_queue" ;;
    copy_usm (a_data b) b_usm total_size_b sycl_queue ;;;

    let param_tys :=
      [ll_void_p; ll_void_p; ll_void_p; IntType 64; IntType 64; IntType 64] in
    pa <- emit (bitcast (a_data a) ll_void_p) ;;
    pb <- emit (bitcast (a_data b) ll_void_p) ;;
    po <- emit (bitcast (a_data outary) ll_void_p) ;;
    let params := [pa; pb; po; m; n; k] in
    names <- dtype_names (firstn 1 (sig_args sig)) ;;
    let type_names := names ++ [name (return_type sig)] in
    call_dpnp context "dpnp_matmul" type_names params param_tys ll_void ;;;
    ret out).

Definition common_sum_prod_impl (sig : Signature) (args : list operand)
    (fn_type : string) : M operand :=
  emit (compile_internal array_size_checker
          (signature none (sig_args sig)) args) ;;;
  sycl_queue <- get_sycl_queue ;;
  aty <- nth_arg (sig_args sig) 0 ;;
  a0 <- nth_arg args 0 ;;
  let a := make_array aty a0 in
  let size := a_nitems a in

  aty_dtype <- dtype_type aty ;;
  total_size_a <- get_total_size_of_array context aty_dtype a ;;
  a_usm <- allocate_usm total_size_a sycl_queue ;;
  copy_usm (a_data a) a_usm total_size_a sycl_queue ;;;

  out <- alloca_once (get_value_type (return_type sig)) ;;
  emit (store (Const (return_type sig) 0) out) ;;;
  out_usm <- allocate_usm
    (Const intp (get_abi_sizeof context (get_value_type aty_dtype)))
    sycl_queue ;;

  let param_tys := [ll_void_p; ll_void_p; IntType 64] in
  let params := [a_usm; out_usm; size] in
  let type_names := [name aty_dtype; "NONE"] in
  call_dpnp context fn_type type_names params param_tys ll_void ;;;

  copy_usm out_usm out
    (Const intp (get_abi_sizeof context (get_value_type aty_dtype)))
    sycl_queue ;;;

  free_usm a_usm sycl_queue ;;;
  free_usm out_usm sycl_queue ;;;

  emit (load out).

Definition array_sum (sig : Signature) (args : list operand) : M operand :=
  ensure_dpnp context "sum" ;;;
  common_sum_prod_impl sig args "dpnp_sum".

Definition array_prod (sig : Signature) (args : list operand) : M operand :=
  ensure_dpnp context "prod" ;;;
  common_sum_prod_impl sig args "dpnp_prod".

Definition common_argmax_argmin_impl (sig : Signature) (args : list operand)
    (fn_type : string) : M operand :=
  emit (compile_internal array_size_checker
          (signature none (sig_args sig)) args) ;;;
  sycl_queue <- get_sycl_queue ;;
  aty <- nth_arg (sig_args sig) 0 ;;
  a0 <- nth_arg args 0 ;;
  let a := make_array aty a0 in
  let size := a_nitems a in

  aty_dtype <- dtype_type aty ;;
  total_size_a <- get_total_size_of_array context aty_dtype a ;;
  a_usm <- allocate_usm total_size_a sycl_queue ;;
  copy_usm (a_data a) a_usm total_size_a sycl_queue ;;;

  out <- alloca_once (get_value_type (return_type sig)) ;;
  emit (store (Const (return_type sig) 0) out) ;;;
  out_usm <- allocate_usm
    (Const intp (get_abi_sizeof context (get_value_type (return_type sig))))
    sycl_queue ;;

  let param_tys := [ll_void_p; ll_void_p; IntType 64] in
  let params := [a_usm; out_usm; size] in
  let type_names := [name aty_dtype; name (return_type sig)] in
  call_dpnp context fn_type type_names params param_tys ll_void ;;;

  copy_usm out_usm out
    (Const intp (get_abi_sizeof context (get_value_type (return_type sig))))
    sycl_queue ;;;

  free_usm a_usm sycl_queue ;;;
  free_usm out_usm sycl_queue ;;;

  emit (load out).

Definition array_argmax (sig : Signature) (args : list operand) : M operand :=
  ensure_dpnp context "argmax" ;;;
  common_argmax_argmin_impl sig args "dpnp_argmax".

Definition array_argmin (sig : Signature) (args : list operand) : M operand :=
  ensure_dpnp context "argmin" ;;;
  common_argmax_argmin_impl sig args "dpnp_argmax".

Definition array_argsort (sig : Signature) (args : list operand) : M operand :=
  ensure_dpnp context "argsort" ;;;
  aty <- nth_arg (sig_args sig) 0 ;;
  a0 <- nth_arg args 0 ;;
  let a := make_array aty a0 in
  size <- unpack1 (unpack_tuple a) ;;
  out <- emit (compile_internal array_argsort_make_res
                 (signature (return_type sig) (firstn 1 (sig_args sig)))
                 (firstn 1 args)) ;;
  let outary := make_array (return_type sig) out in
  let param_tys := [ll_void_p; ll_void_p; IntType 64] in
  pa <- emit (bitcast (a_data a) ll_void_p) ;;
  po <- emit (bitcast (a_data outary) ll_void_p) ;;
  let params := [pa; po; size] in
  names <- dtype_names (firstn 1 (sig_args sig)) ;;
  let type_names := names ++ [name (return_type sig)] in
  call_dpnp context "dpnp_argsort" type_names params param_tys ll_void ;;;
  ret out.

(** A local variable read on a path that never assigned it. *)
Definition load_local {S A} (var : string) (v : option A) : SE S A :=
  match v with
  | Some x => ret x
  | None => raise (UnboundLocalError var)
  end.

Definition array_cov (sig : Signature) (args : list operand) : M operand :=
  ensure_dpnp context "cov" ;;;
  aty <- nth_arg (sig_args sig) 0 ;;
  a0 <- nth_arg args 0 ;;
  let a := make_array aty a0 in
  aty_ndim <- ndim aty ;;
  '(m, n, out) <-
    (if (aty_ndim =? 2)%nat then
       '(m, n) <- unpack2 (unpack_tuple a) ;;
       out <- emit (compile_internal make_2D_res
                      (signature (return_type sig) [Number int64]) [m]) ;;
       ret (Some m, Some n, Some out)
     else if (aty_ndim =? 1)%nat then
       m <- unpack1 (unpack_tuple a) ;;
       out <- emit (compile_internal make_1D_res
                      (signature (return_type sig) [Number int64]) [m]) ;;
       ret (Some m, None, Some out)
     else
       ret (None, None, None)) ;;
  out <- load_local "out" out ;;
  let outary := make_array (return_type sig) out in
  nrows <- alloca_once (get_value_type (Number int64)) ;;
  ncols <- alloca_once (get_value_type (Number int64)) ;;
  (if (aty_ndim =? 2)%nat then
     m <- load_local "m" m ;;
     emit (store m nrows) ;;;
     n <- load_local "n" n ;;
     emit (store n ncols) ;;;
     ret tt
   else if (aty_ndim =? 1)%nat then
     emit (store (Const (Number int64) 1) nrows) ;;;
     m <- load_local "m" m ;;
     emit (store m ncols) ;;;
     ret tt
   else ret tt) ;;;
  let param_tys := [ll_void_p; ll_void_p; IntType 64; IntType 64] in
  pa <- emit (bitcast (a_data a) ll_void_p) ;;
  po <- emit (bitcast (a_data outary) ll_void_p) ;;
  let params := [pa; po; nrows; ncols] in
  names <- dtype_names (firstn 1 (sig_args sig)) ;;
  let type_names := names ++ [name (return_type sig)] in
  call_dpnp context "dpnp_cov" type_names params param_tys ll_void ;;;
  ret out.

End Operations.

(* ------------------------------------------------------------------ *)
(** ** Running the emitted code *)

(** Two's-complement wrap-around of 64-bit arithmetic. *)
Definition wrap64 (z : Z) : Z := (z + 2 ^ 63) mod 2 ^ 64 - 2 ^ 63.

Fixpoint update {A} (l : list A) (i : nat) (x : A) : list A :=
  match l, i with
  | [], _ => []
  | _ :: l', O => x :: l'
  | y :: l', S i' => y :: update l' i' x
  end.

Fixpoint mapi_from {A B} (f : nat -> A -> B) (i : nat) (l : list A) : list B :=
  match l with
  | [] => []
  | x :: l' => f i x :: mapi_from f (S i) l'
  end.

(** A blocking copy of [n] bytes over the start of [dst]. *)
Definition splice (n : Z) (src dst : list Z) : list Z :=
  firstn (Z.to_nat n) src ++ skipn (Z.to_nat n) dst.

Section Machine.

Variable context : Context.
Variable rt : Runtime.
Variable inputs : list rval.      (* the arguments of the compiled call *)

Fixpoint eval (m : machine) (o : operand) : option rval :=
  match o with
  | Const _ z => Some (VInt z)
  | Arg i => nth_error inputs i
  | Reg i => nth_error (regs m) i
  | Data a =>
      match eval m a with
      | Some (VArray x) => Some (VPtr (PArr (nd_data x)))
      | _ => None
      end
  | Nitems a =>
      match eval m a with
      | Some (VArray x) => Some (VInt (nitems_of (nd_shape x)))
      | _ => None
      end
  | ShapeOf a =>
      match eval m a with
      | Some (VArray x) => Some (VTuple (nd_shape x))
      | _ => None
      end
  | Extract t k =>
      match eval m t with
      | Some (VTuple l) => option_map VInt (nth_error l k)
      | _ => None
      end
  end.

Fixpoint eval_all (m : machine) (os : list operand) : option (list rval) :=
  match os with
  | [] => Some []
  | o :: os' =>
      match eval m o, eval_all m os' with
      | Some v, Some vs => Some (v :: vs)
      | _, _ => None
      end
  end.

(** The bytes a stack slot holds: an integer slot holds the little-endian
    bytes of its value, over the ABI size of the slot's type. *)
Definition cell_bytes (c : lltype * rval) : list Z :=
  match snd c with
  | VBytes bs => bs
  | VInt z => le_bytes (Z.to_nat (get_abi_sizeof context (fst c))) z
  | _ => []
  end.

Definition read_bytes (m : machine) (p : ptr) : option (list Z) :=
  match p with
  | PCell c => option_map cell_bytes (nth_error (cells m) c)
  | PArr b => block_at (blocks m) b
  | PDev b => option_map usm_bytes (nth_error (dev m) b)
  | _ => None
  end.

Definition write_bytes (m : machine) (p : ptr) (n : Z) (src : list Z)
  : option machine :=
  match p with
  | PCell c =>
      match nth_error (cells m) c with
      | Some cell =>
          Some (mk_machine (regs m)
                  (update (cells m) c
                     (fst cell, VBytes (splice n src (cell_bytes cell))))
                  (blocks m) (dev m) (trace m))
      | None => None
      end
  | PArr b =>
      match block_at (blocks m) b with
      | Some old =>
          Some (mk_machine (regs m) (cells m)
                  (update (blocks m) b (splice n src old))
                  (dev m) (trace m))
      | None => None
      end
  | PDev b =>
      match nth_error (dev m) b with
      | Some u =>
          Some (mk_machine (regs m) (cells m) (blocks m)
                  (update (dev m) b
                     (mk_usm (usm_size u) (usm_queue u)
                        (splice n src (usm_bytes u))))
                  (trace m))
      | None => None
      end
  | _ => None
  end.

(** Modelled from the spec: the device runtime behind the four native
    symbols ([DPPLQueueMgr_GetCurrentQueue], [DPPLmalloc_shared],
    [DPPLQueue_Memcpy], [DPPLfree_with_queue]) is not among the sources.
    It is the device memory manager of sections 4.3 and 6: "get current
    queue", "allocate device buffer of size against queue", "blocking
    memcpy between host/device given size and queue", "free device buffer
    against queue", each synchronous. *)
Definition call_runtime (fn : string) (params : list rval) : Py rval :=
  if String.eqb fn "DPPLQueueMgr_GetCurrentQueue" then
    match params with
    | [] =>
        log (EvGetQueue (current_queue rt)) ;;;
        ret (VPtr (PQueue (current_queue rt)))
    | _ => raise (Fault "DPPLQueueMgr_GetCurrentQueue")
    end
  else if String.eqb fn "DPPLmalloc_shared" then
    match params with
    | [VInt size; q] =>
        fun m =>
          let b := List.length (dev m) in
          (Ok (VPtr (PDev b)),
           mk_machine (regs m) (cells m) (blocks m)
                      (dev m ++ [mk_usm size q (fresh_usm rt size)])
                      (trace m ++ [EvMalloc b size q]))
    | _ => raise (Fault "DPPLmalloc_shared")
    end
  else if String.eqb fn "DPPLQueue_Memcpy" then
    match params with
    | [q; VPtr d; VPtr s; VInt size] =>
        fun m =>
          match read_bytes m s with
          | Some src =>
              match write_bytes m d size src with
              | Some m' => (log (EvMemcpy q (VPtr d) (VPtr s) size) ;;; ret VNone) m'
              | None => (Raise (Fault "DPPLQueue_Memcpy"), m)
              end
          | None => (Raise (Fault "DPPLQueue_Memcpy"), m)
          end
    | _ => raise (Fault "DPPLQueue_Memcpy")
    end
  else if String.eqb fn "DPPLfree_with_queue" then
    match params with
    | [buf; q] => log (EvFree buf q) ;;; ret VNone
    | _ => raise (Fault "DPPLfree_with_queue")
    end
  else raise (Fault fn).

(** The memory a native function may write on the host: what its
    parameters point to. *)
Definition pointed (p : ptr) (params : list rval) : bool :=
  existsb (fun v => match v with VPtr q => ptr_eqb q p | _ => false end)
    params.

(** Modelled from the spec: the host blocks after a native call.  The
    operations on host pointers "invoke with the values produced" by the
    backend (sections 4.2, 4.5 and 8): a block the call was handed a
    pointer to holds what [backend_host] leaves in it, every other block
    is unchanged. *)
Definition host_after (addr : Z) (params : list rval)
    (old : list (list Z)) : list (list Z) :=
  mapi_from (fun i bytes =>
               if pointed (PArr i) params
               then backend_host rt addr params old i else bytes) O old.

(** Modelled from the spec: likewise for the stack slots, such as the
    result slot of np.dot on two vectors. *)
Definition slots_after (addr : Z) (params : list rval)
    (old : list (list Z)) (slots : list (lltype * rval))
  : list (lltype * rval) :=
  mapi_from (fun c cell =>
               if pointed (PCell c) params
               then (fst cell, backend_slot rt addr params old c)
               else cell) O slots.

(** Modelled from the spec: the backend math library is not among the
    sources.  A call through a resolved address is "a direct invocation
    through that address with a fixed, positionally-ordered parameter
    list" (section 4.4); what the native function computes is left to the
    run time: [backend] rewrites the contents of the USM buffers,
    [backend_host] and [backend_slot] the host memory the parameters
    point to. *)
Definition call_native (addr : Z) (params : list rval) : Py rval :=
  fun m =>
    let old := map usm_bytes (dev m) in
    let dev' :=
      mapi_from (fun i u => mk_usm (usm_size u) (usm_queue u)
                              (backend rt addr params old i)) O (dev m) in
    (Ok VNone,
     mk_machine (regs m) (slots_after addr params (blocks m) (cells m))
                (host_after addr params (blocks m)) dev'
                (trace m ++ [EvInvoke addr params])).

Definition get {A} (err : string) (o : option A) : Py A :=
  match o with
  | Some x => ret x
  | None => raise (Fault err)
  end.

(** Modelled from the spec: [compile_internal], [array_copy] and
    [nrt.decref] belong to the host compiler, which is not among the
    sources.  They are the primitives of section 6: an internally
    compiled function is called on the values of its arguments and may
    raise; the array-copy primitive makes "a new contiguous array of the
    same shape/type"; the reference-release primitive drops the
    reference of a temporary.  The other instructions are LLVM's.

    One instruction: the value it defines and its effect. *)
Definition step (i : instr) : Py rval :=
  match i with
  | alloca ty =>
      fun m =>
        (Ok (VPtr (PCell (List.length (cells m)))),
         mk_machine (regs m) (cells m ++ [(ty, VNone)]) (blocks m) (dev m)
                    (trace m))
  | store v p =>
      fun m =>
        match eval m v, eval m p with
        | Some x, Some (VPtr (PCell c)) =>
            match nth_error (cells m) c with
            | Some cell =>
                (Ok VNone,
                 mk_machine (regs m) (update (cells m) c (fst cell, x))
                            (blocks m) (dev m) (trace m))
            | None => (Raise (Fault "store"), m)
            end
        | _, _ => (Raise (Fault "store"), m)
        end
  | load p =>
      fun m =>
        match eval m p with
        | Some (VPtr (PCell c)) =>
            match nth_error (cells m) c with
            | Some cell => (Ok (snd cell), m)
            | None => (Raise (Fault "load"), m)
            end
        | _ => (Raise (Fault "load"), m)
        end
  | mul a b =>
      fun m =>
        match eval m a, eval m b with
        | Some (VInt x), Some (VInt y) => (Ok (VInt (wrap64 (x * y))), m)
        | _, _ => (Raise (Fault "mul"), m)
        end
  | sext v _ => fun m => get "sext" (eval m v) m
  | bitcast v _ => fun m => get "bitcast" (eval m v) m
  | inttoptr v _ => fun m => get "inttoptr" (eval m v) m
  | call _ fn params =>
      fun m => (vs <- get "call" (eval_all m params) ;; call_runtime fn vs) m
  | call_ptr fn params =>
      fun m =>
        match eval m fn, eval_all m params with
        | Some (VInt addr), Some vs => call_native addr vs m
        | _, _ => (Raise (Fault "call"), m)
        end
  | compile_internal impl _ params =>
      fun m => (vs <- get "call" (eval_all m params) ;; impl rt vs) m
  | array_copy _ val =>
      fun m =>
        match eval m val with
        | Some (VArray a) =>
            match block_at (blocks m) (nd_data a) with
            | Some bytes =>
                let b := block_count (blocks m) in
                (Ok (VArray (mk_ndarray (nd_shape a) (nd_dtype a) b)),
                 mk_machine (regs m) (cells m)
                   (add_block (blocks m)
                      (contiguous_bytes rt (nd_shape a) bytes))
                   (dev m) (trace m ++ [EvArrayCopy (nd_data a) b]))
            | None => (Raise (Fault "array_copy"), m)
            end
        | _ => (Raise (Fault "array_copy"), m)
        end
  | decref _ val =>
      fun m => (v <- get "decref" (eval m val) ;; log (EvDecref v) ;;; ret VNone) m
  end.

Definition next (v : rval) (m : machine) : machine :=
  mk_machine (regs m ++ [v]) (cells m) (blocks m) (dev m) (trace m).

Definition push (v : rval) : Py unit := fun m => (Ok tt, next v m).

(** Modelled from the spec: how the host compiler propagates an error
    out of the emitted code is not among the sources.  The emitted
    instructions run in order, and, by section 4.5, "no further steps
    execute after [Errored]": an exception raised by an internally
    compiled function leaves the compiled call at once. *)
Fixpoint run (code : list instr) : Py unit :=
  match code with
  | [] => ret tt
  | i :: rest => v <- step i ;; push v ;;; run rest
  end.

End Machine.

Definition initial (memory : list (list Z)) : machine :=
  mk_machine [] [] memory [] [].

(** The arguments a lowering receives for a signature. *)
Definition arguments (sig : Signature) : list operand :=
  map Arg (seq 0 (List.length (sig_args sig))).

(** LLVM's check of a call when it parses the emitted module: a call
    passes as many arguments as the function type of its callee has
    parameters. *)
Definition call_arity_ok (code : list instr) (i : instr) : bool :=
  match i with
  | call fnty _ params =>
      Nat.eqb (List.length params) (List.length (fn_params fnty))
  | call_ptr (Reg f) params =>
      match nth_error code f with
      | Some (inttoptr _ fnty) =>
          Nat.eqb (List.length params) (List.length (fn_params fnty))
      | _ => true
      end
  | _ => true
  end.

Definition verify (code : list instr) : bool :=
  forallb (call_arity_ok code) code.

(** Lowering a call site and calling the compiled code once: a lowering
    that raises produces no code, and code that LLVM rejects is never
    compiled, so in both cases nothing runs. *)
Definition compile_and_call (context : Context) (rt : Runtime)
    (lowering : Signature -> list operand -> M operand)
    (sig : Signature) (inputs : list rval) (memory : list (list Z))
  : result rval * machine :=
  match lowering sig (arguments sig) [] with
  | (Raise e, _) => (Raise e, initial memory)
  | (Ok res, code) =>
      if verify code then
        match run context rt inputs code (initial memory) with
        | (Raise e, m) => (Raise e, m)
        | (Ok _, m) =>
            match eval inputs m res with
            | Some v => (Ok v, m)
            | None => (Raise (Fault "return"), m)
            end
        end
      else (Raise (RuntimeError "LLVM IR parsing error"), initial memory)
  end.

(** The code a lowering emits. *)
Definition emitted {R} (c : M R) : list instr := snd (c []).

(* ------------------------------------------------------------------ *)
(** ** The dispatch table *)

(** One entry per [lower_builtin] registration of the module. *)
Inductive operation :=
| np_dot | np_matmul | np_sum | np_prod
| np_argmax | np_argmin | np_argsort | np_cov.

Definition lower (context : Context) (op : operation)
  : Signature -> list operand -> M operand :=
  match op with
  | np_dot => dot_dppl context
  | np_matmul => matmul_dppl context
  | np_sum => array_sum context
  | np_prod => array_prod context
  | np_argmax => array_argmax context
  | np_argmin => array_argmin context
  | np_argsort => array_argsort context
  | np_cov => array_cov context
  end.

Definition is_array (t : type) : bool :=
  match t with Array _ _ _ => true | _ => false end.

(** The argument types each entry is registered for. *)
Definition registered (op : operation) (sig : Signature) : bool :=
  match op, sig_args sig with
  | (np_dot | np_matmul), [t1; t2] => is_array t1 && is_array t2
  | (np_sum | np_prod | np_argmax | np_argmin | np_cov), [t] => is_array t
  | np_argsort, [t; StringLiteral _] => is_array t
  | _, _ => false
  end.

Definition is_reduction (op : operation) : bool :=
  match op with
  | np_sum | np_prod | np_argmax | np_argmin => true
  | _ => false
  end.

(** The backend name each reduction hands to [call_dpnp]. *)
Definition dtype_eqb (d1 d2 : dtype) : bool :=
  match d1, d2 with
  | int32, int32 | int64, int64 | uint32, uint32
  | uint64, uint64 | float32, float32 | float64, float64 => true
  | _, _ => false
  end.

(** A run-time value of a numba type, in a memory that holds its data:
    an array value has the element type and rank of its type, dimensions
    that are not negative, and a data block. *)
Definition has_type (memory : list (list Z)) (t : type) (v : rval) : bool :=
  match t, v with
  | Array dt nd _, VArray a =>
      dtype_eqb (nd_dtype a) dt
      && (List.length (nd_shape a) =? nd)%nat
      && forallb (fun d => 0 <=? d) (nd_shape a)
      && (nd_data a <? block_count memory)%nat
  | Number _, VInt _ => true
  | StringLiteral _, VNone => true
  | none, VNone => true
  | _, _ => false
  end.

Fixpoint well_typed (memory : list (list Z)) (tys : list type)
    (vs : list rval) : bool :=
  match tys, vs with
  | [], [] => true
  | t :: tys', v :: vs' => has_type memory t v && well_typed memory tys' vs'
  | _, _ => false
  end.

(* ------------------------------------------------------------------ *)
(** ** Properties of traces and of emitted code *)

Definition is_usm_event (e : event) : bool :=
  match e with
  | EvMalloc _ _ _ | EvMemcpy _ _ _ _ | EvFree _ _ => true
  | _ => false
  end.

(** Device work: allocation, copy, invocation, release. *)
Definition is_device_work (e : event) : bool :=
  match e with
  | EvMalloc _ _ _ | EvMemcpy _ _ _ _ | EvFree _ _ | EvInvoke _ _ => true
  | _ => false
  end.

Definition usm_events (t : list event) : list event := filter is_usm_event t.
Definition device_work (t : list event) : list event :=
  filter is_device_work t.

(** The queues of the free calls issued on USM buffer [b]. *)
Fixpoint frees_of (b : nat) (t : list event) : list rval :=
  match t with
  | [] => []
  | EvFree (VPtr (PDev b')) q :: rest =>
      if (b' =? b)%nat then q :: frees_of b rest else frees_of b rest
  | _ :: rest => frees_of b rest
  end.

(** Every allocation in the trace is followed by exactly one free of the
    buffer it returned, and that free names the queue of the allocation. *)
Fixpoint released_once (t : list event) : Prop :=
  match t with
  | [] => True
  | EvMalloc b _ q :: rest => frees_of b rest = [q] /\ released_once rest
  | _ :: rest => released_once rest
  end.

(** The memcpy calls of a trace: destination, source, byte size. *)
Fixpoint memcpys (t : list event) : list (rval * rval * Z) :=
  match t with
  | [] => []
  | EvMemcpy _ d s n :: rest => (d, s, n) :: memcpys rest
  | _ :: rest => memcpys rest
  end.

(** The data blocks of the array copies a trace makes. *)
Fixpoint copies_made (t : list event) : list nat :=
  match t with
  | [] => []
  | EvArrayCopy _ dst :: rest => dst :: copies_made rest
  | _ :: rest => copies_made rest
  end.

Definition is_decref (i : instr) : bool :=
  match i with decref _ _ => true | _ => false end.

Definition is_array_copy (i : instr) : bool :=
  match i with array_copy _ _ => true | _ => false end.

(** Instructions that reach the device runtime or the backend. *)
Definition is_call (i : instr) : bool :=
  match i with
  | call _ _ _ | call_ptr _ _ | inttoptr _ _ => true
  | _ => false
  end.

Definition is_internal (i : instr) : bool :=
  match i with compile_internal _ _ _ => true | _ => false end.

(** The LLVM type of the value a lowering returns, read off the code:
    a load has the type of the slot it reads, an internally compiled
    function the value type of its declared return type. *)
Definition slot_type (code : list instr) (p : operand) : option lltype :=
  match p with
  | Reg o =>
      match nth_error code o with
      | Some (alloca ty) => Some ty
      | _ => None
      end
  | _ => None
  end.

Definition result_type (code : list instr) (res : operand) : option lltype :=
  match res with
  | Reg r =>
      match nth_error code r with
      | Some (load p) => slot_type code p
      | Some (compile_internal _ sig _) =>
          Some (get_value_type (return_type sig))
      | _ => None
      end
  | _ => None
  end.

(* ------------------------------------------------------------------ *)
(** ** A concrete target, backend and device *)

(** ABI sizes on an LP64 target: scalars by their width, pointers eight
    bytes, the array structure five words and two words per dimension. *)
Definition lp64_sizeof (t : lltype) : Z :=
  match t with
  | IntType bits => bits / 8
  | VoidType => 0
  | PointerType _ => 8
  | ValueType (Number (int32 | uint32 | float32)) => 4
  | ValueType (Number _) => 8
  | ValueType (Array _ nd _) => 40 + 16 * Z.of_nat nd
  | ValueType _ => 8
  end.

(** A backend symbol table with one address per operation name. *)
Definition example_symbols : list (string * Z) :=
  [ ("dpnp_dot", 4096); ("dpnp_matmul", 4112); ("dpnp_sum", 4128);
    ("dpnp_prod", 4144); ("dpnp_argmax", 4160); ("dpnp_argmin", 4176);
    ("dpnp_argsort", 4192); ("dpnp_cov", 4208) ].

Definition example_get_dpnp_fn_ptr (fn_name : string)
    (type_names : list string) : result Z :=
  match find (fun e => String.eqb (fst e) fn_name) example_symbols with
  | Some e => Ok (snd e)
  | None => Raise (LookupError fn_name)
  end.

Definition example_context : Context :=
  {| get_abi_sizeof := lp64_sizeof;
     dpnp_fptr_interface := Some example_get_dpnp_fn_ptr |}.

(** A device whose fresh memory holds 0xAA and whose native functions
    fill every USM buffer with 0xFF. *)
Definition example_runtime : Runtime :=
  {| current_queue := 7;
     fresh_usm := fun n => repeat 170 (Z.to_nat n);
     fresh_array := fun shape _ => repeat 170 (Z.to_nat (nitems_of shape));
     contiguous_bytes := fun _ bytes => bytes;
     backend := fun _ _ old i =>
       match nth_error old i with
       | Some bytes => map (fun _ => 255) bytes
       | None => []
       end;
     backend_host := fun _ _ old i =>
       match nth_error old i with
       | Some bytes => map (fun _ => 255) bytes
       | None => []
       end;
     backend_slot := fun _ _ _ _ => VBytes (repeat 255 8) |}.

(* ------------------------------------------------------------------ *)
(** ** What a reduction does, in summary *)

(** The backend name each entry hands to [call_dpnp]. *)
Definition backend_name (op : operation) : string :=
  match op with
  | np_dot => "dpnp_dot" | np_matmul => "dpnp_matmul"
  | np_sum => "dpnp_sum" | np_prod => "dpnp_prod"
  | np_argmax | np_argmin => "dpnp_argmax"
  | np_argsort => "dpnp_argsort" | np_cov => "dpnp_cov"
  end.

(** The type names a reduction resolves its symbol with. *)
Definition reduction_type_names (op : operation) (ret : type) (dt : dtype)
  : list string :=
  match op with
  | np_sum | np_prod => [dtype_name dt; "NONE"]
  | _ => [dtype_name dt; name ret]
  end.

(** The byte size of the device-side result of a reduction. *)
Definition out_size (context : Context) (op : operation) (ret : type)
    (dt : dtype) : Z :=
  match op with
  | np_sum | np_prod => get_abi_sizeof context (get_value_type (Number dt))
  | _ => get_abi_sizeof context (get_value_type ret)
  end.

(** The events of a reduction that runs to its end. *)
Definition reduction_trace (q : Z) (data : nat) (total osz addr n : Z)
    (out : nat) : list event :=
  let Q := VPtr (PQueue q) in
  [ EvGetQueue q;
    EvMalloc 0 total Q;
    EvMemcpy Q (VPtr (PDev 0)) (VPtr (PArr data)) total;
    EvMalloc 1 osz Q;
    EvInvoke addr [VPtr (PDev 0); VPtr (PDev 1); VInt n];
    EvMemcpy Q (VPtr (PCell out)) (VPtr (PDev 1)) osz;
    EvFree (VPtr (PDev 0)) Q;
    EvFree (VPtr (PDev 1)) Q ].

(** Example operands. *)
Definition sig_sum_int32 : Signature :=
  signature (Number int64) [Array int32 1 layout_C].

Definition three_int32 : list Z := [1; 0; 0; 0; 2; 0; 0; 0; 3; 0; 0; 0].

(** An internally compiled function that does nothing on the device. *)
Definition keeps (impl : pyfunc) : Prop :=
  forall rt vs m r m',
    impl rt vs m = (r, m') -> usm_events (trace m') = usm_events (trace m).

(** An instruction that neither calls the device runtime nor compiles in
    a function that would. *)
Definition host_only (i : instr) : Prop :=
  match i with
  | call _ _ _ => False
  | compile_internal impl _ _ => keeps impl
  | _ => True
  end.

(** The copies [make_contiguous] emits: one for each array operand whose
    layout is neither 'C' nor 'F'. *)
Fixpoint copy_instrs (tys : list type) (vals : list operand) : list instr :=
  match tys, vals with
  | ty :: tys', val :: vals' =>
      match ty with
      | Array _ _ lay =>
          if layout_in_CF lay then copy_instrs tys' vals'
          else array_copy (signature (copy_layout_C ty) [ty]) val
                 :: copy_instrs tys' vals'
      | _ => copy_instrs tys' vals'
      end
  | _, _ => []
  end.

Definition decref_of (c : type * operand) : instr := decref (fst c) (snd c).

(** The data blocks whose references a trace releases. *)
Fixpoint released_blocks (t : list event) : list nat :=
  match t with
  | [] => []
  | EvDecref (VArray a) :: rest => nd_data a :: released_blocks rest
  | _ :: rest => released_blocks rest
  end.

(** More example operands. *)
Definition sig_matmul_strided_vectors : Signature :=
  signature (Array float64 2 layout_C)
    [Array float64 1 layout_A; Array float64 1 layout_C].

Definition sig_dot_strided_matrices : Signature :=
  signature (Array float64 2 layout_C)
    [Array float64 2 layout_A; Array float64 2 layout_A].

Definition sig_matmul_matrices : Signature :=
  signature (Array float64 2 layout_C)
    [Array float64 2 layout_C; Array float64 2 layout_C].

Definition matrix_3x4 : rval := VArray (mk_ndarray [3; 4] float64 1).
Definition memory_2x3_3x4 : list (list Z) := [repeat 0 48; repeat 0 96].
Definition matrix_2x3 : rval := VArray (mk_ndarray [2; 3] float64 0).
Definition matrix_4x5 : rval := VArray (mk_ndarray [4; 5] float64 1).
Definition memory_2x3_4x5 : list (list Z) := [repeat 0 48; repeat 0 160].

(* ------------------------------------------------------------------ *)
(** ** Names and rank pairs of the dispatch table *)

(** The name each entry hands to [ensure_dpnp]. *)
Definition np_name (op : operation) : string :=
  match op with
  | np_dot => "dot" | np_matmul => "matmul" | np_sum => "sum"
  | np_prod => "prod" | np_argmax => "argmax" | np_argmin => "argmin"
  | np_argsort => "argsort" | np_cov => "cov"
  end.

(** The rank pairs [dot_dppl] has a branch for. *)
Definition dot_ranks (nd1 nd2 : nat) : bool :=
  nat_list_eqb [nd1; nd2] [2; 2]%nat || nat_list_eqb [nd1; nd2] [2; 1]%nat
  || nat_list_eqb [nd1; nd2] [1; 2]%nat || nat_list_eqb [nd1; nd2] [1; 1]%nat.

(** The array types of a list of types are all contiguous. *)
Definition contiguous (ty : type) : bool :=
  match ty with
  | Array _ _ lay => layout_in_CF lay
  | _ => true
  end.

Definition vector_of_3 (block : nat) : rval :=
  VArray (mk_ndarray [3] float64 block).
Definition memory_two_vectors : list (list Z) := [repeat 0 24; repeat 0 24].

(** An event of the device runtime: obtaining the queue, and allocating,
    copying and releasing USM memory. *)
Definition is_runtime_event (e : event) : bool :=
  match e with
  | EvGetQueue _ | EvMalloc _ _ _ | EvMemcpy _ _ _ _ | EvFree _ _ => true
  | _ => false
  end.

Definition runtime_events (t : list event) : list event :=
  filter is_runtime_event t.

(** An internally compiled function that does not call the device
    runtime. *)
Definition quiet (impl : pyfunc) : Prop :=
  forall rt vs m r m',
    impl rt vs m = (r, m') ->
    runtime_events (trace m') = runtime_events (trace m).

(** An instruction that neither calls the device runtime nor compiles in
    a function that would. *)
Definition no_runtime_call (i : instr) : Prop :=
  match i with
  | call _ _ _ => False
  | compile_internal impl _ _ => quiet impl
  | _ => True
  end.

(** A resolver that knows no symbol. *)
Definition no_symbols (fn_name : string) (type_names : list string)
  : result Z :=
  Raise (LookupError fn_name).

Definition sig_dot_matrices : Signature :=
  signature (Array float64 2 layout_C)
    [Array float64 2 layout_C; Array float64 2 layout_C].

Definition sig_dot_vectors : Signature :=
  signature (Number float64)
    [Array float64 1 layout_C; Array float64 1 layout_C].

Definition sig_argsort : Signature :=
  signature (Array int64 1 layout_C)
    [Array float64 1 layout_C; StringLiteral "quicksort"].

Definition sig_argmax_int32 : Signature :=
  signature (Number int64) [Array int32 1 layout_C].

(** A lowering body that returns its first operand. *)
Definition first_operand (sig : Signature) (args : list operand) : M operand :=
  ret (hd (Arg 0) args).

(* ------------------------------------------------------------------ *)
(** * numba.ocl.decorators *)
Module decorators.

(** A value passed by keyword. *)
Inductive kwval :=
| KwNone
| KwBool (b : bool)
| KwList (l : list string)
| KwObject (repr : string).

(** [**kws]: the keyword arguments a call passes beyond the declared
    parameters, in call order; as in a dict, no key occurs twice. *)
Definition kwargs : Type := list (string * kwval).

Fixpoint dict_get (d : kwargs) (key : string) (default : kwval) : kwval :=
  match d with
  | [] => default
  | (k, v) :: d' => if String.eqb k key then v else dict_get d' key default
  end.

Fixpoint dict_set (d : kwargs) (key : string) (v : kwval) : kwargs :=
  match d with
  | [] => [(key, v)]
  | (k, v') :: d' =>
      if String.eqb k key then (k, v) :: d' else (k, v') :: dict_set d' key v
  end.

(** Python truth of a keyword value. *)
Definition truthy (v : kwval) : bool :=
  match v with
  | KwNone => false
  | KwBool b => b
  | KwList l => match l with [] => false | _ => true end
  | KwObject _ => true
  end.

Section Jit.

(** What [sigutils] accepts as a signature, and how it normalizes one to
    argument types and a return type (None when the signature gives
    none); the configured default of the debug flag. *)
Variable sigobj : Type.
Variable normalize_signature : sigobj -> result (list type * option type).
Variable OCL_DEBUGINFO_DEFAULT : bool.

(** The objects the decorators are handed: a Python function, a
    signature (a string, a tuple or a [Signature]), or a numba type. *)
Inductive pyobj :=
| Function (name : string)
| Sig (s : sigobj)
| TypeObj (t : type).

(** [sigutils.is_signature] *)
Definition is_signature (x : option pyobj) : bool :=
  match x with
  | Some (Sig _) => true
  | _ => false
  end.

(** What the decorators return. *)
Inductive jit_value :=
| autojitwrapper (device bind debug : bool) (kws : kwargs)
| kernel_jit (argtypes : option (list type)) (link : list string)
    (debug inline : bool) (fastmath : kwval) (bind : bool)
| device_jit (restype : option pyobj) (argtypes : option (list type))
    (inline debug : bool)
| DeviceFunctionTemplate (func : pyobj) (debug : bool) (inline : kwval)
| AutoJitOCLKernel (func : pyobj) (bind : bool) (targetoptions : kwargs)
| OCLKernel (func : pyobj) (argtypes : option (list type))
    (link : list string) (debug inline : bool) (fastmath : kwval)
    (bound : bool)
| DeviceFunction (func : pyobj) (restype : option pyobj)
    (argtypes : option (list type)) (inline debug : bool)
| ExternFunction (name : string) (restype : option pyobj)
    (argtypes : option (list type)).

Definition resolve_debug (debug : option bool) : bool :=
  match debug with
  | None => OCL_DEBUGINFO_DEFAULT
  | Some d => d
  end.

Definition jitdevice (func : pyobj) (link : kwval) (debug : option bool)
    (inline : kwval) : result jit_value :=
  let debug := resolve_debug debug in
  if truthy link
  then Raise (ValueError "link keyword invalid for device function")
  else Ok (DeviceFunctionTemplate func debug inline).

(** [jitdevice(func, debug=debug, **kws)]: binding the keywords of the
    call to the parameters of [jitdevice]. *)
Fixpoint jitdevice_kws (func : pyobj) (link : kwval) (debug : bool)
    (inline : kwval) (kws : kwargs) : result jit_value :=
  match kws with
  | [] => jitdevice func link (Some debug) inline
  | (k, v) :: kws' =>
      if String.eqb k "func" || String.eqb k "debug"
      then Raise (TypeError
             ("jitdevice() got multiple values for argument '" ++ k ++ "'"))
      else if String.eqb k "link"
      then jitdevice_kws func v debug inline kws'
      else if String.eqb k "inline"
      then jitdevice_kws func link debug v kws'
      else Raise (TypeError
             ("jitdevice() got an unexpected keyword argument '" ++ k ++ "'"))
  end.

(** [restype != types.void] *)
Definition is_void (restype : option pyobj) : bool :=
  match restype with
  | Some (TypeObj none) => true
  | _ => false
  end.

(** Python truth of what [convert_types] returned as return type. *)
Definition restype_truthy (restype : option pyobj) : bool :=
  match restype with
  | None => false
  | Some _ => true
  end.

Definition convert_types (restype : option pyobj)
    (argtypes : option (list type))
  : result (option pyobj * option (list type)) :=
  match restype with
  | Some (Sig s) =>
      match argtypes with
      | Some _ => Raise AssertionError
      | None =>
          match normalize_signature s with
          | Raise e => Raise e
          | Ok (args, restype) => Ok (option_map TypeObj restype, Some args)
          end
      end
  | _ => Ok (restype, argtypes)
  end.

Definition is_None {A} (x : option A) : bool :=
  match x with None => true | Some _ => false end.

Definition jit (func_or_sig : option pyobj)
    (argtypes : option (list type)) (device inline bind : bool)
    (link : list string) (debug : option bool) (kws : kwargs)
  : result jit_value :=
  let debug := resolve_debug debug in
  let fastmath := dict_get kws "fastmath" (KwBool false) in
  if is_None argtypes && negb (is_signature func_or_sig) then
    match func_or_sig with
    | None => Ok (autojitwrapper device bind debug kws)
    | Some func =>
        if device then jitdevice_kws func (KwList []) debug (KwBool false) kws
        else
          let targetoptions := dict_set kws "debug" (KwBool debug) in
          Ok (AutoJitOCLKernel func bind targetoptions)
    end
  else
    match convert_types func_or_sig argtypes with
    | Raise e => Raise e
    | Ok (restype, argtypes) =>
        if restype_truthy restype && negb device && negb (is_void restype)
        then Raise (TypeError "OCL kernel must have void return type.")
        else if device then Ok (device_jit restype argtypes inline debug)
        else Ok (kernel_jit argtypes link debug inline fastmath bind)
    end.

(** Calling what [jit] returned on the function to compile.  The three
    closures are the decorators; calling a compiled object launches it,
    which is outside this model. *)
Definition decorate (d : jit_value) (func : pyobj) : result jit_value :=
  match d with
  | autojitwrapper device bind debug kws =>
      jit (Some func) None device false bind [] (Some debug) kws
  | kernel_jit argtypes link debug inline fastmath bind =>
      Ok (OCLKernel func argtypes link debug inline fastmath bind)
  | device_jit restype argtypes inline debug =>
      Ok (DeviceFunction func restype argtypes inline debug)
  | _ => Raise (Fault "not a decorator")
  end.

Definition declare_device (name : string) (restype : option pyobj)
    (argtypes : option (list type)) : result jit_value :=
  match convert_types restype argtypes with
  | Raise e => Raise e
  | Ok (restype, argtypes) => Ok (ExternFunction name restype argtypes)
  end.

End Jit.

Arguments Function {sigobj}.
Arguments Sig {sigobj}.
Arguments TypeObj {sigobj}.
Arguments is_signature {sigobj}.
Arguments autojitwrapper {sigobj}.
Arguments kernel_jit {sigobj}.
Arguments device_jit {sigobj}.
Arguments DeviceFunctionTemplate {sigobj}.
Arguments AutoJitOCLKernel {sigobj}.
Arguments OCLKernel {sigobj}.
Arguments DeviceFunction {sigobj}.
Arguments ExternFunction {sigobj}.
Arguments jitdevice {sigobj}.
Arguments jitdevice_kws {sigobj}.
Arguments is_void {sigobj}.
Arguments restype_truthy {sigobj}.
Arguments convert_types {sigobj}.
Arguments jit {sigobj}.
Arguments decorate {sigobj}.
Arguments declare_device {sigobj}.

(** The names [jit] declares: a call never leaves them in [**kws]. *)
Definition jit_parameters : list string :=
  ["func_or_sig"; "argtypes"; "device"; "inline"; "bind"; "link"; "debug"].

(** [kws] holds none of the names [jit] declares. *)
Definition valid_kws (kws : kwargs) : bool :=
  forallb (fun kv => negb (existsb (String.eqb (fst kv)) jit_parameters)) kws.

End decorators.

Module decorators_examples.
Import decorators.

(** A signature given as a [Signature] object. *)
Definition normalize_Signature (s : Signature)
  : result (list type * option type) :=
  Ok (sig_args s, Some (return_type s)).

End decorators_examples.

(* ------------------------------------------------------------------ *)
(** * numba.ocl.tests.oclpy.test_powi *)

(** The two kernels of the test, one work item at a time, on
    C-contiguous arrays; the input and the output are distinct buffers,
    as in the test. *)
Module test_powi.

(** [int32(power)]: the value as a signed 32-bit integer. *)
Definition int32 (z : Z) : Z := (z + 2 ^ 31) mod 2 ^ 32 - 2 ^ 31.

Section Kernels.

(** float64 values, [math.pow] with an int32 exponent, and [**] with the
    exponent as it is passed. *)
Variable float : Type.
Variable math_pow : float -> Z -> float.
Variable binop_pow : float -> Z -> float.

(** A C-contiguous two-dimensional device array: its shape and its
    buffer, row after row. *)
Record device_array := mk_device_array {
  shape : nat * nat;
  buffer : list float
}.

(** [A[y, x]] in a kernel: the item at the flat index, with no bounds
    check; None when the index lies outside the buffer, which the
    kernels below render as a fault. *)
Definition getitem (A : device_array) (y x : nat) : option float :=
  nth_error (buffer A) (y * snd (shape A) + x).

Fixpoint list_set (l : list float) (i : nat) (v : float) : list float :=
  match l, i with
  | [], _ => []
  | _ :: l', O => v :: l'
  | a :: l', S i' => a :: list_set l' i' v
  end.

(** [A[y, x] = v] in a kernel. *)
Definition setitem (A : device_array) (y x : nat) (v : float)
  : device_array :=
  mk_device_array (shape A) (list_set (buffer A) (y * snd (shape A) + x) v).

(** One work item of [cu_mat_power]; [gid] is what [ocl.grid(2)]
    returns.  The result is the output array after the work item. *)
Definition cu_mat_power (A : device_array) (power : Z)
    (power_A : device_array) (gid : nat * nat) : result device_array :=
  let '(y, x) := gid in
  let '(m, n) := shape power_A in
  if (n <=? x)%nat || (m <=? y)%nat then Ok power_A
  else
    match getitem A y x with
    | Some a => Ok (setitem power_A y x (math_pow a (int32 power)))
    | None => Raise (Fault "read outside the buffer")
    end.

(** One work item of [cu_mat_power_binop]. *)
Definition cu_mat_power_binop (A : device_array) (power : Z)
    (power_A : device_array) (gid : nat * nat) : result device_array :=
  let '(y, x) := gid in
  let '(m, n) := shape power_A in
  if (n <=? x)%nat || (m <=? y)%nat then Ok power_A
  else
    match getitem A y x with
    | Some a => Ok (setitem power_A y x (binop_pow a power))
    | None => Raise (Fault "read outside the buffer")
    end.

(** The work items of a launch, one after the other. *)
Fixpoint launch (kernel : device_array -> nat * nat -> result device_array)
    (items : list (nat * nat)) (out : device_array) : result device_array :=
  match items with
  | [] => Ok out
  | gid :: rest =>
      match kernel out gid with
      | Ok out' => launch kernel rest out'
      | Raise e => Raise e
      end
  end.

(** An array whose buffer holds one item per index of its shape. *)
Definition well_formed (A : device_array) : Prop :=
  List.length (buffer A) = (fst (shape A) * snd (shape A))%nat.

(** The work item [(y, x)] is among [items]. *)
Definition scheduled (items : list (nat * nat)) (y x : nat) : bool :=
  existsb (fun gid => Nat.eqb (fst gid) y && Nat.eqb (snd gid) x) items.

End Kernels.

Arguments shape {float}.
Arguments buffer {float}.
Arguments mk_device_array {float}.
Arguments getitem {float}.
Arguments setitem {float}.
Arguments list_set {float}.
Arguments cu_mat_power {float}.
Arguments cu_mat_power_binop {float}.
Arguments launch {float}.
Arguments well_formed {float}.

End test_powi.

(** Example operands: integers for the items, with their power. *)
Module test_powi_examples.

Definition A : test_powi.device_array Z :=
  test_powi.mk_device_array (2, 3)%nat [0; 1; 2; 3; 4; 5].

Definition Aout : test_powi.device_array Z :=
  test_powi.mk_device_array (2, 3)%nat [9; 9; 9; 9; 9; 9].

(** The work items of a 2 by 4 grid, out of order. *)
Definition items : list (nat * nat) :=
  [(1, 2); (0, 0); (1, 3); (0, 1); (1, 0); (0, 3); (0, 2); (1, 1)]%nat.

End test_powi_examples.

(* ------------------------------------------------------------------ *)
(** * Properties *)

(** ** Stepping through emitted code *)

Lemma run_cons context rt inputs i rest m :
  run context rt inputs (i :: rest) m =
  match step context rt inputs i m with
  | (Ok v, m') => run context rt inputs rest (next v m')
  | (Raise e, m') => (Raise e, m')
  end.
Proof.
  cbn [run]. unfold bind at 1.
  destruct (step context rt inputs i m) as [[v|e] m']; reflexivity.
Qed.

Lemma run_nil context rt inputs m :
  run context rt inputs [] m = (Ok tt, m).
Proof. reflexivity. Qed.

Lemma block_at_lt memory i :
  (i <? block_count memory)%nat = true ->
  exists bytes, block_at memory i = Some bytes.
Proof.
  unfold block_at, block_count. intros H. apply Nat.ltb_lt in H.
  destruct (nth_error memory i) eqn:E; eauto.
  apply nth_error_None in E. lia.
Qed.

(** Evaluate with the arithmetic and the host memory left symbolic. *)
Ltac symb_in H :=
  cbv -[Z.eqb Z.mul Z.gtb Z.leb Z.ltb Z.to_nat Z.of_nat Z.pow Z.sub Z.add
        Z.div Z.modulo Z.max nitems_of wrap64 le_bytes splice name
        dtype_name block_at block_count add_block arange_bytes host_after] in H.

Ltac symb :=
  cbv -[Z.eqb Z.mul Z.gtb Z.leb Z.ltb Z.to_nat Z.of_nat Z.pow Z.sub Z.add
        Z.div Z.modulo Z.max nitems_of wrap64 le_bytes splice name
        dtype_name block_at block_count add_block arange_bytes host_after].

(** Execute the next instruction of a [run] on an explicit machine. *)
Ltac run_step :=
  match goal with
  | |- context [run ?c ?r ?ins (?i :: ?rest) ?m] =>
      rewrite (run_cons c r ins i rest m);
      let s := eval cbv -[Z.eqb Z.mul Z.gtb Z.leb Z.ltb Z.to_nat Z.of_nat
                          Z.pow Z.sub Z.add Z.div Z.modulo Z.max nitems_of
                          wrap64 le_bytes splice name dtype_name block_at
                          block_count add_block arange_bytes host_after]
               in (step c r ins i m) in
      change (step c r ins i m) with s;
      cbv beta iota delta [next regs cells blocks dev trace app]
  | |- context [run ?c ?r ?ins [] ?m] =>
      rewrite (run_nil c r ins m); cbv beta iota
  end.

(* ------------------------------------------------------------------ *)
(** ** np.matmul never reaches the backend *)

(** C9. For every pair of rank-2 operands the np.matmul lowering raises:
    with dpNP importable the exception is the NameError of the unbound
    [sycl_queue]; the code emitted up to that point contains no call (no
    get-current-queue call, no allocation, no copy, no resolved backend
    address), and as the lowering fails nothing runs. *)
Theorem matmul_dppl_never_reaches_backend :
  forall context ret dt1 l1 dt2 l2,
    let sig := signature ret [Array dt1 2 l1; Array dt2 2 l2] in
    let e := match dpnp_fptr_interface context with
             | Some _ => NameError "sycl_queue"
             | None => ImportError "dpNP is needed to call np.matmul"
             end in
    exists code,
      matmul_dppl context sig (arguments sig) [] = (Raise e, code)
      /\ forallb (fun i => negb (is_call i)) code = true
      /\ forall rt inputs memory,
           compile_and_call context rt (matmul_dppl context) sig inputs memory
           = (Raise e, initial memory).
Proof.
  intros [sz [glue|]] ret dt1 l1 dt2 l2 sig e; subst sig e.
  - destruct l1, l2; eexists;
      (split; [reflexivity | split; [reflexivity | intros; reflexivity]]).
  - eexists; (split; [reflexivity | split; [reflexivity | intros; reflexivity]]).
Qed.

(* ------------------------------------------------------------------ *)
(** ** np.argmin and np.argmax call the same backend function *)

(** C8. With dpNP importable, the argmin lowering is the argmax lowering:
    same result and same emitted code for every signature and operands.
    The name it resolves is "dpnp_argmax": when the backend has that
    symbol for the operand and return type names, its address is the
    one embedded in the emitted call, and when it has not, the argmin
    lowering fails with the resolver's error. *)
Theorem argmin_resolves_argmax_symbol :
  forall sizeof glue ret dt nd lay,
    let context := {| get_abi_sizeof := sizeof;
                      dpnp_fptr_interface := Some glue |} in
    let sig := signature ret [Array dt nd lay] in
    (forall sig' args b,
        array_argmin context sig' args b = array_argmax context sig' args b)
    /\ match glue "dpnp_argmax" [dtype_name dt; name ret] with
       | Ok addr =>
           exists res code,
             array_argmin context sig (arguments sig) [] = (Ok res, code)
             /\ In (inttoptr (Const (Number int64) addr)
                      (FunctionType ll_void [ll_void_p; ll_void_p; IntType 64]))
                   code
       | Raise e => fst (array_argmin context sig (arguments sig) []) = Raise e
       end.
Proof.
  intros sizeof glue ret dt nd lay context sig. split.
  - intros sig' args b. reflexivity.
  - subst context sig.
    change (dtype_name dt) with (name (Number dt)).
    destruct (glue "dpnp_argmax" [name (Number dt); name ret]) as [addr|e] eqn:E.
    + symb. rewrite E. symb. do 2 eexists. split; [reflexivity|].
      do 25 right. left. reflexivity.
    + symb. rewrite E. reflexivity.
Qed.

(* ------------------------------------------------------------------ *)
(** ** np.dot on a matrix and a vector *)

(** In [make_res] of [dot_2_mv] the test [_n != n] compares the shape
    tuple of the vector with an integer, so it holds whatever the sizes. *)
Lemma dot_2_mv_make_res_raises rt m n n' dt da db mach :
  dot_2_mv_make_res rt
    [VArray (mk_ndarray [m; n] dt da); VArray (mk_ndarray [n'] dt db)] mach
  = (Raise (ValueError "incompatible array sizes for np.dot(a, b)"), mach).
Proof. reflexivity. Qed.

Lemma dot_matrix_vector_always_raises :
  forall context rt ret dt m n n' da db memory res code,
    let sig := signature ret [Array dt 2 layout_C; Array dt 1 layout_C] in
    dot_dppl context sig (arguments sig) [] = (Ok res, code) ->
    compile_and_call context rt (dot_dppl context) sig
      [VArray (mk_ndarray [m; n] dt da); VArray (mk_ndarray [n'] dt db)]
      memory
    = (Raise (ValueError "incompatible array sizes for np.dot(a, b)"),
       initial memory).
Proof.
  intros [sz [glue|]] rt ret dt m n n' da db memory res code sig Hlow;
    subst sig; [|discriminate].
  unfold compile_and_call. rewrite Hlow. symb_in Hlow.
  destruct (glue _ _) as [addr|e]; [|discriminate].
  inversion Hlow; subst; clear Hlow. cbv beta iota delta [initial].
  run_step. reflexivity.
Qed.

(** C5. A 2x3 matrix and a vector of length 3 have matching inner
    dimensions, and np.dot on them raises the shape-mismatch error
    instead of producing a result of shape (2,). *)
Theorem dot_matrix_vector_rejects_matching_shapes :
  let sig := signature (Array float64 1 layout_C)
               [Array float64 2 layout_C; Array float64 1 layout_C] in
  let memory := [repeat 0 48; repeat 0 24] in
  well_typed memory (sig_args sig)
    [VArray (mk_ndarray [2; 3] float64 0); VArray (mk_ndarray [3] float64 1)]
  = true
  /\ compile_and_call example_context example_runtime
       (dot_dppl example_context) sig
       [VArray (mk_ndarray [2; 3] float64 0); VArray (mk_ndarray [3] float64 1)]
       memory
     = (Raise (ValueError "incompatible array sizes for np.dot(a, b)"),
        initial memory).
Proof. split; reflexivity. Qed.

(* ------------------------------------------------------------------ *)
(** ** np.cov *)

(** C6. On an operand of rank 3 the cov lowering signals no rank error:
    neither branch assigns [out], and the lowering stops on the read of
    that unassigned local before emitting any code. *)
Theorem array_cov_rank3_unbound_local :
  let sig := signature (Array float64 2 layout_C) [Array float64 3 layout_C] in
  array_cov example_context sig (arguments sig) []
    = (Raise (UnboundLocalError "out"), [])
  /\ compile_and_call example_context example_runtime
       (array_cov example_context) sig
       [VArray (mk_ndarray [2; 2; 2] float64 0)] [repeat 0 64]
     = (Raise (UnboundLocalError "out"), initial [repeat 0 64]).
Proof. split; reflexivity. Qed.

(** The same holds at every rank other than 1 and 2. *)
Lemma array_cov_other_rank_unbound_local :
  forall context ret dt nd lay,
    nd <> 1%nat -> nd <> 2%nat ->
    dpnp_fptr_interface context <> None ->
    let sig := signature ret [Array dt nd lay] in
    array_cov context sig (arguments sig) []
    = (Raise (UnboundLocalError "out"), []).
Proof.
  intros [sz [glue|]] ret dt nd lay H1 H2 Hg sig;
    [|exfalso; apply Hg; reflexivity].
  destruct nd as [|[|[|nd]]]; try congruence; reflexivity.
Qed.

(** At ranks 1 and 2 the lowering does not get past [call_dpnp]: the
    slots [nrows] and [ncols] are handed over where the function type
    declares two [i64], so [builder.call] raises TypeError on the third
    argument and nothing runs. *)
Lemma array_cov_rank_1_2_type_error :
  forall sizeof glue rt ret dt nd lay addr inputs memory,
    let context := {| get_abi_sizeof := sizeof;
                      dpnp_fptr_interface := Some glue |} in
    let sig := signature ret [Array dt nd lay] in
    nd = 1%nat \/ nd = 2%nat ->
    glue "dpnp_cov" [dtype_name dt; name ret] = Ok addr ->
    exists code,
      array_cov context sig (arguments sig) []
      = (Raise (TypeError "Type of #3 arg mismatch: i64 != i64*"), code)
      /\ compile_and_call context rt (array_cov context) sig inputs memory
         = (Raise (TypeError "Type of #3 arg mismatch: i64 != i64*"),
            initial memory).
Proof.
  intros sizeof glue rt ret dt nd lay addr inputs memory context sig Hnd Hg;
    subst context sig.
  unfold compile_and_call.
  destruct Hnd as [-> | ->];
    (match goal with
     | |- context [array_cov ?c ?s ?a ?b] =>
         let t := eval cbv -[name dtype_name make_1D_res make_2D_res]
                  in (array_cov c s a b) in
         change (array_cov c s a b) with t
     end);
    change (dtype_name dt) with (name (Number dt)) in Hg;
    rewrite Hg; eexists; split; reflexivity.
Qed.

(* ------------------------------------------------------------------ *)
(** ** The reductions: sum, prod, argmax, argmin *)

(** An empty operand: the size check is the first instruction and it
    raises, so nothing else runs. *)
Lemma reduction_run_empty :
  forall context rt op ret dt nd lay shape adt data memory res code,
    is_reduction op = true ->
    let sig := signature ret [Array dt nd lay] in
    lower context op sig (arguments sig) [] = (Ok res, code) ->
    nitems_of shape = 0 ->
    compile_and_call context rt (lower context op) sig
      [VArray (mk_ndarray shape adt data)] memory
    = (Raise (ValueError "Passed Empty array"), initial memory).
Proof.
  intros [sz [glue|]] [q fu fa cb be bh bs] op ret dt nd lay shape adt data
    memory res code Hop sig Hlow Hn; subst sig.
  2:{ destruct op; discriminate. }
  apply Z.eqb_eq in Hn.
  destruct op; try discriminate Hop;
    unfold compile_and_call; rewrite Hlow; symb_in Hlow;
    (destruct (glue _ _) as [addr|e]; [|discriminate]);
    inversion Hlow; subst; clear Hlow;
    cbv beta iota zeta delta [initial];
    run_step; rewrite Hn; reflexivity.
Qed.

(** A non-empty operand: the call runs to its end; its events, its
    result and the type of its result. *)
Lemma reduction_run :
  forall context rt op ret dt nd lay shape adt data memory bytes res code,
    is_reduction op = true ->
    let sig := signature ret [Array dt nd lay] in
    lower context op sig (arguments sig) [] = (Ok res, code) ->
    block_at memory data = Some bytes ->
    nitems_of shape <> 0 ->
    exists glue addr,
      dpnp_fptr_interface context = Some glue /\
      glue (backend_name op) (reduction_type_names op ret dt) = Ok addr /\
      let n := nitems_of shape in
      let total :=
        wrap64 (n * get_abi_sizeof context (get_value_type (Number dt))) in
      let osz := out_size context op ret dt in
      let staged := splice total bytes (fresh_usm rt total) in
      let out_dev :=
        backend rt addr [VPtr (PDev 0); VPtr (PDev 1); VInt n]
          [staged; fresh_usm rt osz] 1 in
      let zeros :=
        le_bytes (Z.to_nat (get_abi_sizeof context (get_value_type ret))) 0 in
      exists mach,
        compile_and_call context rt (lower context op) sig
          [VArray (mk_ndarray shape adt data)] memory
        = (Ok (VBytes (splice osz out_dev zeros)), mach)
        /\ trace mach
           = reduction_trace (current_queue rt) data total osz addr n 3
        /\ result_type code res = Some (get_value_type ret).
Proof.
  intros [sz [glue|]] [q fu fa cb be bh bs] op ret dt nd lay shape adt data
    memory bytes res code Hop sig Hlow Hb Hn; subst sig.
  2:{ destruct op; discriminate. }
  apply Z.eqb_neq in Hn.
  exists glue.
  destruct op; try discriminate Hop;
    unfold compile_and_call; rewrite Hlow; symb_in Hlow;
    change (dtype_name dt) with (name (Number dt));
    (destruct (glue _ _) as [addr|e]; [|discriminate]);
    inversion Hlow; subst; clear Hlow; exists addr;
    (split; [reflexivity|]); (split; [reflexivity|]);
    cbv beta iota zeta delta [initial];
    run_step; rewrite Hn; cbv beta iota;
    do 17 run_step; rewrite Hb; cbv beta iota;
    repeat run_step;
    eexists; (split; [reflexivity|]);
    (split; [reflexivity | destruct ret; reflexivity]).
Qed.

Lemma has_type_array memory dt nd lay a :
  has_type memory (Array dt nd lay) (VArray a) = true ->
  exists bytes, block_at memory (nd_data a) = Some bytes.
Proof.
  cbn. intros H. repeat (apply andb_prop in H; destruct H as [H ?]).
  now apply block_at_lt.
Qed.

(** C4. A reduction (sum, prod, argmax, argmin) applied to an array of
    size 0 raises the empty-input error and does no device work: no
    allocation, copy, invocation or free.  Applied to a non-empty array
    it returns a value, and the value the lowering returns has the value
    type of the declared return type. *)
Theorem reduction_rejects_empty_input :
  forall context rt op ret dt nd lay a memory res code,
    is_reduction op = true ->
    let sig := signature ret [Array dt nd lay] in
    lower context op sig (arguments sig) [] = (Ok res, code) ->
    has_type memory (Array dt nd lay) (VArray a) = true ->
    (nitems_of (nd_shape a) = 0 ->
       exists mach,
         compile_and_call context rt (lower context op) sig [VArray a] memory
         = (Raise (ValueError "Passed Empty array"), mach)
         /\ device_work (trace mach) = [])
    /\ (nitems_of (nd_shape a) <> 0 ->
       exists v mach,
         compile_and_call context rt (lower context op) sig [VArray a] memory
         = (Ok v, mach)
         /\ result_type code res = Some (get_value_type ret)).
Proof.
  intros context rt op ret dt nd lay [shape adt data] memory res code Hop sig
    Hlow Hty.
  destruct (has_type_array _ _ _ _ _ Hty) as [bytes Hb]. cbn in Hb. split.
  - intros Hn. exists (initial memory). split; [|reflexivity].
    eapply reduction_run_empty; eassumption.
  - intros Hn.
    destruct (reduction_run context rt op ret dt nd lay shape adt data memory
                bytes res code Hop Hlow Hb Hn)
      as (glue & addr & _ & _ & mach & Hrun & _ & Hty').
    eauto.
Qed.

Lemma reduction_rejects_empty_input_witness :
  (exists mach,
     compile_and_call example_context example_runtime
       (lower example_context np_sum) sig_sum_int32
       [VArray (mk_ndarray [0] int32 0)] [[]]
     = (Raise (ValueError "Passed Empty array"), mach)
     /\ device_work (trace mach) = [])
  /\ (exists v mach,
       compile_and_call example_context example_runtime
         (lower example_context np_sum) sig_sum_int32
         [VArray (mk_ndarray [3] int32 0)] [three_int32]
       = (Ok v, mach)
       /\ result_type
            (emitted (array_sum example_context sig_sum_int32
                        (arguments sig_sum_int32)))
            (Reg 35)
          = Some (get_value_type (Number int64))).
Proof.
  split.
  - apply (proj1 (reduction_rejects_empty_input example_context
             example_runtime np_sum (Number int64) int32 1 layout_C
             (mk_ndarray [0] int32 0) [[]] (Reg 35)
             (emitted (array_sum example_context sig_sum_int32
                         (arguments sig_sum_int32)))
             eq_refl eq_refl eq_refl)).
    reflexivity.
  - apply (proj2 (reduction_rejects_empty_input example_context
             example_runtime np_sum (Number int64) int32 1 layout_C
             (mk_ndarray [3] int32 0) [three_int32] (Reg 35)
             (emitted (array_sum example_context sig_sum_int32
                         (arguments sig_sum_int32)))
             eq_refl eq_refl eq_refl)).
    discriminate.
Defined.

(* ------------------------------------------------------------------ *)
(** ** Code that stays on the host *)

Lemma usm_events_snoc t e :
  is_usm_event e = false -> usm_events (t ++ [e]) = usm_events t.
Proof.
  intros H. unfold usm_events. rewrite filter_app. cbn. rewrite H.
  apply app_nil_r.
Qed.

(** Take a finished Python-level computation apart. *)
Ltac keeps_cases H :=
  repeat (match type of H with
          | context [match ?x with _ => _ end] => is_var x; destruct x
          | context [?f ?x] => is_fix f; is_var x; destruct x
          | context [if ?c then _ else _] => destruct c
          end; cbv beta iota in H);
  inversion H; subst; clear H; cbn [trace];
  try reflexivity; try (apply usm_events_snoc; reflexivity).

Ltac keeps_tac f :=
  intros rt vs [rg cl bl dv tr] r m' H; unfold f in H;
  destruct vs as [|[z1|p1|[s1 d1 b1]|l1|bs1|] [|[z2|p2|[s2 d2 b2]|l2|bs2|] [|v3 vs]]];
  cbv -[Z.eqb Z.gtb Z.max Z.to_nat nitems_of block_count add_block
        arange_bytes app] in H;
  keeps_cases H.

Lemma keeps_check_c_int_impl : keeps check_c_int_impl.
Proof. keeps_tac check_c_int_impl. Qed.

Lemma keeps_dot_2_vv_check_args : keeps dot_2_vv_check_args.
Proof. keeps_tac dot_2_vv_check_args. Qed.

Lemma keeps_dot_2_mm_make_res : keeps dot_2_mm_make_res.
Proof. keeps_tac dot_2_mm_make_res. Qed.

Lemma keeps_dot_2_mv_make_res : keeps dot_2_mv_make_res.
Proof. keeps_tac dot_2_mv_make_res. Qed.

Lemma keeps_dot_2_vm_make_res : keeps dot_2_vm_make_res.
Proof. keeps_tac dot_2_vm_make_res. Qed.

Lemma keeps_array_argsort_make_res : keeps array_argsort_make_res.
Proof. keeps_tac array_argsort_make_res. Qed.

Lemma keeps_make_1D_res : keeps make_1D_res.
Proof. keeps_tac make_1D_res. Qed.

Lemma keeps_make_2D_res : keeps make_2D_res.
Proof. keeps_tac make_2D_res. Qed.

Lemma step_host_only context rt inputs i m r m' :
  host_only i ->
  step context rt inputs i m = (r, m') ->
  usm_events (trace m') = usm_events (trace m).
Proof.
  destruct m as [rg cl bl dv tr].
  destruct i; cbn [host_only]; intros Hi H; try contradiction.
  - cbn in H. inversion H; subst. reflexivity.
  - cbn in H.
    destruct (eval inputs _ v) as [x|]; [|inversion H; subst; reflexivity].
    destruct (eval inputs _ p) as [[?|[|c|?|?|?]|?|?|?|]|];
      try (inversion H; subst; reflexivity).
    destruct (nth_error cl c); inversion H; subst; reflexivity.
  - cbn in H.
    destruct (eval inputs _ p) as [[?|[|c|?|?|?]|?|?|?|]|];
      try (inversion H; subst; reflexivity).
    destruct (nth_error cl c); inversion H; subst; reflexivity.
  - cbn in H.
    destruct (eval inputs _ a) as [[]|]; try (inversion H; subst; reflexivity).
    destruct (eval inputs _ b) as [[]|]; inversion H; subst; reflexivity.
  - cbn in H. destruct (eval inputs _ v); inversion H; subst; reflexivity.
  - cbn in H. destruct (eval inputs _ v); inversion H; subst; reflexivity.
  - cbn in H. destruct (eval inputs _ v); inversion H; subst; reflexivity.
  - cbn in H.
    destruct (eval inputs _ fn) as [[addr| | | | |]|];
      try (inversion H; subst; reflexivity).
    destruct (eval_all inputs _ params) as [vs|];
      [|inversion H; subst; reflexivity].
    unfold call_native in H. inversion H; subst. cbn [trace].
    apply usm_events_snoc. reflexivity.
  - cbn in H. unfold bind, get in H.
    destruct (eval_all inputs _ params) as [vs|].
    + cbn in H. eapply Hi. exact H.
    + inversion H; subst. reflexivity.
  - cbn in H.
    destruct (eval inputs _ val) as [[?|?|a|?|?|]|];
      try (inversion H; subst; reflexivity).
    destruct (block_at bl (nd_data a));
      inversion H; subst; [|reflexivity]. cbn [trace].
    apply usm_events_snoc. reflexivity.
  - cbn in H. unfold bind, get in H.
    destruct (eval inputs _ val) as [v|]; cbn in H; inversion H; subst.
    + cbn [trace]. apply usm_events_snoc. reflexivity.
    + reflexivity.
Qed.

Lemma run_host_only context rt inputs code :
  Forall host_only code ->
  forall m r m',
    run context rt inputs code m = (r, m') ->
    usm_events (trace m') = usm_events (trace m).
Proof.
  induction 1 as [|i code Hi Hcode IH]; intros m r m' H.
  - rewrite run_nil in H. inversion H; subst. reflexivity.
  - rewrite run_cons in H.
    destruct (step context rt inputs i m) as [[v|e] m1] eqn:E.
    + apply IH in H. rewrite H. cbn [next trace].
      eapply step_host_only; eassumption.
    + inversion H; subst. eapply step_host_only; eassumption.
Qed.

(** Evaluate a lowering with the internally compiled functions folded. *)
Ltac symb_code :=
  cbv -[Z.eqb Z.mul Z.gtb Z.leb Z.ltb Z.to_nat Z.of_nat Z.pow Z.sub Z.add
        Z.div Z.modulo Z.max name dtype_name keeps
        check_c_int_impl dot_2_vv_check_args dot_2_mm_make_res
        dot_2_mv_make_res dot_2_vm_make_res matmul_dppl_make_res
        array_size_checker array_argsort_make_res make_1D_res make_2D_res].

Ltac host_only_code :=
  unfold emitted; symb_code;
  try match goal with
      | |- context [match ?g ?a ?b with Ok _ => _ | Raise _ => _ end] =>
          destruct (g a b)
      end;
  repeat constructor;
  first [ apply keeps_check_c_int_impl | apply keeps_dot_2_vv_check_args
        | apply keeps_dot_2_mm_make_res | apply keeps_dot_2_mv_make_res
        | apply keeps_dot_2_vm_make_res | apply keeps_array_argsort_make_res
        | apply keeps_make_1D_res | apply keeps_make_2D_res ].

Lemma dot_dppl_host_only :
  forall context ret dt1 nd1 l1 dt2 nd2 l2,
    let sig := signature ret [Array dt1 nd1 l1; Array dt2 nd2 l2] in
    Forall host_only (emitted (dot_dppl context sig (arguments sig))).
Proof.
  intros [sz [glue|]] ret dt1 nd1 l1 dt2 nd2 l2 sig; subst sig;
    [|constructor].
  destruct nd1 as [|[|[|nd1]]], nd2 as [|[|[|nd2]]], l1, l2;
    host_only_code.
Qed.

Lemma array_argsort_host_only :
  forall context ret dt nd lay s,
    let sig := signature ret [Array dt nd lay; StringLiteral s] in
    Forall host_only (emitted (array_argsort context sig (arguments sig))).
Proof.
  intros [sz [glue|]] ret dt nd lay s sig; subst sig; [|constructor].
  destruct nd as [|[|[|nd]]]; host_only_code.
Qed.

Lemma array_cov_host_only :
  forall context ret dt nd lay,
    let sig := signature ret [Array dt nd lay] in
    Forall host_only (emitted (array_cov context sig (arguments sig))).
Proof.
  intros [sz [glue|]] ret dt nd lay sig; subst sig; [|constructor].
  destruct nd as [|[|[|nd]]]; host_only_code.
Qed.

(** np.matmul raises on every pair of array operands, whatever their
    ranks and layouts. *)
Lemma matmul_dppl_raises :
  forall context ret dt1 nd1 l1 dt2 nd2 l2,
    let sig := signature ret [Array dt1 nd1 l1; Array dt2 nd2 l2] in
    exists e code,
      matmul_dppl context sig (arguments sig) [] = (Raise e, code).
Proof.
  intros [sz [glue|]] ret dt1 nd1 l1 dt2 nd2 l2 sig; subst sig.
  - destruct nd1 as [|[|[|nd1]]], nd2 as [|[|[|nd2]]], l1, l2;
      do 2 eexists; reflexivity.
  - do 2 eexists; reflexivity.
Qed.

Lemma compile_and_call_raise context rt lowering sig inputs memory e code :
  lowering sig (arguments sig) [] = (Raise e, code) ->
  compile_and_call context rt lowering sig inputs memory
  = (Raise e, initial memory).
Proof. intros H. unfold compile_and_call. rewrite H. reflexivity. Qed.

Lemma compile_and_call_host_only context rt lowering sig inputs memory :
  Forall host_only (emitted (lowering sig (arguments sig))) ->
  usm_events
    (trace (snd (compile_and_call context rt lowering sig inputs memory)))
  = [].
Proof.
  unfold emitted, compile_and_call. intros Hcode.
  destruct (lowering sig (arguments sig) []) as [[res|e] code]; [|reflexivity].
  cbn [snd] in Hcode.
  destruct (verify code); [|reflexivity].
  destruct (run context rt inputs code (initial memory)) as [[u|e] m] eqn:E.
  - apply (run_host_only _ _ _ _ Hcode) in E.
    destruct (eval inputs m res); exact E.
  - apply (run_host_only _ _ _ _ Hcode) in E. exact E.
Qed.

(** Only the reductions reach the device's memory: the code of every
    other entry, run on any operands, allocates, copies and frees no USM. *)
Lemma only_reductions_use_usm :
  forall context rt op sig inputs memory,
    is_reduction op = false ->
    registered op sig = true ->
    usm_events
      (trace (snd (compile_and_call context rt (lower context op) sig
                     inputs memory)))
    = [].
Proof.
  intros context rt op [ret tys] inputs memory Hop Hreg.
  destruct op; try discriminate Hop; cbn [lower];
    cbn in Hreg.
  - destruct tys as [|[dt1 nd1 l1| | | |] [|[dt2 nd2 l2| | | |] [|]]];
      try discriminate Hreg.
    apply compile_and_call_host_only. apply dot_dppl_host_only.
  - destruct tys as [|[dt1 nd1 l1| | | |] [|[dt2 nd2 l2| | | |] [|]]];
      try discriminate Hreg.
    destruct (matmul_dppl_raises context ret dt1 nd1 l1 dt2 nd2 l2)
      as (e & code & H).
    rewrite (compile_and_call_raise _ _ _ _ _ _ _ _ H). reflexivity.
  - destruct tys as [|[dt nd lay| | | |] [|[| |s| |] [|]]];
      try discriminate Hreg.
    apply compile_and_call_host_only. apply array_argsort_host_only.
  - destruct tys as [|[dt nd lay| | | |] [|]]; try discriminate Hreg.
    apply compile_and_call_host_only. apply array_cov_host_only.
Qed.

Lemma released_once_no_usm t : usm_events t = [] -> released_once t.
Proof.
  induction t as [|e t IH]; [exact (fun _ => I)|].
  unfold usm_events. cbn [filter].
  destruct e; cbn [is_usm_event released_once]; intros H;
    try discriminate H; apply IH; exact H.
Qed.

(* ------------------------------------------------------------------ *)
(** ** Allocation and release of device buffers *)

(** C1. For every entry of the dispatch table, every signature it is
    registered for and operands of those types: in the events of the
    lowered call, each device allocation is followed by exactly one free
    of the buffer it returned, against the queue of the allocation, and
    the frees come before the call returns.  (The reductions allocate two
    buffers and free both; np.dot, np.argsort and np.cov allocate none;
    np.matmul raises before it emits an allocation.) *)
Theorem device_buffers_released_once :
  forall context rt op sig inputs memory,
    registered op sig = true ->
    well_typed memory (sig_args sig) inputs = true ->
    released_once
      (trace (snd (compile_and_call context rt (lower context op) sig
                     inputs memory))).
Proof.
  intros context rt op [ret tys] inputs memory Hreg Hty.
  destruct (is_reduction op) eqn:Hop.
  2:{ apply released_once_no_usm. now apply only_reductions_use_usm. }
  assert (exists dt nd lay, tys = [Array dt nd lay]) as (dt & nd & lay & ->).
  { destruct op; try discriminate Hop; cbn in Hreg;
      destruct tys as [|[dt nd lay| | | |] [|]]; try discriminate Hreg; eauto. }
  cbn [sig_args well_typed] in Hty.
  destruct inputs as [|v [|]]; try discriminate Hty;
    [|apply andb_prop in Hty; destruct Hty; discriminate].
  rewrite andb_true_r in Hty.
  destruct v as [| |[shape adt data]| | |]; try discriminate Hty.
  destruct (has_type_array _ _ _ _ _ Hty) as [bytes Hb]. cbn in Hb.
  destruct (lower context op (signature ret [Array dt nd lay])
              (arguments (signature ret [Array dt nd lay])) [])
    as [[res|e] code] eqn:Hlow.
  2:{ rewrite (compile_and_call_raise _ _ _ _ _ _ _ _ Hlow). exact I. }
  destruct (Z.eq_dec (nitems_of shape) 0) as [Hn|Hn].
  - rewrite (reduction_run_empty context rt op ret dt nd lay shape adt data
               memory res code Hop Hlow Hn).
    exact I.
  - destruct (reduction_run context rt op ret dt nd lay shape adt data memory
                bytes res code Hop Hlow Hb Hn)
      as (glue & addr & _ & _ & mach & Hrun & Htr & _).
    rewrite Hrun. cbn [snd]. rewrite Htr.
    cbn. repeat split.
Qed.

Lemma device_buffers_released_once_witness :
  released_once
    (trace (snd (compile_and_call example_context example_runtime
                   (lower example_context np_sum) sig_sum_int32
                   [VArray (mk_ndarray [3] int32 0)] [three_int32]))).
Proof.
  apply (device_buffers_released_once example_context example_runtime np_sum
           sig_sum_int32 [VArray (mk_ndarray [3] int32 0)] [three_int32]
           eq_refl eq_refl).
Defined.

(* ------------------------------------------------------------------ *)
(** ** Bytes and sizes *)

Lemma le_bytes_zero n : le_bytes n 0 = repeat 0 n.
Proof.
  unfold le_bytes. generalize 0%nat as start.
  induction n as [|n IH]; intros start; [reflexivity|].
  cbn [seq map repeat]. rewrite IH. reflexivity.
Qed.

Lemma skipn_repeat {A} (x : A) k n :
  skipn k (repeat x n) = repeat x (n - k).
Proof.
  revert n. induction k as [|k IH]; intros n.
  - now rewrite Nat.sub_0_r.
  - destruct n as [|n]; [reflexivity|]. cbn [repeat skipn]. apply IH.
Qed.

Lemma splice_zeros n src k :
  splice n src (le_bytes k 0)
  = firstn (Z.to_nat n) src ++ repeat 0 (k - Z.to_nat n)%nat.
Proof. unfold splice. now rewrite le_bytes_zero, skipn_repeat. Qed.

Lemma wrap64_small z : - 2 ^ 63 <= z < 2 ^ 63 -> wrap64 z = z.
Proof.
  intros H. unfold wrap64.
  rewrite Z.mod_small; lia.
Qed.

(** The internally compiled check of [check_c_int]. *)
Lemma check_c_int_impl_spec rt n m :
  check_c_int_impl rt [VInt n] m
  = (if n >? 2 ^ 31 - 1
     then Raise (OverflowError "array size too large to fit in C int")
     else Ok VNone, m).
Proof.
  unfold check_c_int_impl, _maxint. destruct (n >? 2 ^ 31 - 1); reflexivity.
Qed.

(** The code of a reduction: the slot of the result is zeroed before the
    backend call, and the size check is the only internally compiled
    function in it. *)
Lemma reduction_code :
  forall context op ret dt nd lay res code,
    is_reduction op = true ->
    let sig := signature ret [Array dt nd lay] in
    lower context op sig (arguments sig) [] = (Ok res, code) ->
    nth_error code 18 = Some (alloca (get_value_type ret))
    /\ nth_error code 19 = Some (store (Const ret 0) (Reg 18))
    /\ nth_error code 26
       = Some (call_ptr (Reg 25) [Reg 13; Reg 24; Nitems (Arg 0)])
    /\ filter is_internal code
       = [compile_internal array_size_checker
            (signature none [Array dt nd lay]) [Arg 0]]
    /\ nth_error code 5
       = Some (mul (Nitems (Arg 0))
                 (Const intp
                    (get_abi_sizeof context (get_value_type (Number dt))))).
Proof.
  intros [sz [glue|]] op ret dt nd lay res code Hop sig Hlow; subst sig.
  2:{ destruct op; discriminate. }
  destruct op; try discriminate Hop;
    revert Hlow; symb_code;
    (destruct (glue _ _) as [addr|e]; [|discriminate]);
    intros Hlow; inversion Hlow; subst; clear Hlow;
    repeat split; reflexivity.
Qed.

Lemma memcpys_no_usm t : usm_events t = [] -> memcpys t = [].
Proof.
  induction t as [|e t IH]; [reflexivity|].
  unfold usm_events. cbn [filter].
  destruct e; cbn [is_usm_event memcpys]; intros H;
    try discriminate H; apply IH; exact H.
Qed.

(** np.dot on two vectors of equal length above the C int range: the
    check raises before the backend is invoked. *)
Lemma dot_vector_vector_checks_c_int :
  forall context rt ret dt n da db memory res code,
    let sig := signature ret [Array dt 1 layout_C; Array dt 1 layout_C] in
    dot_dppl context sig (arguments sig) [] = (Ok res, code) ->
    n > 2 ^ 31 - 1 ->
    exists mach,
      compile_and_call context rt (dot_dppl context) sig
        [VArray (mk_ndarray [n] dt da); VArray (mk_ndarray [n] dt db)] memory
      = (Raise (OverflowError "array size too large to fit in C int"), mach)
      /\ trace mach = [].
Proof.
  intros [sz [glue|]] [q fu fa cb be bh bs] ret dt n da db memory res code sig
    Hlow Hn; subst sig; [|discriminate].
  apply Z.gt_lt, Z.gtb_lt in Hn.
  unfold compile_and_call. rewrite Hlow. symb_in Hlow.
  destruct (glue _ _) as [addr|e]; [|discriminate].
  inversion Hlow; subst; clear Hlow. cbv beta iota delta [initial].
  run_step. run_step. rewrite Z.eqb_refl. cbv beta iota.
  run_step. change (2 ^ 31 - 1) with 2147483647 in Hn.
  rewrite Hn. cbv beta iota. eexists. split; reflexivity.
Qed.

(** np.dot on two contiguous vectors is the lowering that emits the C int
    check: its internally compiled functions are the length comparison
    and then [check_c_int] on the length of the first operand, and a
    common length above 2^31 - 1 raises before the backend is invoked. *)
Lemma dot_vector_vector_emits_check :
  forall context rt ret dta dtb l1 l2 n da db da' db' memory res code,
    let sig := signature ret [Array dta 1 l1; Array dtb 1 l2] in
    layout_in_CF l1 = true -> layout_in_CF l2 = true ->
    dot_dppl context sig (arguments sig) [] = (Ok res, code) ->
    filter is_internal code
    = [ compile_internal dot_2_vv_check_args (signature none (sig_args sig))
          [Arg 0; Arg 1];
        compile_internal check_c_int_impl (signature none [intp])
          [Extract (ShapeOf (Arg 0)) 0] ]
    /\ (n > 2 ^ 31 - 1 ->
        exists mach,
          compile_and_call context rt (dot_dppl context) sig
            [VArray (mk_ndarray [n] da' da); VArray (mk_ndarray [n] db' db)]
            memory
          = (Raise (OverflowError "array size too large to fit in C int"),
             mach)
          /\ trace mach = []).
Proof.
  intros [sz [glue|]] [q fu fa cb be bh bs] ret dta dtb l1 l2 n da db da' db'
    memory res code sig Hl1 Hl2 Hlow; subst sig.
  2:{ destruct l1, l2; discriminate. }
  assert (Hcode := Hlow).
  destruct l1; try discriminate Hl1; destruct l2; try discriminate Hl2;
    symb_in Hcode;
    (destruct (glue _ _) as [addr|e] eqn:Eg; [|discriminate]);
    inversion Hcode; subst; clear Hcode;
    (split; [reflexivity|]);
    intros Hn; apply Z.gt_lt, Z.gtb_lt in Hn;
    change (2 ^ 31 - 1) with 2147483647 in Hn;
    unfold compile_and_call; rewrite Hlow; cbv beta iota delta [initial];
    do 2 run_step; rewrite Z.eqb_refl; cbv beta iota; run_step;
    rewrite Hn; eexists; split; reflexivity.
Qed.

(* ------------------------------------------------------------------ *)
(** ** The result slot of sum and prod *)

(** C10. In the sum and prod lowerings the slot of the result is
    allocated with the declared return type and zeroed before the backend
    call; the device-side result buffer is allocated with the byte size
    of the input element type, and the copy back transfers that many
    bytes.  So the value returned is those bytes of the device result
    followed by the untouched zero bytes of the slot, one for each byte by
    which the return type is wider than the input element type. *)
Theorem sum_prod_result_uses_input_itemsize :
  forall context rt op ret dt nd lay a memory res code,
    op = np_sum \/ op = np_prod ->
    let sig := signature ret [Array dt nd lay] in
    lower context op sig (arguments sig) [] = (Ok res, code) ->
    has_type memory (Array dt nd lay) (VArray a) = true ->
    nitems_of (nd_shape a) <> 0 ->
    let n := nitems_of (nd_shape a) in
    let s_in := get_abi_sizeof context (get_value_type (Number dt)) in
    let s_ret := get_abi_sizeof context (get_value_type ret) in
    (nth_error code 18 = Some (alloca (get_value_type ret))
     /\ nth_error code 19 = Some (store (Const ret 0) (Reg 18))
     /\ nth_error code 26
        = Some (call_ptr (Reg 25) [Reg 13; Reg 24; Nitems (Arg 0)]))
    /\ exists addr out_dev mach,
         compile_and_call context rt (lower context op) sig [VArray a] memory
         = (Ok (VBytes (firstn (Z.to_nat s_in) out_dev
                          ++ repeat 0 (Z.to_nat s_ret - Z.to_nat s_in)%nat)),
            mach)
         /\ trace mach
            = reduction_trace (current_queue rt) (nd_data a)
                (wrap64 (n * s_in)) s_in addr n 3.
Proof.
  intros context rt op ret dt nd lay [shape adt data] memory res code Hop sig
    Hlow Hty Hn n s_in s_ret.
  assert (Hred : is_reduction op = true) by (destruct Hop; subst; reflexivity).
  destruct (has_type_array _ _ _ _ _ Hty) as [bytes Hb]. cbn in Hb.
  split.
  - destruct (reduction_code context op ret dt nd lay res code Hred Hlow)
      as (H18 & H19 & H26 & _). auto.
  - destruct (reduction_run context rt op ret dt nd lay shape adt data memory
                bytes res code Hred Hlow Hb Hn)
      as (glue & addr & _ & _ & mach & Hrun & Htr & _).
    assert (Hsz : out_size context op ret dt = s_in)
      by (destruct Hop; subst; reflexivity).
    rewrite Hsz in Hrun, Htr. rewrite splice_zeros in Hrun.
    exists addr. eexists. exists mach. split; [exact Hrun | exact Htr].
Qed.

Lemma sum_prod_result_uses_input_itemsize_witness :
  exists addr out_dev mach,
    compile_and_call example_context example_runtime
      (lower example_context np_sum) sig_sum_int32
      [VArray (mk_ndarray [3] int32 0)] [three_int32]
    = (Ok (VBytes (firstn 4 out_dev ++ repeat 0 4)), mach)
    /\ trace mach = reduction_trace 7 0 12 4 addr 3 3.
Proof.
  assert (Hne : nitems_of [3] <> 0) by discriminate.
  apply (proj2 (sum_prod_result_uses_input_itemsize example_context
           example_runtime np_sum (Number int64) int32 1 layout_C
           (mk_ndarray [3] int32 0) [three_int32] (Reg 35)
           (emitted (array_sum example_context sig_sum_int32
                       (arguments sig_sum_int32)))
           (or_introl eq_refl) eq_refl eq_refl Hne)).
Defined.

(* ------------------------------------------------------------------ *)
(** ** The byte size of a device memcpy *)

(** C7. A reduction over an array of n elements of s bytes each issues
    two device memcpys: the operand is staged with byte size n * s, and
    one result element is copied back.  The product is formed by one
    multiply instruction, with no check on the way: the emptiness check
    is the only internally compiled function in the code.  No other entry
    issues a memcpy.  The check against the C int range is emitted by the
    lowering of np.dot on two vectors, on the common length, after the
    length comparison and before the backend call: a length above
    2^31 - 1 raises the OverflowError and the backend is not invoked.
    The check of [check_c_int] rejects exactly the sizes above 2^31 - 1. *)
Theorem memcpy_size_is_count_times_itemsize :
  forall context rt op ret dt nd lay a memory res code,
    is_reduction op = true ->
    let sig := signature ret [Array dt nd lay] in
    lower context op sig (arguments sig) [] = (Ok res, code) ->
    has_type memory (Array dt nd lay) (VArray a) = true ->
    nitems_of (nd_shape a) <> 0 ->
    let n := nitems_of (nd_shape a) in
    let s := get_abi_sizeof context (get_value_type (Number dt)) in
    - 2 ^ 63 <= n * s < 2 ^ 63 ->
    (exists v mach,
       compile_and_call context rt (lower context op) sig [VArray a] memory
       = (Ok v, mach)
       /\ memcpys (trace mach)
          = [ (VPtr (PDev 0), VPtr (PArr (nd_data a)), n * s);
              (VPtr (PCell 3), VPtr (PDev 1), out_size context op ret dt) ])
    /\ nth_error code 5 = Some (mul (Nitems (Arg 0)) (Const intp s))
    /\ filter is_internal code
       = [compile_internal array_size_checker
            (signature none [Array dt nd lay]) [Arg 0]]
    /\ (forall op' sig' inputs' memory',
          is_reduction op' = false ->
          registered op' sig' = true ->
          memcpys
            (trace (snd (compile_and_call context rt (lower context op')
                           sig' inputs' memory')))
          = [])
    /\ (forall ret' dta dtb l1 l2 n' da db da' db' memory' res' code',
          let sig' := signature ret' [Array dta 1 l1; Array dtb 1 l2] in
          layout_in_CF l1 = true -> layout_in_CF l2 = true ->
          dot_dppl context sig' (arguments sig') [] = (Ok res', code') ->
          filter is_internal code'
          = [ compile_internal dot_2_vv_check_args
                (signature none (sig_args sig')) [Arg 0; Arg 1];
              compile_internal check_c_int_impl (signature none [intp])
                [Extract (ShapeOf (Arg 0)) 0] ]
          /\ (n' > 2 ^ 31 - 1 ->
              exists mach',
                compile_and_call context rt (dot_dppl context) sig'
                  [VArray (mk_ndarray [n'] da' da);
                   VArray (mk_ndarray [n'] db' db)] memory'
                = (Raise (OverflowError
                            "array size too large to fit in C int"), mach')
                /\ trace mach' = []))
    /\ (forall x m,
          check_c_int_impl rt [VInt x] m
          = (if x >? 2 ^ 31 - 1
             then Raise (OverflowError "array size too large to fit in C int")
             else Ok VNone, m)).
Proof.
  intros context rt op ret dt nd lay [shape adt data] memory res code Hop sig
    Hlow Hty Hn n s Hrange.
  destruct (has_type_array _ _ _ _ _ Hty) as [bytes Hb]. cbn in Hb.
  destruct (reduction_code context op ret dt nd lay res code Hop Hlow)
    as (_ & _ & _ & Hint & Hmul).
  destruct (reduction_run context rt op ret dt nd lay shape adt data memory
              bytes res code Hop Hlow Hb Hn)
    as (glue & addr & _ & _ & mach & Hrun & Htr & _).
  repeat split.
  - do 2 eexists. split; [exact Hrun|]. rewrite Htr.
    unfold reduction_trace. cbn [memcpys nd_data].
    subst n s. cbn [nd_shape] in Hrange.
    rewrite (wrap64_small _ Hrange). reflexivity.
  - exact Hmul.
  - exact Hint.
  - intros op' sig' inputs' memory' Hop' Hreg'.
    apply memcpys_no_usm. now apply only_reductions_use_usm.
  - now apply (dot_vector_vector_emits_check context rt ret' dta dtb l1 l2
                 n' da db da' db' memory' res' code').
  - now apply (dot_vector_vector_emits_check context rt ret' dta dtb l1 l2
                 n' da db da' db' memory' res' code').
  - intros x m. apply check_c_int_impl_spec.
Qed.

Lemma memcpy_size_is_count_times_itemsize_witness :
  (exists v mach,
     compile_and_call example_context example_runtime
       (lower example_context np_sum) sig_sum_int32
       [VArray (mk_ndarray [3] int32 0)] [three_int32]
     = (Ok v, mach)
     /\ memcpys (trace mach)
        = [ (VPtr (PDev 0), VPtr (PArr 0), 3 * 4);
            (VPtr (PCell 3), VPtr (PDev 1), 4) ])
  /\ (exists mach,
        compile_and_call example_context example_runtime
          (dot_dppl example_context) sig_dot_vectors
          [VArray (mk_ndarray [2 ^ 31] float64 0);
           VArray (mk_ndarray [2 ^ 31] float64 1)] memory_two_vectors
        = (Raise (OverflowError "array size too large to fit in C int"), mach)
        /\ trace mach = []).
Proof.
  assert (Hne : nitems_of [3] <> 0) by discriminate.
  assert (Hrange : - 2 ^ 63 <= nitems_of [3] * 4 < 2 ^ 63)
    by (split; [discriminate | reflexivity]).
  destruct (memcpy_size_is_count_times_itemsize example_context
              example_runtime np_sum (Number int64) int32 1 layout_C
              (mk_ndarray [3] int32 0) [three_int32] (Reg 35)
              (emitted (array_sum example_context sig_sum_int32
                          (arguments sig_sum_int32)))
              eq_refl eq_refl eq_refl Hne Hrange)
    as (Hcopy & _ & _ & _ & Hcheck & _).
  split; [exact Hcopy|].
  apply (proj2 (Hcheck (Number float64) float64 float64 layout_C layout_C
                  (2 ^ 31) 0%nat 1%nat float64 float64 memory_two_vectors
                  (Reg 8)
                  (emitted (dot_dppl example_context sig_dot_vectors
                              (arguments sig_dot_vectors)))
                  eq_refl eq_refl eq_refl)).
  reflexivity.
Defined.

(* ------------------------------------------------------------------ *)
(** ** Shape validation of the binary operations *)

(** np.dot on two matrices checks the inner dimensions in [make_res],
    before [np.empty]: on a mismatch nothing has been allocated. *)
Lemma dot_matrix_matrix_validates_first :
  forall context rt ret dt m n n' k da db memory res code,
    let sig := signature ret [Array dt 2 layout_C; Array dt 2 layout_C] in
    dot_dppl context sig (arguments sig) [] = (Ok res, code) ->
    n' <> n ->
    compile_and_call context rt (dot_dppl context) sig
      [VArray (mk_ndarray [m; n] dt da); VArray (mk_ndarray [n'; k] dt db)]
      memory
    = (Raise (ValueError "incompatible array sizes for np.dot(a, b)"),
       initial memory).
Proof.
  intros [sz [glue|]] rt ret dt m n n' k da db memory res code sig Hlow Hn;
    subst sig; [|discriminate].
  apply Z.eqb_neq in Hn.
  unfold compile_and_call. rewrite Hlow. symb_in Hlow.
  destruct (glue _ _) as [addr|e]; [|discriminate].
  inversion Hlow; subst; clear Hlow. cbv beta iota delta [initial].
  run_step. rewrite Hn. reflexivity.
Qed.

(** C3. np.matmul on a 2x3 and a 4x5 matrix, whose inner dimensions
    differ, does not signal a shape mismatch: the lowering raises the
    NameError of the unbound [sycl_queue], and the code emitted up to
    there contains no internally compiled shape check. *)
Theorem matmul_shape_mismatch_not_signalled :
  well_typed memory_2x3_4x5 (sig_args sig_matmul_matrices)
    [matrix_2x3; matrix_4x5] = true
  /\ compile_and_call example_context example_runtime
       (matmul_dppl example_context) sig_matmul_matrices
       [matrix_2x3; matrix_4x5] memory_2x3_4x5
     = (Raise (NameError "sycl_queue"), initial memory_2x3_4x5)
  /\ existsb is_internal
       (emitted (matmul_dppl example_context sig_matmul_matrices
                   (arguments sig_matmul_matrices)))
     = false.
Proof. repeat split. Qed.

(* ------------------------------------------------------------------ *)
(** ** make_contiguous *)

Lemma make_contiguous_loop_spec tys vals b :
  exists newtys newargs copies,
    make_contiguous_loop tys vals b
    = (Ok (newtys, newargs, copies), b ++ copy_instrs tys vals)
    /\ map snd copies
       = map Reg (seq (List.length b) (List.length (copy_instrs tys vals))).
Proof.
  revert vals b. induction tys as [|ty tys IH]; intros vals b.
  - exists [], [], []. cbn. rewrite app_nil_r. auto.
  - destruct vals as [|val vals].
    + exists [], [], []. cbn. rewrite app_nil_r. auto.
    + cbn [make_contiguous_loop copy_instrs].
      destruct ty as [dt nd lay| | | |];
        try (destruct (IH vals b) as (newtys & newargs & copies & H & Hc);
             unfold bind at 1; cbn [ret]; unfold bind at 1; rewrite H;
             cbn [ret app]; do 3 eexists; split; [reflexivity | exact Hc]).
      destruct (layout_in_CF lay).
      * destruct (IH vals b) as (newtys & newargs & copies & H & Hc).
        unfold bind at 1; cbn [ret]; unfold bind at 1; rewrite H.
        cbn [ret app]. do 3 eexists. split; [reflexivity | exact Hc].
      * destruct (IH vals (b ++ [array_copy
                    (signature (copy_layout_C (Array dt nd lay))
                       [Array dt nd lay]) val]))
          as (newtys & newargs & copies & H & Hc).
        unfold bind at 1. unfold bind at 1. unfold emit. cbn [ret].
        unfold bind at 1. rewrite H. cbn [ret].
        do 3 eexists. split.
        -- rewrite <- app_assoc. reflexivity.
        -- cbn [app map snd List.length seq]. f_equal.
           rewrite Hc. rewrite length_app. cbn [List.length].
           rewrite Nat.add_1_r. reflexivity.
Qed.

Lemma decref_all_spec copies b :
  decref_all copies b = (Ok tt, b ++ map decref_of copies).
Proof.
  revert b. induction copies as [|[ty val] copies IH]; intros b.
  - cbn. now rewrite app_nil_r.
  - cbn [decref_all map]. unfold bind, emit. rewrite IH.
    rewrite <- app_assoc. reflexivity.
Qed.

(** What [make_contiguous] emits around the body of its [with]. *)
Lemma make_contiguous_spec :
  forall R (body : Signature -> list operand -> M R) sig args b,
    exists newtys newargs copies,
      make_contiguous_loop (sig_args sig) args b
      = (Ok (newtys, newargs, copies), b ++ copy_instrs (sig_args sig) args)
      /\ map snd copies
         = map Reg (seq (List.length b)
                      (List.length (copy_instrs (sig_args sig) args)))
      /\ make_contiguous sig args body b
         = match body (signature (return_type sig) newtys) newargs
                   (b ++ copy_instrs (sig_args sig) args) with
           | (Ok r, b') => (Ok r, b' ++ map decref_of copies)
           | (Raise e, b') => (Raise e, b')
           end.
Proof.
  intros R body sig args b.
  destruct (make_contiguous_loop_spec (sig_args sig) args b)
    as (newtys & newargs & copies & Hloop & Hc).
  exists newtys, newargs, copies. repeat split; [exact Hloop | exact Hc |].
  unfold make_contiguous, bind at 1. rewrite Hloop.
  destruct (body _ _ _) as [[r|e] b']; [|reflexivity].
  rewrite decref_all_spec. reflexivity.
Qed.

Lemma block_at_add_block memory x i bytes :
  block_at memory i = Some bytes ->
  block_at (add_block memory x) i = Some bytes.
Proof.
  unfold block_at, add_block. intros H. rewrite nth_error_app1; [exact H|].
  apply nth_error_Some. congruence.
Qed.

(** Evaluate the np.dot lowering in place. *)
Ltac lower_dot :=
  match goal with
  | |- context [dot_dppl ?c ?s ?a ?b] =>
      let t := eval cbv -[Z.eqb Z.mul Z.gtb Z.leb Z.ltb Z.to_nat Z.of_nat
                          Z.pow Z.sub Z.add Z.div Z.modulo Z.max name
                          dtype_name check_c_int_impl dot_2_vv_check_args
                          dot_2_mm_make_res dot_2_mv_make_res
                          dot_2_vm_make_res]
               in (dot_dppl c s a b) in
      change (dot_dppl c s a b) with t
  end.

(** Run to the end, splitting on every test the operands decide. *)
Ltac settle Hb1 Hb2 :=
  repeat first
    [ run_step
    | rewrite Hb1 | rewrite Hb2
    | rewrite (block_at_add_block _ _ _ _ Hb1)
    | rewrite (block_at_add_block _ _ _ _ Hb2)
    | match goal with
      | |- context [if ?c then _ else _] => destruct c eqn:?
      end
    | progress cbv beta iota ].

(** A call of np.dot that returns has released each copy it made. *)
Lemma dot_dppl_releases_copies_on_return :
  forall context rt ret dt1 nd1 l1 dt2 nd2 l2 a1 a2 memory v mach,
    let sig := signature ret [Array dt1 nd1 l1; Array dt2 nd2 l2] in
    well_typed memory (sig_args sig) [VArray a1; VArray a2] = true ->
    compile_and_call context rt (dot_dppl context) sig
      [VArray a1; VArray a2] memory
    = (Ok v, mach) ->
    released_blocks (trace mach) = copies_made (trace mach).
Proof.
  intros [sz [glue|]] [q fu fa cb be bh bs] ret dt1 nd1 l1 dt2 nd2 l2
    [s1 d1 b1] [s2 d2 b2] memory v mach sig Hty; subst sig;
    [|discriminate].
  cbn [sig_args well_typed] in Hty. rewrite andb_true_r in Hty.
  apply andb_prop in Hty. destruct Hty as [H1 H2].
  destruct (has_type_array _ _ _ _ _ H1) as [bytes1 Hb1].
  destruct (has_type_array _ _ _ _ _ H2) as [bytes2 Hb2].
  cbn [nd_data] in Hb1, Hb2. cbn in H1, H2.
  repeat (apply andb_prop in H1; destruct H1 as [H1 ?]).
  repeat (apply andb_prop in H2; destruct H2 as [H2 ?]).
  unfold compile_and_call.
  destruct nd1 as [|[|[|nd1]]], nd2 as [|[|[|nd2]]];
    try (destruct l1, l2; discriminate).
  all: destruct s1 as [|x1 [|x2 [|x3 s1]]]; try discriminate.
  all: destruct s2 as [|y1 [|y2 [|y3 s2]]]; try discriminate.
  all: destruct l1, l2.
  all: lower_dot.
  all: try match goal with
           | |- context [match ?g ?a ?b with Ok _ => _ | Raise _ => _ end] =>
               destruct (g a b)
           end;
       cbv beta iota delta [initial]; try discriminate.
  all: settle Hb1 Hb2.
  all: try discriminate.
  all: intros E; inversion E; subst; reflexivity.
Qed.

(** C2, as the code has it.  [make_contiguous] emits one copy for each
    array operand that is not contiguous and hands the body the
    substituted signature and operands.  When the body of the [with]
    statement completes normally, one decref per copy is emitted after
    the body's code; when the body raises, the exception passes through
    with the code as the body left it: no decref is emitted.  At run
    time, a call of np.dot (the one lowering through [make_contiguous]
    that emits code) that returns has released each copy it made, once. *)
Theorem make_contiguous_releases_on_normal_exit :
  (forall R (body : Signature -> list operand -> M R) sig args b,
     exists newtys newargs copies,
       make_contiguous_loop (sig_args sig) args b
       = (Ok (newtys, newargs, copies), b ++ copy_instrs (sig_args sig) args)
       /\ map snd copies
          = map Reg (seq (List.length b)
                       (List.length (copy_instrs (sig_args sig) args)))
       /\ make_contiguous sig args body b
          = match body (signature (return_type sig) newtys) newargs
                    (b ++ copy_instrs (sig_args sig) args) with
            | (Ok r, b') => (Ok r, b' ++ map decref_of copies)
            | (Raise e, b') => (Raise e, b')
            end)
  /\ (forall context rt ret dt1 nd1 l1 dt2 nd2 l2 a1 a2 memory v mach,
        let sig := signature ret [Array dt1 nd1 l1; Array dt2 nd2 l2] in
        well_typed memory (sig_args sig) [VArray a1; VArray a2] = true ->
        compile_and_call context rt (dot_dppl context) sig
          [VArray a1; VArray a2] memory
        = (Ok v, mach) ->
        released_blocks (trace mach) = copies_made (trace mach)).
Proof.
  split.
  - apply make_contiguous_spec.
  - apply dot_dppl_releases_copies_on_return.
Qed.

(** Two strided matrices of matching shapes: both copies are released. *)
Lemma make_contiguous_releases_on_normal_exit_witness :
  fst (compile_and_call example_context example_runtime
         (dot_dppl example_context) sig_dot_strided_matrices
         [matrix_2x3; matrix_3x4] memory_2x3_3x4)
  = Ok (VArray (mk_ndarray [2; 4] float64 4))
  /\ copies_made
       (trace (snd (compile_and_call example_context example_runtime
                      (dot_dppl example_context) sig_dot_strided_matrices
                      [matrix_2x3; matrix_3x4] memory_2x3_3x4)))
     = [2; 3]%nat
  /\ released_blocks
       (trace (snd (compile_and_call example_context example_runtime
                      (dot_dppl example_context) sig_dot_strided_matrices
                      [matrix_2x3; matrix_3x4] memory_2x3_3x4)))
     = copies_made
         (trace (snd (compile_and_call example_context example_runtime
                        (dot_dppl example_context) sig_dot_strided_matrices
                        [matrix_2x3; matrix_3x4] memory_2x3_3x4))).
Proof.
  assert (Hf : fst (compile_and_call example_context example_runtime
                      (dot_dppl example_context) sig_dot_strided_matrices
                      [matrix_2x3; matrix_3x4] memory_2x3_3x4)
               = Ok (VArray (mk_ndarray [2; 4] float64 4)))
    by (vm_compute; reflexivity).
  split; [exact Hf|]. split; [vm_compute; reflexivity|].
  apply (proj2 make_contiguous_releases_on_normal_exit example_context
           example_runtime (Array float64 2 layout_C)
           float64 2%nat layout_A float64 2%nat layout_A
           (mk_ndarray [2; 3] float64 0) (mk_ndarray [3; 4] float64 1)
           memory_2x3_3x4 (VArray (mk_ndarray [2; 4] float64 4)) _ eq_refl).
  rewrite <- Hf. apply surjective_pairing.
Defined.

(** One strided vector operand to np.matmul: the lowering copies it,
    raises on the rank, and emits no decref.  Two strided matrices of
    mismatched shapes to np.dot: both are copied, the shape check raises
    at run time, and no reference is released. *)
Lemma make_contiguous_leaks_on_error :
  (exists code,
     matmul_dppl example_context sig_matmul_strided_vectors
       (arguments sig_matmul_strided_vectors) []
     = (Raise (ValueError "array dimension has to be 2 for np.matmul(a, b)"),
        code)
     /\ filter is_array_copy code
        = [array_copy (signature (Array float64 1 layout_C)
                         [Array float64 1 layout_A]) (Arg 0)]
     /\ filter is_decref code = [])
  /\ (exists mach,
        compile_and_call example_context example_runtime
          (dot_dppl example_context) sig_dot_strided_matrices
          [matrix_2x3; matrix_4x5] memory_2x3_4x5
        = (Raise (ValueError "incompatible array sizes for np.dot(a, b)"),
           mach)
        /\ copies_made (trace mach) = [2; 3]%nat
        /\ released_blocks (trace mach) = []).
Proof.
  split; eexists; repeat split.
Qed.

(* ------------------------------------------------------------------ *)
(** * Further properties of the lowering module *)

(** ** The dpNP gate *)

(** X1. When dpNP cannot be imported, every entry of the dispatch table
    raises the ImportError that names its operation, for every signature
    and operands, and emits nothing. *)
Theorem without_dpnp_every_entry_raises :
  forall sizeof op sig args b,
    lower {| get_abi_sizeof := sizeof; dpnp_fptr_interface := None |}
      op sig args b
    = (Raise (ImportError ("dpNP is needed to call np." ++ np_name op)%string),
       b).
Proof. intros sizeof op sig args b. destruct op; reflexivity. Qed.

(* ------------------------------------------------------------------ *)
(** ** Rank dispatch of np.dot and np.matmul *)

(** X2. np.dot on two arrays whose rank pair is none of (2,2), (2,1),
    (1,2), (1,1) fails its assertion while it is lowered; by then only
    the copies of the strided operands have been emitted, and no decref. *)
Theorem dot_dppl_unsupported_ranks :
  forall sizeof glue ret dt1 nd1 l1 dt2 nd2 l2,
    let context := {| get_abi_sizeof := sizeof;
                      dpnp_fptr_interface := Some glue |} in
    let sig := signature ret [Array dt1 nd1 l1; Array dt2 nd2 l2] in
    dot_ranks nd1 nd2 = false ->
    dot_dppl context sig (arguments sig) []
    = (Raise AssertionError, copy_instrs (sig_args sig) (arguments sig)).
Proof.
  intros sizeof glue ret dt1 nd1 l1 dt2 nd2 l2 context sig H;
    subst context sig.
  destruct nd1 as [|[|[|nd1]]], nd2 as [|[|[|nd2]]]; try discriminate H;
    destruct l1, l2; reflexivity.
Qed.

Lemma dot_dppl_unsupported_ranks_witness :
  dot_dppl example_context
    (signature (Array float64 1 layout_C)
       [Array float64 3 layout_A; Array float64 1 layout_C])
    [Arg 0; Arg 1] []
  = (Raise AssertionError,
     [array_copy (signature (Array float64 3 layout_C)
                    [Array float64 3 layout_A]) (Arg 0)]).
Proof.
  apply (dot_dppl_unsupported_ranks lp64_sizeof example_get_dpnp_fn_ptr
           (Array float64 1 layout_C) float64 3%nat layout_A
           float64 1%nat layout_C eq_refl).
Defined.

(** X3. np.matmul on two arrays that are not both of rank 2 raises the
    ValueError on the array dimension while it is lowered. *)
Theorem matmul_dppl_requires_rank_2 :
  forall sizeof glue ret dt1 nd1 l1 dt2 nd2 l2,
    let context := {| get_abi_sizeof := sizeof;
                      dpnp_fptr_interface := Some glue |} in
    let sig := signature ret [Array dt1 nd1 l1; Array dt2 nd2 l2] in
    nat_list_eqb [nd1; nd2] [2; 2]%nat = false ->
    matmul_dppl context sig (arguments sig) []
    = (Raise (ValueError "array dimension has to be 2 for np.matmul(a, b)"),
       copy_instrs (sig_args sig) (arguments sig)).
Proof.
  intros sizeof glue ret dt1 nd1 l1 dt2 nd2 l2 context sig H;
    subst context sig.
  destruct nd1 as [|[|[|nd1]]], nd2 as [|[|[|nd2]]]; try discriminate H;
    destruct l1, l2; reflexivity.
Qed.

Lemma matmul_dppl_requires_rank_2_witness :
  matmul_dppl example_context
    (signature (Array float64 1 layout_C)
       [Array float64 2 layout_C; Array float64 1 layout_C])
    [Arg 0; Arg 1] []
  = (Raise (ValueError "array dimension has to be 2 for np.matmul(a, b)"),
     []).
Proof.
  apply (matmul_dppl_requires_rank_2 lp64_sizeof example_get_dpnp_fn_ptr
           (Array float64 1 layout_C) float64 2%nat layout_C
           float64 1%nat layout_C eq_refl).
Defined.

(* ------------------------------------------------------------------ *)
(** ** np.dot on a vector and a matrix *)

(** The lowering passes six arguments to a function type of five
    parameters: [builder.call] accepts them, the five it looks at having
    the declared types, and LLVM rejects the module, so nothing runs. *)
Lemma dot_vector_matrix_rejected_by_llvm :
  forall sizeof glue rt ret dta dtb l1 l2 addr inputs memory,
    let context := {| get_abi_sizeof := sizeof;
                      dpnp_fptr_interface := Some glue |} in
    let sig := signature ret [Array dta 1 l1; Array dtb 2 l2] in
    glue "dpnp_matmul" [dtype_name dta; name ret] = Ok addr ->
    exists res code,
      dot_dppl context sig (arguments sig) [] = (Ok res, code)
      /\ verify code = false
      /\ compile_and_call context rt (dot_dppl context) sig inputs memory
         = (Raise (RuntimeError "LLVM IR parsing error"), initial memory).
Proof.
  intros sizeof glue rt ret dta dtb l1 l2 addr inputs memory context sig Hg;
    subst context sig.
  change (dtype_name dta) with (name (Number dta)) in Hg.
  unfold compile_and_call.
  destruct l1, l2; lower_dot; rewrite Hg; do 2 eexists;
    (split; [reflexivity|]); split; reflexivity.
Qed.

(* ------------------------------------------------------------------ *)
(** ** Host memory after a native call *)

Lemma nth_error_mapi_from {A B} (f : nat -> A -> B) k l i :
  nth_error (mapi_from f k l) i = option_map (f (k + i)%nat) (nth_error l i).
Proof.
  revert k i. induction l as [|x l IH]; intros k [|i]; cbn; try reflexivity.
  - now rewrite Nat.add_0_r.
  - rewrite IH. now rewrite Nat.add_succ_r.
Qed.

(** A host block after a native call. *)
Lemma block_at_host_after rt addr params old i bytes :
  block_at old i = Some bytes ->
  block_at (host_after rt addr params old) i
  = Some (if pointed (PArr i) params
          then backend_host rt addr params old i else bytes).
Proof.
  unfold block_at, host_after. intros H.
  rewrite nth_error_mapi_from, H. reflexivity.
Qed.

Lemma block_at_new_block memory bytes :
  block_at (add_block memory bytes) (block_count memory) = Some bytes.
Proof.
  unfold block_at, add_block, block_count.
  rewrite nth_error_app2, Nat.sub_diag; [reflexivity | apply Nat.le_refl].
Qed.

(* ------------------------------------------------------------------ *)
(** ** np.dot on contiguous operands *)

(** X4. np.dot on two contiguous matrices (m,n) and (n',k): when n' = n
    the call allocates the (m,k) result with the dtype of the first
    operand and invokes the symbol resolved for "dpnp_matmul" once, on
    the two operands, the result and m, n, k, and the array it returns
    holds what the backend left in the result block; when n' differs
    from n it raises the ValueError before anything is allocated or
    invoked. *)
Theorem dot_matrix_matrix :
  forall context rt ret dta dtb l1 l2 m n n' k da db da' db' memory res code,
    let sig := signature ret [Array dta 2 l1; Array dtb 2 l2] in
    layout_in_CF l1 = true -> layout_in_CF l2 = true ->
    dot_dppl context sig (arguments sig) [] = (Ok res, code) ->
    let a := VArray (mk_ndarray [m; n] da' da) in
    let b := VArray (mk_ndarray [n'; k] db' db) in
    (n' = n ->
       exists glue addr mach,
         dpnp_fptr_interface context = Some glue
         /\ glue "dpnp_matmul" [dtype_name dta; name ret] = Ok addr
         /\ compile_and_call context rt (dot_dppl context) sig [a; b] memory
            = (Ok (VArray (mk_ndarray [m; k] da' (block_count memory))), mach)
         /\ block_at (blocks mach) (block_count memory)
            = Some (backend_host rt addr
                      [VPtr (PArr da); VPtr (PArr db);
                       VPtr (PArr (block_count memory));
                       VInt m; VInt n; VInt k]
                      (add_block memory (fresh_array rt [m; k] da'))
                      (block_count memory))
         /\ trace mach
            = [ EvEmpty (block_count memory) [m; k] da';
                EvInvoke addr
                  [VPtr (PArr da); VPtr (PArr db);
                   VPtr (PArr (block_count memory));
                   VInt m; VInt n; VInt k] ])
    /\ (n' <> n ->
        compile_and_call context rt (dot_dppl context) sig [a; b] memory
        = (Raise (ValueError "incompatible array sizes for np.dot(a, b)"),
           initial memory)).
Proof.
  intros [sz [glue|]] [q fu fa cb be bh bs] ret dta dtb l1 l2 m n n' k da db
    da' db' memory res code sig Hl1 Hl2 Hlow a b; subst sig a b.
  2:{ destruct l1, l2; discriminate. }
  assert (Hcode := Hlow).
  destruct l1; try discriminate Hl1; destruct l2; try discriminate Hl2;
    symb_in Hcode; change (dtype_name dta) with (name (Number dta));
    (destruct (glue _ _) as [addr|e] eqn:Eg; [|discriminate]);
    inversion Hcode; subst; clear Hcode.
  all: split;
    [ intros ->; exists glue, addr; eexists;
      split; [reflexivity|]; split; [exact Eg|]
    | intros Hn; apply Z.eqb_neq in Hn ];
    unfold compile_and_call; rewrite Hlow; cbv beta iota delta [initial].
  all: try (run_step; rewrite Hn; reflexivity).
  all: run_step; rewrite Z.eqb_refl; cbv beta iota; repeat run_step;
    (split; [reflexivity|]); (split; [|reflexivity]); cbn [blocks];
    rewrite (block_at_host_after _ _ _ _ _ _ (block_at_new_block _ _));
    unfold pointed; cbn [existsb ptr_eqb];
    rewrite Nat.eqb_refl, ?orb_true_r; reflexivity.
Qed.

Lemma dot_matrix_matrix_witness :
  exists glue addr mach,
    dpnp_fptr_interface example_context = Some glue
    /\ glue "dpnp_matmul" [dtype_name float64; name (Array float64 2 layout_C)]
       = Ok addr
    /\ compile_and_call example_context example_runtime
         (dot_dppl example_context) sig_dot_matrices
         [VArray (mk_ndarray [2; 3] float64 0);
          VArray (mk_ndarray [3; 4] float64 1)] memory_2x3_3x4
       = (Ok (VArray (mk_ndarray [2; 4] float64
                        (block_count memory_2x3_3x4))), mach)
    /\ block_at (blocks mach) (block_count memory_2x3_3x4)
       = Some (backend_host example_runtime addr
                 [VPtr (PArr 0); VPtr (PArr 1);
                  VPtr (PArr (block_count memory_2x3_3x4));
                  VInt 2; VInt 3; VInt 4]
                 (add_block memory_2x3_3x4
                    (fresh_array example_runtime [2; 4] float64))
                 (block_count memory_2x3_3x4))
    /\ trace mach
       = [ EvEmpty (block_count memory_2x3_3x4) [2; 4] float64;
           EvInvoke addr
             [VPtr (PArr 0); VPtr (PArr 1);
              VPtr (PArr (block_count memory_2x3_3x4));
              VInt 2; VInt 3; VInt 4] ].
Proof.
  apply (proj1 (dot_matrix_matrix example_context example_runtime
           (Array float64 2 layout_C) float64 float64 layout_C layout_C
           2 3 3 4 0%nat 1%nat float64 float64 memory_2x3_3x4 (Reg 0)
           (emitted (dot_dppl example_context sig_dot_matrices
                       (arguments sig_dot_matrices)))
           eq_refl eq_refl eq_refl) eq_refl).
Defined.

(** X5. np.dot on two contiguous vectors resolves "dpnp_dot" with the two
    dtype names and the name of the return type, and returns a value of
    the return type.  Lengths that differ raise the ValueError, equal
    lengths above the C int range the OverflowError, both before the
    backend is reached; otherwise the symbol is invoked once on the two
    operands, the result slot and the length, and the value returned is
    what the backend left in the result slot. *)
Theorem dot_vector_vector :
  forall context rt ret dta dtb l1 l2 m n da db da' db' memory res code,
    let sig := signature ret [Array dta 1 l1; Array dtb 1 l2] in
    layout_in_CF l1 = true -> layout_in_CF l2 = true ->
    dot_dppl context sig (arguments sig) [] = (Ok res, code) ->
    let a := VArray (mk_ndarray [m] da' da) in
    let b := VArray (mk_ndarray [n] db' db) in
    exists glue addr,
      dpnp_fptr_interface context = Some glue
      /\ glue "dpnp_dot" [dtype_name dta; dtype_name dtb; name ret] = Ok addr
      /\ result_type code res = Some (get_value_type ret)
      /\ (m <> n ->
          exists mach,
            compile_and_call context rt (dot_dppl context) sig [a; b] memory
            = (Raise (ValueError
                 "incompatible array sizes for np.dot(a, b) (vector * vector)"),
               mach)
            /\ trace mach = [])
      /\ (m = n -> m > 2 ^ 31 - 1 ->
          exists mach,
            compile_and_call context rt (dot_dppl context) sig [a; b] memory
            = (Raise (OverflowError "array size too large to fit in C int"),
               mach)
            /\ trace mach = [])
      /\ (m = n -> m <= 2 ^ 31 - 1 ->
          exists mach,
            compile_and_call context rt (dot_dppl context) sig [a; b] memory
            = (Ok (backend_slot rt addr
                     [VPtr (PArr da); VPtr (PArr db); VPtr (PCell 0); VInt m]
                     memory 0%nat), mach)
            /\ trace mach
               = [EvInvoke addr
                    [VPtr (PArr da); VPtr (PArr db); VPtr (PCell 0); VInt m]]).
Proof.
  intros [sz [glue|]] [q fu fa cb be bh bs] ret dta dtb l1 l2 m n da db da' db'
    memory res code sig Hl1 Hl2 Hlow a b; subst sig a b.
  2:{ destruct l1, l2; discriminate. }
  assert (Hcode := Hlow). exists glue.
  destruct l1; try discriminate Hl1; destruct l2; try discriminate Hl2;
    symb_in Hcode; change (dtype_name dta) with (name (Number dta));
    change (dtype_name dtb) with (name (Number dtb));
    (destruct (glue _ _) as [addr|e] eqn:Eg; [|discriminate]);
    inversion Hcode; subst; clear Hcode; exists addr;
    (split; [reflexivity|]); (split; [first [exact Eg | reflexivity]|]);
    (split; [destruct ret; reflexivity|]);
    unfold compile_and_call; rewrite Hlow; cbv beta iota delta [initial].
  all: split; [|split].
  all: try (intros Hn; apply Z.eqb_neq in Hn; do 2 run_step; rewrite Hn;
            eexists; split; reflexivity).
  all: try (intros -> Hn; apply Z.gt_lt, Z.gtb_lt in Hn;
            change (2 ^ 31 - 1) with 2147483647 in Hn;
            do 2 run_step; rewrite Z.eqb_refl; cbv beta iota; run_step;
            rewrite Hn; eexists; split; reflexivity).
  all: intros -> Hn;
    assert (Hle : (n >? 2147483647) = false)
      by (change (2 ^ 31 - 1) with 2147483647 in Hn;
          destruct (n >? 2147483647) eqn:E;
          [apply Z.gtb_lt in E; lia | reflexivity]);
    do 2 run_step; rewrite Z.eqb_refl; cbv beta iota; run_step; rewrite Hle;
    cbv beta iota; repeat run_step; eexists; split; reflexivity.
Qed.

Lemma dot_vector_vector_witness :
  exists glue addr,
    dpnp_fptr_interface example_context = Some glue
    /\ glue "dpnp_dot"
         [dtype_name float64; dtype_name float64; name (Number float64)]
       = Ok addr
    /\ exists mach,
        compile_and_call example_context example_runtime
          (dot_dppl example_context) sig_dot_vectors
          [vector_of_3 0; vector_of_3 1] memory_two_vectors
        = (Ok (backend_slot example_runtime addr
                 [VPtr (PArr 0); VPtr (PArr 1); VPtr (PCell 0); VInt 3]
                 memory_two_vectors 0%nat), mach)
        /\ trace mach
           = [EvInvoke addr
                [VPtr (PArr 0); VPtr (PArr 1); VPtr (PCell 0); VInt 3]].
Proof.
  destruct (dot_vector_vector example_context example_runtime
              (Number float64) float64 float64 layout_C layout_C 3 3
              0%nat 1%nat float64 float64 memory_two_vectors (Reg 8)
              (emitted (dot_dppl example_context sig_dot_vectors
                          (arguments sig_dot_vectors)))
              eq_refl eq_refl eq_refl)
    as (glue & addr & Hg & Ha & _ & _ & _ & Hrun).
  exists glue, addr. split; [exact Hg|]. split; [exact Ha|].
  apply Hrun; [reflexivity | discriminate].
Defined.

(* ------------------------------------------------------------------ *)
(** ** np.argsort *)

(** X6. np.argsort on a vector of n items allocates np.arange(n) as the
    result, of dtype int64 in a fresh block, and invokes the symbol
    resolved for "dpnp_argsort" once, on the operand, the result and n;
    the operand is handed over as it is, whatever its layout.  The array
    it returns holds what the backend left in that block. *)
Theorem array_argsort_rank_1 :
  forall context rt ret dt lay s n adt data memory res code,
    let sig := signature ret [Array dt 1 lay; StringLiteral s] in
    array_argsort context sig (arguments sig) [] = (Ok res, code) ->
    0 <= n ->
    let out := block_count memory in
    exists glue addr mach,
      dpnp_fptr_interface context = Some glue
      /\ glue "dpnp_argsort" [dtype_name dt; name ret] = Ok addr
      /\ compile_and_call context rt (array_argsort context) sig
           [VArray (mk_ndarray [n] adt data); VNone] memory
         = (Ok (VArray (mk_ndarray [n] int64 out)), mach)
      /\ block_at (blocks mach) out
         = Some (backend_host rt addr
                   [VPtr (PArr data); VPtr (PArr out); VInt n]
                   (add_block memory (arange_bytes n)) out)
      /\ trace mach
         = [ EvEmpty out [n] int64;
             EvInvoke addr [VPtr (PArr data); VPtr (PArr out); VInt n] ].
Proof.
  intros [sz [glue|]] [q fu fa cb be bh bs] ret dt lay s n adt data memory
    res code sig Hlow Hn out; subst sig out; [|discriminate].
  assert (Hcode := Hlow). exists glue.
  symb_in Hcode. change (dtype_name dt) with (name (Number dt)).
  destruct (glue _ _) as [addr|e] eqn:Eg; [|discriminate].
  inversion Hcode; subst; clear Hcode. exists addr.
  unfold compile_and_call; rewrite Hlow; cbv beta iota delta [initial].
  repeat run_step. unfold nitems_of. cbn [fold_right].
  rewrite Z.mul_1_r, (Z.max_r 0 n Hn).
  eexists. split; [reflexivity|]. split; [first [exact Eg | reflexivity]|].
  split; [reflexivity|]. split; [|reflexivity].
  cbn [blocks].
  rewrite (block_at_host_after _ _ _ _ _ _ (block_at_new_block _ _)).
  unfold pointed. cbn [existsb ptr_eqb]. rewrite Nat.eqb_refl, orb_true_r.
  reflexivity.
Qed.

Lemma array_argsort_rank_1_witness :
  exists glue addr mach,
    dpnp_fptr_interface example_context = Some glue
    /\ glue "dpnp_argsort"
         [dtype_name float64; name (Array int64 1 layout_C)] = Ok addr
    /\ compile_and_call example_context example_runtime
         (array_argsort example_context) sig_argsort
         [vector_of_3 0; VNone] memory_two_vectors
       = (Ok (VArray (mk_ndarray [3] int64
                        (block_count memory_two_vectors))), mach)
    /\ block_at (blocks mach) (block_count memory_two_vectors)
       = Some (backend_host example_runtime addr
                 [VPtr (PArr 0); VPtr (PArr (block_count memory_two_vectors));
                  VInt 3]
                 (add_block memory_two_vectors (arange_bytes 3))
                 (block_count memory_two_vectors))
    /\ trace mach
       = [ EvEmpty (block_count memory_two_vectors) [3] int64;
           EvInvoke addr
             [VPtr (PArr 0); VPtr (PArr (block_count memory_two_vectors));
              VInt 3] ].
Proof.
  apply (array_argsort_rank_1 example_context example_runtime
           (Array int64 1 layout_C) float64 layout_C "quicksort" 3
           float64 0%nat memory_two_vectors (Reg 0)
           (emitted (array_argsort example_context sig_argsort
                       (arguments sig_argsort)))
           eq_refl).
  discriminate.
Defined.

(** X7. np.argsort on an array whose rank is not 1 raises a ValueError
    while it is lowered, and emits nothing. *)
Theorem array_argsort_other_rank :
  forall sizeof glue ret dt nd lay s,
    let context := {| get_abi_sizeof := sizeof;
                      dpnp_fptr_interface := Some glue |} in
    let sig := signature ret [Array dt nd lay; StringLiteral s] in
    nd <> 1%nat ->
    exists msg,
      array_argsort context sig (arguments sig) []
      = (Raise (ValueError msg), []).
Proof.
  intros sizeof glue ret dt nd lay s context sig H; subst context sig.
  destruct nd as [|[|nd]]; [|congruence|]; eexists; reflexivity.
Qed.

Lemma array_argsort_other_rank_witness :
  exists msg,
    array_argsort example_context
      (signature (Array int64 2 layout_C)
         [Array float64 2 layout_C; StringLiteral "quicksort"])
      [Arg 0; Arg 1] []
    = (Raise (ValueError msg), []).
Proof.
  apply (array_argsort_other_rank lp64_sizeof example_get_dpnp_fn_ptr
           (Array int64 2 layout_C) float64 2%nat layout_C "quicksort").
  discriminate.
Defined.

(* ------------------------------------------------------------------ *)
(** ** Symbol resolution *)

Ltac lower_op :=
  match goal with
  | |- context [lower ?c ?o ?s ?a ?b] =>
      let t := eval cbv -[Z.eqb Z.mul Z.gtb Z.leb Z.ltb Z.to_nat Z.of_nat
                          Z.pow Z.sub Z.add Z.div Z.modulo Z.max name
                          dtype_name check_c_int_impl dot_2_vv_check_args
                          dot_2_mm_make_res dot_2_mv_make_res
                          dot_2_vm_make_res matmul_dppl_make_res
                          array_size_checker array_argsort_make_res
                          make_1D_res make_2D_res]
               in (lower c o s a b) in
      change (lower c o s a b) with t
  end.

(** X8. The backend symbol is resolved while the call site is lowered:
    when the resolver finds no symbol, every registered entry raises
    during lowering, so no code is produced and nothing runs. *)
Theorem unresolved_symbol_stops_lowering :
  forall sizeof glue rt op sig inputs memory,
    let context := {| get_abi_sizeof := sizeof;
                      dpnp_fptr_interface := Some glue |} in
    registered op sig = true ->
    (forall fn_name type_names, exists e, glue fn_name type_names = Raise e) ->
    exists e,
      compile_and_call context rt (lower context op) sig inputs memory
      = (Raise e, initial memory).
Proof.
  intros sizeof glue rt op [rty tys] inputs memory context Hreg Hglue;
    subst context.
  assert (Hno : forall fn_name type_names addr,
             glue fn_name type_names <> Ok addr).
  { intros f t a H. destruct (Hglue f t) as [e He]. congruence. }
  unfold compile_and_call.
  destruct op; cbn in Hreg;
    destruct tys as [|[dt1 nd1 l1| | | |] tys]; try discriminate Hreg.
  all: destruct tys as [|[dt2 nd2 l2| |lit| |] [|]]; cbn in Hreg;
    try discriminate Hreg.
  all: try (destruct nd1 as [|[|[|nd1]]]).
  all: try (destruct nd2 as [|[|[|nd2]]]).
  all: try destruct l1; try destruct l2.
  all: lower_op.
  all: try match goal with
           | |- context [match ?g ?a ?b with Ok _ => _ | Raise _ => _ end] =>
               destruct (g a b) as [addr|e] eqn:Eg;
                 [exfalso; exact (Hno _ _ _ Eg)|]
           end.
  all: eexists; reflexivity.
Qed.

Lemma unresolved_symbol_stops_lowering_witness :
  exists e,
    compile_and_call
      {| get_abi_sizeof := lp64_sizeof;
         dpnp_fptr_interface := Some no_symbols |}
      example_runtime
      (lower {| get_abi_sizeof := lp64_sizeof;
                dpnp_fptr_interface := Some no_symbols |} np_sum)
      sig_sum_int32 [VArray (mk_ndarray [3] int32 0)] [three_int32]
    = (Raise e, initial [three_int32]).
Proof.
  apply (unresolved_symbol_stops_lowering lp64_sizeof no_symbols
           example_runtime np_sum sig_sum_int32
           [VArray (mk_ndarray [3] int32 0)] [three_int32] eq_refl).
  intros fn_name type_names. exists (LookupError fn_name). reflexivity.
Defined.

(* ------------------------------------------------------------------ *)
(** ** Which entries work on the device *)

Lemma runtime_events_snoc t e :
  is_runtime_event e = false -> runtime_events (t ++ [e]) = runtime_events t.
Proof.
  intros H. unfold runtime_events. rewrite filter_app. cbn. rewrite H.
  apply app_nil_r.
Qed.

Ltac quiet_cases H :=
  repeat (match type of H with
          | context [match ?x with _ => _ end] => is_var x; destruct x
          | context [?f ?x] => is_fix f; is_var x; destruct x
          | context [if ?c then _ else _] => destruct c
          end; cbv beta iota in H);
  inversion H; subst; clear H; cbn [trace];
  try reflexivity; try (apply runtime_events_snoc; reflexivity).

Ltac quiet_tac f :=
  intros rt vs [rg cl bl dv tr] r m' H; unfold f in H;
  destruct vs as [|[z1|p1|[s1 d1 b1]|l1|bs1|] [|[z2|p2|[s2 d2 b2]|l2|bs2|] [|v3 vs]]];
  cbv -[Z.eqb Z.gtb Z.max Z.to_nat nitems_of block_count add_block
        arange_bytes app] in H;
  quiet_cases H.

Lemma quiet_check_c_int_impl : quiet check_c_int_impl.
Proof. quiet_tac check_c_int_impl. Qed.

Lemma quiet_dot_2_vv_check_args : quiet dot_2_vv_check_args.
Proof. quiet_tac dot_2_vv_check_args. Qed.

Lemma quiet_dot_2_mm_make_res : quiet dot_2_mm_make_res.
Proof. quiet_tac dot_2_mm_make_res. Qed.

Lemma quiet_dot_2_mv_make_res : quiet dot_2_mv_make_res.
Proof. quiet_tac dot_2_mv_make_res. Qed.

Lemma quiet_dot_2_vm_make_res : quiet dot_2_vm_make_res.
Proof. quiet_tac dot_2_vm_make_res. Qed.

Lemma quiet_array_argsort_make_res : quiet array_argsort_make_res.
Proof. quiet_tac array_argsort_make_res. Qed.

Lemma quiet_make_1D_res : quiet make_1D_res.
Proof. quiet_tac make_1D_res. Qed.

Lemma quiet_make_2D_res : quiet make_2D_res.
Proof. quiet_tac make_2D_res. Qed.

Lemma step_no_runtime_call context rt inputs i m r m' :
  no_runtime_call i ->
  step context rt inputs i m = (r, m') ->
  runtime_events (trace m') = runtime_events (trace m).
Proof.
  destruct m as [rg cl bl dv tr].
  destruct i; cbn [no_runtime_call]; intros Hi H; try contradiction.
  - cbn in H. inversion H; subst. reflexivity.
  - cbn in H.
    destruct (eval inputs _ v) as [x|]; [|inversion H; subst; reflexivity].
    destruct (eval inputs _ p) as [[?|[|c|?|?|?]|?|?|?|]|];
      try (inversion H; subst; reflexivity).
    destruct (nth_error cl c); inversion H; subst; reflexivity.
  - cbn in H.
    destruct (eval inputs _ p) as [[?|[|c|?|?|?]|?|?|?|]|];
      try (inversion H; subst; reflexivity).
    destruct (nth_error cl c); inversion H; subst; reflexivity.
  - cbn in H.
    destruct (eval inputs _ a) as [[]|]; try (inversion H; subst; reflexivity).
    destruct (eval inputs _ b) as [[]|]; inversion H; subst; reflexivity.
  - cbn in H. destruct (eval inputs _ v); inversion H; subst; reflexivity.
  - cbn in H. destruct (eval inputs _ v); inversion H; subst; reflexivity.
  - cbn in H. destruct (eval inputs _ v); inversion H; subst; reflexivity.
  - cbn in H.
    destruct (eval inputs _ fn) as [[addr| | | | |]|];
      try (inversion H; subst; reflexivity).
    destruct (eval_all inputs _ params) as [vs|];
      [|inversion H; subst; reflexivity].
    unfold call_native in H. inversion H; subst. cbn [trace].
    apply runtime_events_snoc. reflexivity.
  - cbn in H. unfold bind, get in H.
    destruct (eval_all inputs _ params) as [vs|].
    + cbn in H. eapply Hi. exact H.
    + inversion H; subst. reflexivity.
  - cbn in H.
    destruct (eval inputs _ val) as [[?|?|a|?|?|]|];
      try (inversion H; subst; reflexivity).
    destruct (block_at bl (nd_data a));
      inversion H; subst; [|reflexivity]. cbn [trace].
    apply runtime_events_snoc. reflexivity.
  - cbn in H. unfold bind, get in H.
    destruct (eval inputs _ val) as [v|]; cbn in H; inversion H; subst.
    + cbn [trace]. apply runtime_events_snoc. reflexivity.
    + reflexivity.
Qed.

Lemma run_no_runtime_call context rt inputs code :
  Forall no_runtime_call code ->
  forall m r m',
    run context rt inputs code m = (r, m') ->
    runtime_events (trace m') = runtime_events (trace m).
Proof.
  induction 1 as [|i code Hi Hcode IH]; intros m r m' H.
  - rewrite run_nil in H. inversion H; subst. reflexivity.
  - rewrite run_cons in H.
    destruct (step context rt inputs i m) as [[v|e] m1] eqn:E.
    + apply IH in H. rewrite H. cbn [next trace].
      eapply step_no_runtime_call; eassumption.
    + inversion H; subst. eapply step_no_runtime_call; eassumption.
Qed.

Ltac symb_code_quiet :=
  cbv -[Z.eqb Z.mul Z.gtb Z.leb Z.ltb Z.to_nat Z.of_nat Z.pow Z.sub Z.add
        Z.div Z.modulo Z.max name dtype_name quiet
        check_c_int_impl dot_2_vv_check_args dot_2_mm_make_res
        dot_2_mv_make_res dot_2_vm_make_res matmul_dppl_make_res
        array_size_checker array_argsort_make_res make_1D_res make_2D_res].

Ltac no_runtime_call_code :=
  unfold emitted; symb_code_quiet;
  try match goal with
      | |- context [match ?g ?a ?b with Ok _ => _ | Raise _ => _ end] =>
          destruct (g a b)
      end;
  repeat constructor;
  first [ apply quiet_check_c_int_impl | apply quiet_dot_2_vv_check_args
        | apply quiet_dot_2_mm_make_res | apply quiet_dot_2_mv_make_res
        | apply quiet_dot_2_vm_make_res | apply quiet_array_argsort_make_res
        | apply quiet_make_1D_res | apply quiet_make_2D_res ].

Lemma dot_dppl_no_runtime_call :
  forall context ret dt1 nd1 l1 dt2 nd2 l2,
    let sig := signature ret [Array dt1 nd1 l1; Array dt2 nd2 l2] in
    Forall no_runtime_call (emitted (dot_dppl context sig (arguments sig))).
Proof.
  intros [sz [glue|]] ret dt1 nd1 l1 dt2 nd2 l2 sig; subst sig;
    [|constructor].
  destruct nd1 as [|[|[|nd1]]], nd2 as [|[|[|nd2]]], l1, l2;
    no_runtime_call_code.
Qed.

Lemma array_argsort_no_runtime_call :
  forall context ret dt nd lay s,
    let sig := signature ret [Array dt nd lay; StringLiteral s] in
    Forall no_runtime_call (emitted (array_argsort context sig (arguments sig))).
Proof.
  intros [sz [glue|]] ret dt nd lay s sig; subst sig; [|constructor].
  destruct nd as [|[|[|nd]]]; no_runtime_call_code.
Qed.

Lemma array_cov_no_runtime_call :
  forall context ret dt nd lay,
    let sig := signature ret [Array dt nd lay] in
    Forall no_runtime_call (emitted (array_cov context sig (arguments sig))).
Proof.
  intros [sz [glue|]] ret dt nd lay sig; subst sig; [|constructor].
  destruct nd as [|[|[|nd]]]; no_runtime_call_code.
Qed.

Lemma compile_and_call_no_runtime_call context rt lowering sig inputs memory :
  Forall no_runtime_call (emitted (lowering sig (arguments sig))) ->
  runtime_events
    (trace (snd (compile_and_call context rt lowering sig inputs memory)))
  = [].
Proof.
  unfold emitted, compile_and_call. intros Hcode.
  destruct (lowering sig (arguments sig) []) as [[res|e] code]; [|reflexivity].
  cbn [snd] in Hcode.
  destruct (verify code); [|reflexivity].
  destruct (run context rt inputs code (initial memory)) as [[u|e] m] eqn:E.
  - apply (run_no_runtime_call _ _ _ _ Hcode) in E.
    destruct (eval inputs m res); exact E.
  - apply (run_no_runtime_call _ _ _ _ Hcode) in E. exact E.
Qed.

(** Only the reductions call the device runtime: the code of every other
    entry, run on any operands, neither obtains the queue nor allocates,
    copies or frees USM memory. *)
Lemma only_reductions_call_runtime :
  forall context rt op sig inputs memory,
    is_reduction op = false ->
    registered op sig = true ->
    runtime_events
      (trace (snd (compile_and_call context rt (lower context op) sig
                     inputs memory)))
    = [].
Proof.
  intros context rt op [ret tys] inputs memory Hop Hreg.
  destruct op; try discriminate Hop; cbn [lower];
    cbn in Hreg.
  - destruct tys as [|[dt1 nd1 l1| | | |] [|[dt2 nd2 l2| | | |] [|]]];
      try discriminate Hreg.
    apply compile_and_call_no_runtime_call. apply dot_dppl_no_runtime_call.
  - destruct tys as [|[dt1 nd1 l1| | | |] [|[dt2 nd2 l2| | | |] [|]]];
      try discriminate Hreg.
    destruct (matmul_dppl_raises context ret dt1 nd1 l1 dt2 nd2 l2)
      as (e & code & H).
    rewrite (compile_and_call_raise _ _ _ _ _ _ _ _ H). reflexivity.
  - destruct tys as [|[dt nd lay| | | |] [|[| |s| |] [|]]];
      try discriminate Hreg.
    apply compile_and_call_no_runtime_call. apply array_argsort_no_runtime_call.
  - destruct tys as [|[dt nd lay| | | |] [|]]; try discriminate Hreg.
    apply compile_and_call_no_runtime_call. apply array_cov_no_runtime_call.
Qed.

(** X9. A call of np.dot, np.matmul, np.argsort or np.cov never calls the
    device runtime: its events hold no request for the queue and no
    allocation, copy or release of USM memory, whatever its operands and
    however it ends.  These entries hand host pointers to the backend. *)
Theorem host_entries_never_call_device_runtime :
  forall context rt op sig inputs memory,
    is_reduction op = false ->
    registered op sig = true ->
    runtime_events
      (trace (snd (compile_and_call context rt (lower context op) sig
                     inputs memory)))
    = [].
Proof.
  intros context rt op sig inputs memory Hop Hreg.
  now apply only_reductions_call_runtime.
Qed.

Lemma host_entries_never_call_device_runtime_witness :
  runtime_events
    (trace (snd (compile_and_call example_context example_runtime
                   (lower example_context np_dot) sig_dot_matrices
                   [VArray (mk_ndarray [2; 3] float64 0);
                    VArray (mk_ndarray [3; 4] float64 1)] memory_2x3_3x4)))
  = [].
Proof.
  apply (host_entries_never_call_device_runtime example_context
           example_runtime np_dot sig_dot_matrices
           [VArray (mk_ndarray [2; 3] float64 0);
            VArray (mk_ndarray [3; 4] float64 1)] memory_2x3_3x4
           eq_refl eq_refl).
Defined.

(** X10. A reduction on a non-empty operand runs to its end through one
    fixed sequence: the queue, a USM buffer of the operand's byte size,
    the copy of the operand into it, a second USM buffer for the result,
    one invocation of the resolved symbol on the two buffers and the
    item count, the copy of the result into the result slot, and the
    release of the two buffers in the order they were allocated. *)
Theorem reduction_event_sequence :
  forall context rt op ret dt nd lay a memory res code,
    is_reduction op = true ->
    let sig := signature ret [Array dt nd lay] in
    lower context op sig (arguments sig) [] = (Ok res, code) ->
    has_type memory (Array dt nd lay) (VArray a) = true ->
    nitems_of (nd_shape a) <> 0 ->
    exists glue addr v mach,
      dpnp_fptr_interface context = Some glue
      /\ glue (backend_name op) (reduction_type_names op ret dt) = Ok addr
      /\ compile_and_call context rt (lower context op) sig [VArray a] memory
         = (Ok v, mach)
      /\ trace mach
         = reduction_trace (current_queue rt) (nd_data a)
             (wrap64 (nitems_of (nd_shape a)
                      * get_abi_sizeof context (get_value_type (Number dt))))
             (out_size context op ret dt) addr (nitems_of (nd_shape a)) 3.
Proof.
  intros context rt op ret dt nd lay [shape adt data] memory res code Hop sig
    Hlow Hty Hn.
  destruct (has_type_array _ _ _ _ _ Hty) as [bytes Hb]. cbn [nd_data] in Hb.
  destruct (reduction_run context rt op ret dt nd lay shape adt data memory
              bytes res code Hop Hlow Hb Hn)
    as (glue & addr & Hg & Ha & mach & Hrun & Htr & _).
  exists glue, addr. do 2 eexists. eauto.
Qed.

Lemma reduction_event_sequence_witness :
  exists glue addr v mach,
    dpnp_fptr_interface example_context = Some glue
    /\ glue (backend_name np_prod)
         (reduction_type_names np_prod (Number int64) int32) = Ok addr
    /\ compile_and_call example_context example_runtime
         (lower example_context np_prod) sig_sum_int32
         [VArray (mk_ndarray [3] int32 0)] [three_int32]
       = (Ok v, mach)
    /\ trace mach
       = reduction_trace (current_queue example_runtime) 0
           (wrap64 (nitems_of [3] * 4)) 4 addr (nitems_of [3]) 3.
Proof.
  assert (Hne : nitems_of [3] <> 0) by discriminate.
  apply (reduction_event_sequence example_context example_runtime np_prod
           (Number int64) int32 1 layout_C (mk_ndarray [3] int32 0)
           [three_int32] (Reg 35)
           (emitted (array_prod example_context sig_sum_int32
                       (arguments sig_sum_int32)))
           eq_refl eq_refl eq_refl Hne).
Defined.

(** X11. np.argmax and np.argmin allocate the device result with the size
    of the return type and copy back that many bytes: the value they
    return is the leading bytes, one for each byte of the return type, of
    what the function resolved for "dpnp_argmax" left in the result
    buffer when it was invoked on the staged operand and that buffer. *)
Theorem argmax_argmin_copy_back_return_type :
  forall context rt op ret dt nd lay a memory bytes res code,
    op = np_argmax \/ op = np_argmin ->
    let sig := signature ret [Array dt nd lay] in
    lower context op sig (arguments sig) [] = (Ok res, code) ->
    block_at memory (nd_data a) = Some bytes ->
    nitems_of (nd_shape a) <> 0 ->
    let n := nitems_of (nd_shape a) in
    let s_ret := get_abi_sizeof context (get_value_type ret) in
    let total :=
      wrap64 (n * get_abi_sizeof context (get_value_type (Number dt))) in
    let Q := VPtr (PQueue (current_queue rt)) in
    exists glue addr,
      dpnp_fptr_interface context = Some glue
      /\ glue "dpnp_argmax" [dtype_name dt; name ret] = Ok addr
      /\ let staged := splice total bytes (fresh_usm rt total) in
         let out_dev :=
           backend rt addr [VPtr (PDev 0); VPtr (PDev 1); VInt n]
             [staged; fresh_usm rt s_ret] 1 in
         exists mach,
           compile_and_call context rt (lower context op) sig [VArray a]
             memory
           = (Ok (VBytes (firstn (Z.to_nat s_ret) out_dev)), mach)
           /\ In (EvMalloc 1 s_ret Q) (trace mach)
           /\ In (EvMemcpy Q (VPtr (PCell 3)) (VPtr (PDev 1)) s_ret)
                (trace mach).
Proof.
  intros context rt op ret dt nd lay [shape adt data] memory bytes res code
    Hop sig Hlow Hb Hn n s_ret total Q.
  assert (Hred : is_reduction op = true) by (destruct Hop; subst; reflexivity).
  cbn [nd_data] in Hb.
  destruct (reduction_run context rt op ret dt nd lay shape adt data memory
              bytes res code Hred Hlow Hb Hn)
    as (glue & addr & Hg & Ha & mach & Hrun & Htr & _).
  assert (Hsz : out_size context op ret dt = s_ret)
    by (destruct Hop; subst; reflexivity).
  assert (Hname : backend_name op = "dpnp_argmax")
    by (destruct Hop; subst; reflexivity).
  assert (Htn : reduction_type_names op ret dt = [dtype_name dt; name ret])
    by (destruct Hop; subst; reflexivity).
  rewrite Hname, Htn in Ha.
  rewrite Hsz in Hrun, Htr. rewrite splice_zeros in Hrun.
  rewrite Nat.sub_diag in Hrun. cbn [repeat] in Hrun. rewrite app_nil_r in Hrun.
  exists glue, addr. split; [exact Hg|]. split; [exact Ha|].
  exists mach. split; [exact Hrun|]. rewrite Htr.
  unfold reduction_trace. cbn [In]. split; auto 10.
Qed.

Lemma argmax_argmin_copy_back_return_type_witness :
  exists glue addr,
    dpnp_fptr_interface example_context = Some glue
    /\ glue "dpnp_argmax" [dtype_name int32; name (Number int64)] = Ok addr
    /\ exists mach,
        compile_and_call example_context example_runtime
          (lower example_context np_argmax) sig_argmax_int32
          [VArray (mk_ndarray [3] int32 0)] [three_int32]
        = (Ok (VBytes
                 (firstn (Z.to_nat 8)
                    (backend example_runtime addr
                       [VPtr (PDev 0); VPtr (PDev 1); VInt (nitems_of [3])]
                       [splice (wrap64 (nitems_of [3] * 4)) three_int32
                          (fresh_usm example_runtime
                             (wrap64 (nitems_of [3] * 4)));
                        fresh_usm example_runtime 8] 1))), mach)
        /\ In (EvMalloc 1 8 (VPtr (PQueue (current_queue example_runtime))))
             (trace mach)
        /\ In (EvMemcpy (VPtr (PQueue (current_queue example_runtime)))
                 (VPtr (PCell 3)) (VPtr (PDev 1)) 8) (trace mach).
Proof.
  assert (Hne : nitems_of [3] <> 0) by discriminate.
  apply (argmax_argmin_copy_back_return_type example_context example_runtime
           np_argmax (Number int64) int32 1 layout_C
           (mk_ndarray [3] int32 0) [three_int32] three_int32 (Reg 35)
           (emitted (array_argmax example_context sig_argmax_int32
                       (arguments sig_argmax_int32)))
           (or_introl eq_refl) eq_refl eq_refl Hne).
Defined.

(** X12. The reductions do not normalise the layout of their operand: the
    code they emit holds no array copy and no decref, for every layout
    of the operand. *)
Theorem reductions_emit_no_copy :
  forall context op ret dt nd lay res code,
    is_reduction op = true ->
    let sig := signature ret [Array dt nd lay] in
    lower context op sig (arguments sig) [] = (Ok res, code) ->
    filter is_array_copy code = [] /\ filter is_decref code = [].
Proof.
  intros [sz [glue|]] op ret dt nd lay res code Hop sig Hlow; subst sig.
  2:{ destruct op; discriminate. }
  destruct op; try discriminate Hop;
    revert Hlow; symb_code;
    (destruct (glue _ _) as [addr|e]; [|discriminate]);
    intros Hlow; inversion Hlow; subst; clear Hlow;
    split; reflexivity.
Qed.

Lemma reductions_emit_no_copy_witness :
  filter is_array_copy
    (emitted (array_sum example_context
                (signature (Number int64) [Array int32 2 layout_A])
                [Arg 0]))
  = []
  /\ filter is_decref
       (emitted (array_sum example_context
                   (signature (Number int64) [Array int32 2 layout_A])
                   [Arg 0]))
     = [].
Proof.
  apply (reductions_emit_no_copy example_context np_sum (Number int64) int32
           2%nat layout_A (Reg 35)
           (emitted (array_sum example_context
                       (signature (Number int64) [Array int32 2 layout_A])
                       [Arg 0]))
           eq_refl eq_refl).
Defined.

(* ------------------------------------------------------------------ *)
(** ** make_contiguous *)

Lemma make_contiguous_loop_contiguous tys vals b :
  exists newtys newargs copies b',
    make_contiguous_loop tys vals b = (Ok (newtys, newargs, copies), b')
    /\ forallb contiguous newtys = true
    /\ List.length newtys = Nat.min (List.length tys) (List.length vals)
    /\ List.length newargs = List.length newtys.
Proof.
  revert vals b. induction tys as [|ty tys IH]; intros vals b.
  - exists [], [], [], b. repeat split.
  - destruct vals as [|val vals].
    + exists [], [], [], b. repeat split.
    + cbn [make_contiguous_loop].
      destruct ty as [dt nd lay| | | |];
        [destruct (layout_in_CF lay) eqn:El|..].
      2:{ destruct (IH vals (b ++ [array_copy
                     (signature (copy_layout_C (Array dt nd lay))
                        [Array dt nd lay]) val]))
            as (newtys & newargs & copies & b' & H & Hc & Hl & Hl').
          unfold bind at 1. unfold bind at 1. unfold emit. cbn [ret].
          unfold bind at 1. rewrite H. cbn [ret].
          do 4 eexists. split; [reflexivity|].
          cbn [forallb contiguous copy_layout_C layout_in_CF List.length
               Nat.min].
          rewrite Hc, Hl', Hl. repeat split. }
      all: destruct (IH vals b)
             as (newtys & newargs & copies & b' & H & Hc & Hl & Hl');
        unfold bind at 1; cbn [ret]; unfold bind at 1; rewrite H; cbn [ret];
        do 4 eexists; (split; [reflexivity|]);
        cbn [forallb contiguous List.length Nat.min];
        rewrite ?El, Hc, Hl', Hl; repeat split.
Qed.

(** X13. make_contiguous calls the wrapped lowering with the return type
    unchanged, with a signature whose array types are all contiguous and
    with one operand per type; operands beyond the shorter of the two
    lists are dropped. *)
Theorem make_contiguous_normalises :
  forall R (body : Signature -> list operand -> M R) sig args b,
    exists newtys newargs copies,
      forallb contiguous newtys = true
      /\ List.length newtys
         = Nat.min (List.length (sig_args sig)) (List.length args)
      /\ List.length newargs = List.length newtys
      /\ make_contiguous sig args body b
         = match body (signature (return_type sig) newtys) newargs
                   (b ++ copy_instrs (sig_args sig) args) with
           | (Ok r, b') => (Ok r, b' ++ map decref_of copies)
           | (Raise e, b') => (Raise e, b')
           end.
Proof.
  intros R body sig args b.
  destruct (make_contiguous_spec R body sig args b)
    as (newtys & newargs & copies & Hloop & _ & Hmc).
  destruct (make_contiguous_loop_contiguous (sig_args sig) args b)
    as (newtys' & newargs' & copies' & b1 & Hloop' & Hc & Hl & Hl').
  rewrite Hloop in Hloop'. injection Hloop' as <- <- _ _.
  exists newtys, newargs, copies. repeat (split; [assumption|]). exact Hmc.
Qed.

(** X14. On a signature whose array types are all contiguous,
    make_contiguous is the wrapped lowering itself: it emits no copy and
    no decref. *)
Theorem make_contiguous_identity_on_contiguous :
  forall R (body : Signature -> list operand -> M R) sig args b,
    forallb contiguous (sig_args sig) = true ->
    List.length args = List.length (sig_args sig) ->
    make_contiguous sig args body b = body sig args b.
Proof.
  intros R body [rty tys] args b Hc Hl. cbn [sig_args] in *.
  assert (Hloop : forall b0,
             make_contiguous_loop tys args b0 = (Ok (tys, args, []), b0)).
  { clear body. revert args Hl.
    induction tys as [|ty tys IH]; intros [|val args] Hl b0;
      try discriminate Hl.
    - reflexivity.
    - cbn [forallb] in Hc. apply andb_prop in Hc. destruct Hc as [Hty Hc].
      injection Hl as Hl. cbn [make_contiguous_loop].
      destruct ty as [dt nd lay| | | |]; cbn [contiguous] in Hty;
        try rewrite Hty;
        unfold bind at 1; cbn [ret]; unfold bind at 1;
        rewrite (IH Hc args Hl b0); reflexivity. }
  unfold make_contiguous, bind at 1. rewrite Hloop.
  cbn [return_type].
  destruct (body _ _ b) as [[r|e] b']; [|reflexivity].
  cbn [decref_all ret]. reflexivity.
Qed.

Lemma make_contiguous_identity_on_contiguous_witness :
  make_contiguous sig_dot_vectors [Arg 0; Arg 1] first_operand []
  = first_operand sig_dot_vectors [Arg 0; Arg 1] [].
Proof.
  apply (make_contiguous_identity_on_contiguous operand first_operand
           sig_dot_vectors [Arg 0; Arg 1] [] eq_refl eq_refl).
Defined.

(* ------------------------------------------------------------------ *)
(** * Properties of the OpenCL decorators *)

Section DecoratorProperties.
Import decorators.

Variable sigobj : Type.
Variable normalize_signature : sigobj -> result (list type * option type).
Variable OCL_DEBUGINFO_DEFAULT : bool.

Lemma resolve_debug_idem debug :
  resolve_debug OCL_DEBUGINFO_DEFAULT
    (Some (resolve_debug OCL_DEBUGINFO_DEFAULT debug))
  = resolve_debug OCL_DEBUGINFO_DEFAULT debug.
Proof. reflexivity. Qed.

(** X15. jit on a signature, as a kernel: a signature whose return type is
    void or absent yields the kernel decorator, carrying the argument
    types of the signature; any other return type raises the TypeError
    on the void return type.  As a device function every return type is
    accepted. *)
Theorem kernel_signature_must_return_void :
  forall s args rt inline bind link debug kws,
    normalize_signature s = Ok (args, rt) ->
    jit normalize_signature OCL_DEBUGINFO_DEFAULT
        (Some (Sig s)) None false inline bind link debug kws
    = match rt with
      | Some none | None =>
          Ok (kernel_jit (Some args) link
                (resolve_debug OCL_DEBUGINFO_DEFAULT debug) inline
                (dict_get kws "fastmath" (KwBool false)) bind)
      | Some _ => Raise (TypeError "OCL kernel must have void return type.")
      end
    /\ jit normalize_signature OCL_DEBUGINFO_DEFAULT
        (Some (Sig s)) None true inline bind link debug kws
       = Ok (device_jit (option_map TypeObj rt) (Some args)
               inline (resolve_debug OCL_DEBUGINFO_DEFAULT debug)).
Proof.
  intros s args rt inline bind link debug kws Hn.
  unfold decorators.jit, convert_types. cbn [is_None is_signature andb negb].
  rewrite Hn. split.
  - destruct rt as [[]|]; reflexivity.
  - destruct rt as [[]|]; reflexivity.
Qed.

(** X16. jit on a function with device=True and no further keywords
    returns the device function template with inlining off, whatever
    link and inline it was given: neither reaches jitdevice, which on
    its own raises the ValueError for a non-empty link. *)
Theorem device_function_ignores_link_and_inline :
  forall func inline bind link debug,
    is_signature (Some func) = false ->
    jit normalize_signature OCL_DEBUGINFO_DEFAULT
        (Some func) None true inline bind link debug []
    = Ok (DeviceFunctionTemplate func
            (resolve_debug OCL_DEBUGINFO_DEFAULT debug) (KwBool false))
    /\ (link <> [] ->
        jitdevice OCL_DEBUGINFO_DEFAULT func (KwList link) debug (KwBool inline)
        = Raise (ValueError "link keyword invalid for device function")).
Proof.
  intros func inline bind link debug Hf. split.
  - unfold decorators.jit. rewrite Hf. reflexivity.
  - intros Hl. destruct link as [|l0 link]; [congruence|]. reflexivity.
Qed.

(** X17. jit on a function with device=True passes its extra keywords on to
    jitdevice, which has no parameter for them: any extra keyword, such
    as fastmath, makes the call raise a TypeError. *)
Theorem device_function_rejects_extra_keywords :
  forall func inline bind link debug kws,
    is_signature (Some func) = false ->
    valid_kws kws = true ->
    kws <> [] ->
    exists msg,
      jit normalize_signature OCL_DEBUGINFO_DEFAULT
          (Some func) None true inline bind link debug kws
      = Raise (TypeError msg).
Proof.
  intros func inline bind link debug kws Hf Hv Hk.
  unfold decorators.jit. rewrite Hf. cbn [is_None andb negb].
  destruct kws as [|[k v] kws]; [congruence|].
  cbn [valid_kws forallb fst] in Hv. apply andb_prop in Hv.
  destruct Hv as [Hv _].
  cbn [jitdevice_kws].
  destruct (String.eqb k "func" || String.eqb k "debug")%bool;
    [eexists; reflexivity|].
  unfold jit_parameters in Hv. cbn [existsb] in Hv.
  destruct (String.eqb k "link") eqn:E1.
  { rewrite ?E1, ?orb_true_r in Hv. discriminate Hv. }
  destruct (String.eqb k "inline") eqn:E2.
  { rewrite ?E2, ?orb_true_r in Hv. discriminate Hv. }
  eexists; reflexivity.
Qed.

(** X18. jit called without a function and without argument types returns a
    decorator; applying it to a function gives what jit gives on that
    function directly with the same arguments, so inline and link have
    no effect on either path. *)
Theorem jit_factory_matches_direct_call :
  forall func device inline bind link debug kws,
    is_signature (Some func) = false ->
    match jit normalize_signature OCL_DEBUGINFO_DEFAULT
        None None device inline bind link debug kws with
    | Ok dec => decorate normalize_signature OCL_DEBUGINFO_DEFAULT dec func
    | Raise e => Raise e
    end
    = jit normalize_signature OCL_DEBUGINFO_DEFAULT
        (Some func) None device inline bind link debug kws.
Proof.
  intros func device inline bind link debug kws Hf.
  unfold decorators.jit at 1. cbn [is_None is_signature andb negb].
  cbn [decorators.decorate].
  unfold decorators.jit. rewrite Hf. cbn [is_None andb negb].
  rewrite resolve_debug_idem. reflexivity.
Qed.

(** X19. jit on a function together with argtypes takes the function for
    the return type: as a kernel it raises the TypeError on the void
    return type, as a device function it returns a decorator whose
    return type is that function. *)
Theorem function_with_argtypes_is_taken_for_return_type :
  forall func argtypes inline bind link debug kws,
    is_signature (Some func) = false ->
    func <> TypeObj none ->
    jit normalize_signature OCL_DEBUGINFO_DEFAULT
        (Some func) (Some argtypes) false inline bind link debug kws
    = Raise (TypeError "OCL kernel must have void return type.")
    /\ jit normalize_signature OCL_DEBUGINFO_DEFAULT
        (Some func) (Some argtypes) true inline bind link debug kws
       = Ok (device_jit (Some func) (Some argtypes) inline
               (resolve_debug OCL_DEBUGINFO_DEFAULT debug)).
Proof.
  intros func argtypes inline bind link debug kws Hf Hv.
  unfold decorators.jit. cbn [is_None andb].
  destruct func as [f|s|t]; try discriminate Hf.
  - split; reflexivity.
  - destruct t; try (split; reflexivity). congruence.
Qed.

(** X20. A signature together with argtypes fails the assertion of
    convert_types, in jit and in declare_device alike. *)
Theorem signature_with_argtypes_asserts :
  forall s name argtypes device inline bind link debug kws,
    jit normalize_signature OCL_DEBUGINFO_DEFAULT
        (Some (Sig s)) (Some argtypes) device inline bind link debug kws
    = Raise AssertionError
    /\ declare_device normalize_signature name (Some (Sig s)) (Some argtypes)
       = Raise AssertionError.
Proof. intros. split; reflexivity. Qed.

(** X21. jit(argtypes=...) returns the kernel decorator: applied to a
    function it compiles the kernel with those argument types, the link,
    debug and inline settings of the call and the fastmath keyword
    (False when absent), and binds it when bind is set. *)
Theorem argtypes_decorator_compiles_kernel :
  forall func argtypes inline bind link debug kws,
    match jit normalize_signature OCL_DEBUGINFO_DEFAULT
        None (Some argtypes) false inline bind link debug kws with
    | Ok dec => decorate normalize_signature OCL_DEBUGINFO_DEFAULT dec func
    | Raise e => Raise e
    end
    = Ok (OCLKernel func (Some argtypes) link
            (resolve_debug OCL_DEBUGINFO_DEFAULT debug) inline
            (dict_get kws "fastmath" (KwBool false)) bind).
Proof. intros. reflexivity. Qed.

End DecoratorProperties.

Section DecoratorExamples.
Import decorators decorators_examples.

Lemma kernel_signature_must_return_void_witness :
  jit normalize_Signature false
    (Some (Sig (signature (Number float64) [Array float64 1 layout_C])))
    None false false true [] None []
  = Raise (TypeError "OCL kernel must have void return type.")
  /\ jit normalize_Signature false
       (Some (Sig (signature (Number float64) [Array float64 1 layout_C])))
       None true false true [] None []
     = Ok (device_jit (Some (TypeObj (Number float64)))
             (Some [Array float64 1 layout_C]) false false).
Proof.
  apply (kernel_signature_must_return_void Signature
           normalize_Signature false
           (signature (Number float64) [Array float64 1 layout_C])
           [Array float64 1 layout_C] (Some (Number float64))
           false true [] None [] eq_refl).
Defined.

Lemma device_function_ignores_link_and_inline_witness :
  jit normalize_Signature false
    (Some (Function "f")) None true true true ["lib.cl"] None []
  = Ok (DeviceFunctionTemplate (Function "f") false (KwBool false))
  /\ jitdevice (sigobj := Signature) false (Function "f")
       (KwList ["lib.cl"]) None (KwBool true)
     = Raise (ValueError "link keyword invalid for device function").
Proof.
  destruct (device_function_ignores_link_and_inline Signature
              normalize_Signature false
              (Function "f") true true ["lib.cl"] None eq_refl)
    as [Hjit Hdev].
  split; [exact Hjit | apply Hdev; discriminate].
Defined.

Lemma device_function_rejects_extra_keywords_witness :
  exists msg,
    jit normalize_Signature false
      (Some (Function "f")) None true false true [] None
      [("fastmath", KwBool true)]
    = Raise (TypeError msg).
Proof.
  apply (device_function_rejects_extra_keywords Signature
           normalize_Signature false
           (Function "f") false true [] None [("fastmath", KwBool true)]
           eq_refl eq_refl).
  discriminate.
Defined.

Lemma jit_factory_matches_direct_call_witness :
  match jit normalize_Signature false
          None None false true true ["lib.cl"] (Some true) [] with
  | Ok dec =>
      decorate normalize_Signature false dec (Function "f")
  | Raise e => Raise e
  end
  = jit normalize_Signature false
      (Some (Function "f")) None false true true ["lib.cl"] (Some true) [].
Proof.
  apply (jit_factory_matches_direct_call Signature
           normalize_Signature false
           (Function "f") false true true ["lib.cl"] (Some true) [] eq_refl).
Defined.

Lemma function_with_argtypes_is_taken_for_return_type_witness :
  jit normalize_Signature false
    (Some (Function "f")) (Some [Number int32]) false false true [] None []
  = Raise (TypeError "OCL kernel must have void return type.")
  /\ jit normalize_Signature false
       (Some (Function "f")) (Some [Number int32]) true false true [] None []
     = Ok (device_jit (Some (Function "f")) (Some [Number int32]) false false).
Proof.
  apply (function_with_argtypes_is_taken_for_return_type Signature
           normalize_Signature false
           (Function "f") [Number int32] false true [] None [] eq_refl).
  discriminate.
Defined.

End DecoratorExamples.

(* ------------------------------------------------------------------ *)
(** * Properties of the power kernels *)

Section KernelProperties.
Import test_powi.

Variable float : Type.
Variable math_pow : float -> Z -> float.
Variable binop_pow : float -> Z -> float.

Lemma list_set_length (l : list float) i v :
  List.length (list_set l i v) = List.length l.
Proof.
  revert i; induction l as [|a l IH]; intros [|i]; cbn; auto.
Qed.

Lemma nth_error_list_set (l : list float) i j v :
  nth_error (list_set l i v) j
  = if (Nat.eqb i j && Nat.ltb i (List.length l))%bool then Some v
    else nth_error l j.
Proof.
  revert i j; induction l as [|a l IH]; intros [|i] [|j];
    cbn [list_set nth_error]; try reflexivity.
  - cbn. rewrite andb_false_r. reflexivity.
  - rewrite IH. cbn [Nat.eqb List.length].
    replace (S i <? S (List.length l))%nat with (i <? List.length l)%nat;
      [reflexivity|].
    destruct (Nat.ltb_spec i (List.length l)),
      (Nat.ltb_spec (S i) (S (List.length l))); try reflexivity; lia.
Qed.

Lemma flat_index_inj n y x y' x' :
  (x < n)%nat -> (x' < n)%nat ->
  (y * n + x = y' * n + x')%nat -> y = y' /\ x = x'.
Proof.
  intros Hx Hx' H.
  assert (Hy : y = y').
  { destruct (Nat.lt_trichotomy y y') as [Hlt|[Heq|Hlt]]; [|exact Heq|];
      exfalso.
    - assert (Hm : ((y + 1) * n <= y' * n)%nat)
        by (apply Nat.mul_le_mono_r; lia).
      rewrite Nat.mul_add_distr_r, Nat.mul_1_l in Hm. lia.
    - assert (Hm : ((y' + 1) * n <= y * n)%nat)
        by (apply Nat.mul_le_mono_r; lia).
      rewrite Nat.mul_add_distr_r, Nat.mul_1_l in Hm. lia. }
  subst y'. split; [reflexivity | lia].
Qed.

Lemma flat_index_lt m n y x :
  (y < m)%nat -> (x < n)%nat -> (y * n + x < m * n)%nat.
Proof.
  intros Hy Hx.
  assert (Hm : ((y + 1) * n <= m * n)%nat) by (apply Nat.mul_le_mono_r; lia).
  rewrite Nat.mul_add_distr_r, Nat.mul_1_l in Hm. lia.
Qed.

(** What a launch of a kernel that stores [f (A[y, x])] under the guard
    leaves in the output. *)
Lemma launch_guarded_store
    (kernel : device_array float -> nat * nat -> result (device_array float))
    (f : float -> float) (A : device_array float) :
  (forall out y x,
      kernel out (y, x)
      = if ((snd (shape out) <=? x)%nat || (fst (shape out) <=? y)%nat)%bool
        then Ok out
        else match getitem A y x with
             | Some a => Ok (setitem out y x (f a))
             | None => Raise (Fault "read outside the buffer")
             end) ->
  forall items power_A,
    well_formed A -> well_formed power_A -> shape A = shape power_A ->
    exists out,
      launch kernel items power_A = Ok out
      /\ shape out = shape power_A
      /\ well_formed out
      /\ forall y x,
          (y < fst (shape power_A))%nat -> (x < snd (shape power_A))%nat ->
          getitem out y x
          = if scheduled items y x then option_map f (getitem A y x)
            else getitem power_A y x.
Proof.
  intros Hk items. induction items as [|[y0 x0] items IH];
    intros power_A HA HP Hs.
  - exists power_A. repeat split; auto.
  - cbn [launch]. rewrite Hk.
    destruct power_A as [[m n] buf]. destruct A as [[mA nA] bufA].
    unfold well_formed in *. cbn [shape buffer fst snd] in *.
    injection Hs as -> ->.
    destruct (Nat.leb_spec n x0) as [Hx0|Hx0]; cbn [orb].
    { destruct (IH (mk_device_array (m, n) buf) HA HP eq_refl)
        as (out & Hrun & Hsh & Hwf & Hget).
      exists out. repeat split; auto. intros y x Hy Hx.
      rewrite (Hget y x Hy Hx). cbn [scheduled existsb fst snd].
      destruct (Nat.eqb_spec x0 x); [lia|]. rewrite andb_false_r. reflexivity. }
    destruct (Nat.leb_spec m y0) as [Hy0|Hy0].
    { destruct (IH (mk_device_array (m, n) buf) HA HP eq_refl)
        as (out & Hrun & Hsh & Hwf & Hget).
      exists out. repeat split; auto. intros y x Hy Hx.
      rewrite (Hget y x Hy Hx). cbn [scheduled existsb fst snd].
      destruct (Nat.eqb_spec y0 y); [lia|]. reflexivity. }
    unfold getitem at 1. cbn [shape buffer snd].
    pose proof (flat_index_lt m n y0 x0 Hy0 Hx0) as Hlt.
    destruct (nth_error bufA (y0 * n + x0)) as [a|] eqn:Ea.
    2:{ apply nth_error_None in Ea. lia. }
    unfold setitem. cbn [shape buffer snd].
    destruct (IH (mk_device_array (m, n) (list_set buf (y0 * n + x0) (f a))))
      as (out & Hrun & Hsh & Hwf & Hget); auto.
    { unfold well_formed. cbn [shape buffer fst snd].
      rewrite list_set_length. exact HP. }
    cbn [shape fst snd] in *.
    exists out. repeat split; auto. intros y x Hy Hx.
    rewrite (Hget y x Hy Hx). cbn [scheduled existsb fst snd].
    fold (scheduled items y x).
    destruct (scheduled items y x) eqn:Es.
    + rewrite orb_true_r. reflexivity.
    + rewrite orb_false_r. unfold getitem. cbn [shape buffer snd].
      rewrite nth_error_list_set.
      destruct (Nat.eqb_spec y0 y) as [->|Hny].
      * destruct (Nat.eqb_spec x0 x) as [->|Hnx]; cbn [andb].
        -- rewrite Nat.eqb_refl. cbn [andb].
           destruct (Nat.ltb_spec (y * n + x) (List.length buf)); [|lia].
           rewrite Ea. reflexivity.
        -- destruct (Nat.eqb_spec (y * n + x0) (y * n + x)); [lia|].
           reflexivity.
      * cbn [andb].
        destruct (Nat.eqb_spec (y0 * n + x0) (y * n + x)) as [E|];
          [|reflexivity].
        apply flat_index_inj in E; auto. lia.
Qed.

Lemma int32_small z : - 2 ^ 31 <= z < 2 ^ 31 -> int32 z = z.
Proof.
  intros H. unfold int32. rewrite Z.mod_small; lia.
Qed.

(** A launch whose work items cover the shape of the output stores
    [f (A[y, x])] in every cell. *)
Lemma launch_covering
    (kernel : device_array float -> nat * nat -> result (device_array float))
    (f : float -> float) (A : device_array float) :
  (forall out y x,
      kernel out (y, x)
      = if ((snd (shape out) <=? x)%nat || (fst (shape out) <=? y)%nat)%bool
        then Ok out
        else match getitem A y x with
             | Some a => Ok (setitem out y x (f a))
             | None => Raise (Fault "read outside the buffer")
             end) ->
  forall items power_A,
    well_formed A -> well_formed power_A -> shape A = shape power_A ->
    (forall y x,
        (y < fst (shape power_A))%nat -> (x < snd (shape power_A))%nat ->
        scheduled items y x = true) ->
    launch kernel items power_A
    = Ok (mk_device_array (shape power_A) (map f (buffer A))).
Proof.
  intros Hk items power_A HA HP Hs Hcov.
  destruct (launch_guarded_store kernel f A Hk items power_A HA HP Hs)
    as ([sh buf] & Hrun & Hsh & Hwf & Hget).
  rewrite Hrun. cbn [shape] in Hsh. subst sh. f_equal. f_equal.
  apply nth_error_ext. intros i.
  destruct power_A as [[m n] bufP]. destruct A as [[mA nA] bufA].
  unfold well_formed, getitem in *. cbn [shape buffer fst snd] in *.
  injection Hs as -> ->.
  rewrite nth_error_map.
  destruct (Nat.ltb_spec i (m * n)) as [Hi|Hi].
  - assert (Hn : (0 < n)%nat) by (destruct n; [lia | lia]).
    pose proof (Nat.div_mod_eq i n) as Hdm.
    pose proof (Nat.mod_upper_bound i n ltac:(lia)) as Hx.
    assert (Hy : (i / n < m)%nat).
    { apply Nat.Div0.div_lt_upper_bound. lia. }
    specialize (Hget (i / n)%nat (i mod n)%nat Hy Hx).
    rewrite (Hcov _ _ Hy Hx) in Hget.
    replace (i / n * n + i mod n)%nat with i in Hget by lia.
    exact Hget.
  - destruct (nth_error buf i) eqn:E1.
    { assert (i < List.length buf)%nat by (apply nth_error_Some; congruence).
      lia. }
    destruct (nth_error bufA i) eqn:E2.
    { assert (i < List.length bufA)%nat by (apply nth_error_Some; congruence).
      lia. }
    reflexivity.
Qed.

(** X22. A launch of cu_mat_power on an input and an output of the same
    shape, over any work items in any order, runs to its end and keeps
    the shape of the output: a cell whose work item was scheduled holds
    math.pow of the input cell and int32(power), every other cell is
    unchanged; work items outside the shape write nothing. *)
Theorem cu_mat_power_launch :
  forall A power power_A items,
    well_formed A -> well_formed power_A -> shape A = shape power_A ->
    exists out,
      launch (cu_mat_power math_pow A power) items power_A = Ok out
      /\ shape out = shape power_A
      /\ forall y x,
          (y < fst (shape power_A))%nat -> (x < snd (shape power_A))%nat ->
          getitem out y x
          = if scheduled items y x
            then option_map (fun a => math_pow a (int32 power)) (getitem A y x)
            else getitem power_A y x.
Proof.
  intros A power power_A items HA HP Hs.
  destruct (launch_guarded_store (cu_mat_power math_pow A power)
              (fun a => math_pow a (int32 power)) A) with (items := items)
              (power_A := power_A)
    as (out & Hrun & Hsh & _ & Hget); auto.
  - intros [[m n] buf] y x. reflexivity.
  - exists out. auto.
Qed.

(** X23. The same for cu_mat_power_binop, which stores the input cell
    raised to the power as it was passed. *)
Theorem cu_mat_power_binop_launch :
  forall A power power_A items,
    well_formed A -> well_formed power_A -> shape A = shape power_A ->
    exists out,
      launch (cu_mat_power_binop binop_pow A power) items power_A = Ok out
      /\ shape out = shape power_A
      /\ forall y x,
          (y < fst (shape power_A))%nat -> (x < snd (shape power_A))%nat ->
          getitem out y x
          = if scheduled items y x
            then option_map (fun a => binop_pow a power) (getitem A y x)
            else getitem power_A y x.
Proof.
  intros A power power_A items HA HP Hs.
  destruct (launch_guarded_store (cu_mat_power_binop binop_pow A power)
              (fun a => binop_pow a power) A) with (items := items)
              (power_A := power_A)
    as (out & Hrun & Hsh & _ & Hget); auto.
  - intros [[m n] buf] y x. reflexivity.
  - exists out. auto.
Qed.

(** X24. When the work items cover the shape of the output and the power
    is an int8, as the test declares it, both kernels leave in the output
    the input with every item raised to the power, whatever the output
    held before and whatever the order of the work items. *)
Theorem powi_kernels_elementwise_on_covering_grid :
  forall A power power_A items,
    well_formed A -> well_formed power_A -> shape A = shape power_A ->
    - 128 <= power <= 127 ->
    (forall y x,
        (y < fst (shape power_A))%nat -> (x < snd (shape power_A))%nat ->
        scheduled items y x = true) ->
    launch (cu_mat_power math_pow A power) items power_A
    = Ok (mk_device_array (shape power_A)
            (map (fun a => math_pow a power) (buffer A)))
    /\ launch (cu_mat_power_binop binop_pow A power) items power_A
       = Ok (mk_device_array (shape power_A)
               (map (fun a => binop_pow a power) (buffer A))).
Proof.
  intros A power power_A items HA HP Hs Hp Hcov. split.
  - assert (E : int32 power = power) by (apply int32_small; lia).
    pose proof (launch_covering (cu_mat_power math_pow A power)
                  (fun a => math_pow a (int32 power)) A) as H.
    rewrite E in H. apply H; auto.
    intros [[m n] buf] y x. unfold cu_mat_power. rewrite E. reflexivity.
  - apply launch_covering; auto.
    intros [[m n] buf] y x. reflexivity.
Qed.

End KernelProperties.

Section KernelExamples.
Import test_powi test_powi_examples.

Lemma cu_mat_power_launch_witness :
  exists out,
    launch (cu_mat_power Z.pow A 2) [(1, 2); (0, 0); (4, 4)]%nat Aout = Ok out
    /\ shape out = shape Aout
    /\ forall y x,
        (y < fst (shape Aout))%nat -> (x < snd (shape Aout))%nat ->
        getitem out y x
        = if scheduled [(1, 2); (0, 0); (4, 4)]%nat y x
          then option_map (fun a => a ^ int32 2) (getitem A y x)
          else getitem Aout y x.
Proof.
  apply (cu_mat_power_launch Z Z.pow A 2 Aout [(1, 2); (0, 0); (4, 4)]%nat
           eq_refl eq_refl eq_refl).
Defined.

Lemma cu_mat_power_binop_launch_witness :
  exists out,
    launch (cu_mat_power_binop Z.pow A 2) [(1, 2); (0, 0); (4, 4)]%nat Aout
    = Ok out
    /\ shape out = shape Aout
    /\ forall y x,
        (y < fst (shape Aout))%nat -> (x < snd (shape Aout))%nat ->
        getitem out y x
        = if scheduled [(1, 2); (0, 0); (4, 4)]%nat y x
          then option_map (fun a => a ^ 2) (getitem A y x)
          else getitem Aout y x.
Proof.
  apply (cu_mat_power_binop_launch Z Z.pow A 2 Aout
           [(1, 2); (0, 0); (4, 4)]%nat eq_refl eq_refl eq_refl).
Defined.

Lemma powi_kernels_elementwise_on_covering_grid_witness :
  launch (cu_mat_power Z.pow A 2) items Aout
  = Ok (mk_device_array (2, 3)%nat [0; 1; 4; 9; 16; 25])
  /\ launch (cu_mat_power_binop Z.pow A 2) items Aout
     = Ok (mk_device_array (2, 3)%nat [0; 1; 4; 9; 16; 25]).
Proof.
  apply (powi_kernels_elementwise_on_covering_grid Z Z.pow Z.pow A 2 Aout
           items eq_refl eq_refl eq_refl).
  - lia.
  - intros y x Hy Hx. cbn in Hy, Hx.
    destruct y as [|[|y]]; [| |lia];
      (destruct x as [|[|[|x]]]; [| | |lia]); reflexivity.
Defined.

End KernelExamples.
